(** * obsidian-random-highlight: the highlight pipeline of [BookHighlightsView]

    A shallow embedding of [src/BookHighlightsView.ts] and of the settings of
    [main.ts]: frontmatter extraction, the frontmatter filter, filename
    parsing, callout (highlight) extraction, the refresh pass with its cap,
    and the random sample shown in the pane.

    Conventions of the embedding.
    - A JavaScript string is a [string]: a sequence of code units below 256.
    - A regular expression literal of the source is a value of [regex], run by
      a backtracking matcher that follows the ECMAScript priorities (greedy
      and lazy iteration, alternatives left to right, look-ahead, captures).
      The pattern that [parseTitleAndAuthor] builds as text is built as text
      here too, and parsed.
    - Values decoded from YAML or JSON are [jsval]s, plain data; a number is
      kept as its canonical rendering, the text [String(n)] returns, since the
      program only stringifies numbers and tests them for truthiness.  The
      conversion of a value to a string can throw, and a property read finds
      what the value has of its own and what it inherits.
    - Arrays of highlights are objects in a heap, so that copying, sorting in
      place and slicing can be told apart.
    - The host (js-yaml, [JSON.parse], the prototypes of the engine,
      [Array.prototype.sort], [Math.random], the vault, [createEl]) is a
      parameter of the sections that call it.  Of the host calls made outside
      the per-file guard, the listing of the vault and the [createEl] calls
      of displayHighlights may throw; the calls of the console, those of
      onOpen and the [createEl] of the catch are taken to complete. *)

From Stdlib Require Import String Ascii List ZArith Lia Bool Permutation QArith.
From stdpp Require Import gmap strings.

Local Close Scope Q_scope.
Local Open Scope string_scope.
Local Open Scope list_scope.
Set Warnings "-register-all".

(** ** Characters and strings *)

Module Chars.

Definition code (c : ascii) : nat := nat_of_ascii c.

Definition newline : ascii := "010"%char.
Definition dquote : ascii := "034"%char.

(** ECMAScript LineTerminator, below code unit 256. *)
Definition is_line_terminator (c : ascii) : bool :=
  (code c =? 10)%nat || (code c =? 13)%nat.

(** ECMAScript WhiteSpace and LineTerminator, below code unit 256: what [\s]
    matches and what [trim] strips. *)
Definition is_space (c : ascii) : bool :=
  ((9 <=? code c)%nat && (code c <=? 13)%nat) || (code c =? 32)%nat || (code c =? 160)%nat.

Definition is_digit (c : ascii) : bool := (48 <=? code c)%nat && (code c <=? 57)%nat.
Definition is_upper (c : ascii) : bool := (65 <=? code c)%nat && (code c <=? 90)%nat.
Definition is_lower (c : ascii) : bool := (97 <=? code c)%nat && (code c <=? 122)%nat.

(** [\w] *)
Definition is_word (c : ascii) : bool :=
  is_digit c || is_upper c || is_lower c || (code c =? 95)%nat.

(** Canonicalize of the [i] flag: upper-casing of the ASCII letters. *)
Definition upcase (c : ascii) : ascii :=
  if is_lower c then ascii_of_nat (code c - 32) else c.

End Chars.

Module Str.

Definition nl : string := String Chars.newline EmptyString.

Fixpoint drop (n : nat) (s : string) : string :=
  match n, s with
  | O, _ => s
  | S n', String _ s' => drop n' s'
  | S _, EmptyString => EmptyString
  end.

Fixpoint take (n : nat) (s : string) : string :=
  match n, s with
  | O, _ => EmptyString
  | S n', String c s' => String c (take n' s')
  | S _, EmptyString => EmptyString
  end.

Definition is_empty (s : string) : bool :=
  match s with EmptyString => true | _ => false end.

Fixpoint ltrim (s : string) : string :=
  match s with
  | String c s' => if Chars.is_space c then ltrim s' else s
  | EmptyString => EmptyString
  end.

Fixpoint rtrim (s : string) : string :=
  match s with
  | String c s' =>
      let t := rtrim s' in
      if Chars.is_space c && is_empty t then EmptyString else String c t
  | EmptyString => EmptyString
  end.

(** [String.prototype.trim] *)
Definition trim (s : string) : string := rtrim (ltrim s).

(** [s.startsWith(p)] *)
Fixpoint startsWith (p s : string) : bool :=
  match p, s with
  | EmptyString, _ => true
  | String a p', String b s' => Ascii.eqb a b && startsWith p' s'
  | String _ _, EmptyString => false
  end.

(** [s.endsWith(p)] *)
Definition endsWith (p s : string) : bool :=
  (String.length p <=? String.length s)%nat
  && String.eqb (drop (String.length s - String.length p) s) p.

(** [s.indexOf(p)]: the first index at which [p] occurs, [None] for [-1]. *)
Fixpoint indexOf_from (p s : string) (i : nat) : option nat :=
  if startsWith p s then Some i
  else match s with
       | String _ s' => indexOf_from p s' (S i)
       | EmptyString => None
       end.

Definition indexOf (p s : string) : option nat := indexOf_from p s 0.

(** [s.split(sep)] for a separator of one unit. *)
Fixpoint split (sep : ascii) (s : string) : list string :=
  match s with
  | EmptyString => [EmptyString]
  | String c s' =>
      if Ascii.eqb c sep then EmptyString :: split sep s'
      else match split sep s' with
           | piece :: rest => String c piece :: rest
           | [] => [String c EmptyString]
           end
  end.

(** [s.split(sep).pop()] *)
Definition after_last (sep : ascii) (s : string) : string :=
  List.last (split sep s) EmptyString.

(** [lines.join(sep)] *)
Fixpoint join (sep : string) (l : list string) : string :=
  match l with
  | [] => EmptyString
  | [x] => x
  | x :: rest => x +:+ sep +:+ join sep rest
  end.

End Str.

(** ** Regular expressions *)

Module Re.

Inductive regex : Type :=
| Eps
| Chr (c : ascii)                      (* a literal character *)
| CSet (p : ascii -> bool)             (* a class: [...], [^...], \d, \w, \s, . *)
| Seq (r1 r2 : regex)
| Alt (r1 r2 : regex)                  (* r1|r2 *)
| Star (greedy : bool) (r : regex)     (* r* and r*? *)
| Group (n : nat) (r : regex)          (* the n-th capturing group *)
| Lookahead (r : regex)                (* (?=r) *)
| Bol                                  (* ^ without the m flag *)
| Eol.                                 (* $ without the m flag *)

(** r+ and r+? *)
Definition Plus (greedy : bool) (r : regex) : regex := Seq r (Star greedy r).
(** (?:r)? *)
Definition Opt (r : regex) : regex := Alt r Eps.

Fixpoint Lit (s : string) : regex :=
  match s with
  | EmptyString => Eps
  | String c s' => Seq (Chr c) (Lit s')
  end.

Fixpoint Cat (rs : list regex) : regex :=
  match rs with
  | [] => Eps
  | r :: rs' => Seq r (Cat rs')
  end.

(** . *)
Definition Dot : regex := CSet (fun c => negb (Chars.is_line_terminator c)).
(** [^c] *)
Definition NotChr (x : ascii) : regex := CSet (fun c => negb (Ascii.eqb c x)).
(** [\s\S] *)
Definition AnyChar : regex := CSet (fun _ => true).

Definition captures : Type := list (nat * string).

Fixpoint cap (n : nat) (cs : captures) : option string :=
  match cs with
  | [] => None
  | (m, s) :: cs' => if (m =? n)%nat then Some s else cap n cs'
  end.

(** What a successful attempt yields: the end position, the captures and the
    input left after the match. *)
Definition outcome : Type := (nat * captures * string)%type.
Definition cont : Type := string -> nat -> captures -> option outcome.

Definition char_eq (icase : bool) (c x : ascii) : bool :=
  if icase then Ascii.eqb (Chars.upcase c) (Chars.upcase x) else Ascii.eqb c x.

(** The rounds of an iteration [r*] or [r*?]: [step] runs [r] once, [k] is
    the rest of the pattern.  A round that reads nothing is not taken; so a
    round reads at least one unit and [S (length s)] rounds are never all
    used. *)
Fixpoint iterate (greedy : bool) (step : string -> nat -> captures -> cont -> option outcome)
    (k : cont) (rounds : nat) (s : string) (pos : nat) (cs : captures)
    {struct rounds} : option outcome :=
  match rounds with
  | O => k s pos cs
  | S rounds' =>
      let again : cont := fun s' pos' cs' =>
        if (pos <? pos')%nat then iterate greedy step k rounds' s' pos' cs' else None in
      if greedy then
        match step s pos cs again with
        | Some o => Some o
        | None => k s pos cs
        end
      else
        match k s pos cs with
        | Some o => Some o
        | None => step s pos cs again
        end
  end.

(** The backtracking matcher: [s] is the input from position [pos] on, [k]
    the rest of the pattern. *)
Fixpoint run (icase : bool) (r : regex) (s : string) (pos : nat) (cs : captures)
    (k : cont) {struct r} : option outcome :=
  match r with
  | Eps => k s pos cs
  | Chr c =>
      match s with
      | String x s' => if char_eq icase c x then k s' (S pos) cs else None
      | EmptyString => None
      end
  | CSet p =>
      match s with
      | String x s' => if p x then k s' (S pos) cs else None
      | EmptyString => None
      end
  | Seq r1 r2 =>
      run icase r1 s pos cs (fun s' pos' cs' => run icase r2 s' pos' cs' k)
  | Alt r1 r2 =>
      match run icase r1 s pos cs k with
      | Some o => Some o
      | None => run icase r2 s pos cs k
      end
  | Star greedy r1 =>
      iterate greedy (run icase r1) k (S (String.length s)) s pos cs
  | Group n r1 =>
      run icase r1 s pos cs
        (fun s' pos' cs' => k s' pos' ((n, Str.take (pos' - pos) s) :: cs'))
  | Lookahead r1 =>
      match run icase r1 s pos cs (fun s' pos' cs' => Some (pos', cs', s')) with
      | Some (_, cs', _) => k s pos cs'
      | None => None
      end
  | Bol => if (pos =? 0)%nat then k s pos cs else None
  | Eol => match s with EmptyString => k s pos cs | String _ _ => None end
  end.

Record regexp : Type := RegExp { re_body : regex; re_icase : bool }.

(** A match: its index, the matched text match[0], the captures, and the
    input before and after the match (before: from where the search began). *)
Record match_result : Type := Match {
  m_index : nat;
  m_text : string;
  m_caps : captures;
  m_before : string;
  m_after : string
}.

(** lastIndex after the match *)
Definition m_end (m : match_result) : nat := m_index m + String.length (m_text m).

(** match[n] for n >= 1; [None] is [undefined]. *)
Definition m_group (m : match_result) (n : nat) : option string := cap n (m_caps m).

(** One attempt at position [pos], where the input still to read is [s]. *)
Definition attempt (re : regexp) (s : string) (pos : nat) : option match_result :=
  match run (re_icase re) (re_body re) s pos [] (fun s' e cs => Some (e, cs, s')) with
  | Some (e, cs, after) => Some (Match pos (Str.take (e - pos) s) cs EmptyString after)
  | None => None
  end.

Definition skipping (c : ascii) (m : match_result) : match_result :=
  Match (m_index m) (m_text m) (m_caps m) (String c (m_before m)) (m_after m).

(** The leftmost match in [s], the input from position [pos] on. *)
Fixpoint search_from (re : regexp) (s : string) (pos : nat) : option match_result :=
  match attempt re s pos with
  | Some m => Some m
  | None =>
      match s with
      | String c s' => skipping c <$> search_from re s' (S pos)
      | EmptyString => None
      end
  end.

(** [s.match(re)] for a pattern without the g flag, [re.exec(s)] with
    [lastIndex = 0]. *)
Definition exec (re : regexp) (s : string) : option match_result := search_from re s 0.

(** [s.replace(re, f)] for a pattern without the g flag; [f] builds the
    replacement from the matched text. *)
Definition replace (re : regexp) (f : string -> string) (s : string) : string :=
  match exec re s with
  | Some m => m_before m +:+ f (m_text m) +:+ m_after m
  | None => s
  end.

(** [s.replace(re, f)] for a pattern with the g flag: every match from left
    to right, [s] being the input from position [pos] on; after an empty
    match the next search starts one unit later.  Each round reads at least
    one unit or is the last, so [S (length s)] rounds are never used up. *)
Fixpoint replace_all_from (rounds : nat) (re : regexp) (f : string -> string)
    (s : string) (pos : nat) : string :=
  match rounds with
  | O => s
  | S rounds' =>
      match search_from re s pos with
      | Some m =>
          m_before m +:+ f (m_text m) +:+
          (if Str.is_empty (m_text m)
           then match m_after m with
                | String c rest => String c (replace_all_from rounds' re f rest (S (m_end m)))
                | EmptyString => EmptyString
                end
           else replace_all_from rounds' re f (m_after m) (m_end m))
      | None => s
      end
  end.

Definition replace_all (re : regexp) (f : string -> string) (s : string) : string :=
  replace_all_from (S (String.length s)) re f s 0.

End Re.

(** ** Values decoded from YAML and JSON *)

(** Plain data: null, booleans, numbers, strings, sequences and mappings.  A
    YAML timestamp, which js-yaml decodes to a [Date], is not represented. *)

Inductive jsval : Type :=
| VNull
| VBool (b : bool)
| VNum (repr : string)                 (* a number, by the text String(n) returns *)
| VStr (s : string)
| VArr (items : list jsval)
| VObj (fields : gmap string jsval).

(** A statement either completes with a value or throws. *)
Inductive completion (A : Type) : Type :=
| Normal (a : A)
| Throw.
Arguments Normal {A} a.
Arguments Throw {A}.

(** [String(v)] on plain data.  An array joins what its elements give with
    a comma, [null] elements giving the empty text.  A mapping gives
    '[object Object]' through Object.prototype.toString, unless it has a key
    'toString' of its own: the value of that key is data, not a function,
    and valueOf returns the mapping itself, so the conversion throws a
    TypeError. *)
Fixpoint JS_String (v : jsval) : completion string :=
  match v with
  | VNull => Normal "null"
  | VBool true => Normal "true"
  | VBool false => Normal "false"
  | VNum repr => Normal repr
  | VStr s => Normal s
  | VArr items =>
      match
        (fix strings (items : list jsval) : completion (list string) :=
           match items with
           | [] => Normal []
           | x :: rest =>
               match match x with VNull => Normal EmptyString | _ => JS_String x end with
               | Throw => Throw
               | Normal s =>
                   match strings rest with
                   | Throw => Throw
                   | Normal l => Normal (s :: l)
                   end
               end
           end) items
      with
      | Throw => Throw
      | Normal l => Normal (Str.join "," l)
      end
  | VObj fields =>
      match fields !! "toString" with
      | Some _ => Throw
      | None => Normal "[object Object]"
      end
  end.

(** ToBoolean; [None] is [undefined]. *)
Definition truthy (v : option jsval) : bool :=
  match v with
  | None => false
  | Some VNull => false
  | Some (VBool b) => b
  | Some (VNum repr) => negb (String.eqb repr "0" || String.eqb repr "NaN")
  | Some (VStr s) => negb (Str.is_empty s)
  | Some (VArr _) => true
  | Some (VObj _) => true
  end.

(** [v.title] and [v.author]: the data property of a mapping; [None] is
    [undefined].  These two names are read on the frontmatter only; a list
    or a scalar has no such property, and no prototype of the language
    defines one, so the read finds what the mapping itself holds. *)
Definition get_prop (v : jsval) (key : string) : option jsval :=
  match v with
  | VObj fields => fields !! key
  | _ => None
  end.

Definition digit_char (d : Z) : ascii := ascii_of_nat (48 + Z.to_nat d).

(** The decimal digits of [n], not negative, before [acc]; [fuel] bounds
    the digits after the first. *)
Fixpoint decimal_digits (fuel : nat) (n : Z) (acc : string) : string :=
  let acc' := String (digit_char (n mod 10)) acc in
  match fuel with
  | O => acc'
  | S fuel' => if (n <? 10)%Z then acc' else decimal_digits fuel' (n / 10) acc'
  end.

(** [n.toString()] for an integer below 10^21 in size. *)
Definition Number_toString (n : Z) : string :=
  if (n <? 0)%Z
  then "-" +:+ decimal_digits (Z.to_nat (Z.log2 (- n))) (- n) EmptyString
  else decimal_digits (Z.to_nat (Z.log2 n)) n EmptyString.

(** What [v[name]] gives for a name that is not known beforehand:
    [undefined], plain data, or an object of the engine (a method of a
    prototype, or a prototype), which is neither an array nor a string and
    is known here by the text [String()] returns for it. *)
Inductive property : Type :=
| Undefined
| Data (v : jsval)
| Builtin (text : string).

(** The index a property name spells, below [n]: the name is the canonical
    text of the index. *)
Definition array_index (name : string) (n : nat) : option nat :=
  List.find (fun i => String.eqb (Number_toString (Z.of_nat i)) name) (seq 0 n).

(** The properties a value has of its own: the keys of a mapping, the
    length and the elements of a list, the length and the units of a
    string. *)
Definition own_property (v : jsval) (name : string) : option jsval :=
  match v with
  | VObj fields => fields !! name
  | VArr items =>
      if String.eqb name "length"
      then Some (VNum (Number_toString (Z.of_nat (length items))))
      else match array_index name (length items) with
           | Some i => items !! i
           | None => None
           end
  | VStr s =>
      if String.eqb name "length"
      then Some (VNum (Number_toString (Z.of_nat (String.length s))))
      else match array_index name (String.length s) with
           | Some i => (fun c => VStr (String c EmptyString)) <$> String.get i s
           | None => None
           end
  | _ => None
  end.

(** ** Settings (main.ts) *)

Record BookHighlightsPluginSettings : Type := {
  autoRefresh : bool;
  showBookTitle : bool;
  showAuthor : bool;
  showComments : bool;
  showMetadata : bool;
  maxHighlights : Z;
  randomHighlightsCount : Z;
  refreshInterval : Z;
  filterProperty : string;
  filterValue : string;
  highlightExample : string;
  highlightsFolder : string;
  filenameFormat : string
}.

Definition DEFAULT_SETTINGS : BookHighlightsPluginSettings := {|
  autoRefresh := true;
  showBookTitle := true;
  showAuthor := true;
  showComments := true;
  showMetadata := true;
  maxHighlights := 50;
  randomHighlightsCount := 5;
  refreshInterval := 300;
  filterProperty := "subtopic";
  filterValue := "Book Highlights";
  highlightExample :=
    "> Your highlight text here" +:+ Str.nl +:+ "**Note:** Your note about the highlight";
  highlightsFolder := EmptyString;
  filenameFormat := "{{title}} by {{author}}"
|}.

(** ** The highlight record *)

Record BookHighlight : Type := {
  bookTitle : jsval;
  author : jsval;                      (* [VNull] when there is none *)
  date : string;
  page : string;
  location : string;
  text : string;
  comment : string;
  sourceFile : string
}.

(** ** The regular expressions of BookHighlightsView.ts *)

Module Patterns.
Import Re.

(** /^---\n([\s\S]*?)\n---/ *)
Definition frontmatter : regexp :=
  RegExp (Cat [Bol; Lit "---"; Chr Chars.newline;
               Group 1 (Star false AnyChar);
               Chr Chars.newline; Lit "---"]) false.

(** /\.(md|markdown|txt)$/i *)
Definition extension : regexp :=
  RegExp (Cat [Chr "."; Group 1 (Alt (Lit "md") (Alt (Lit "markdown") (Lit "txt"))); Eol])
         true.

Definition is_special (c : ascii) : bool :=
  match Str.indexOf (String c EmptyString) ".*+?^${}()|[]\" with
  | Some _ => true
  | None => false
  end.

(** /[.*+?^${}()|[\]\\]/g *)
Definition special : regexp := RegExp (CSet is_special) false.

(** /\\{\\{title\\}\\}/g *)
Definition title_placeholder : regexp := RegExp (Lit "\{\{title\}\}") false.
(** /\\{\\{author\\}\\}/g *)
Definition author_placeholder : regexp := RegExp (Lit "\{\{author\}\}") false.

(** /> \[!([^\]]+)\]([\s\S]*?)(?=\n\n|\n> \[!|$)/g *)
Definition calloutRegex : regexp :=
  RegExp (Cat [Lit "> [!";
               Group 1 (Plus true (NotChr "]"));
               Chr "]";
               Group 2 (Star false AnyChar);
               Lookahead (Alt (Lit (Str.nl +:+ Str.nl))
                           (Alt (Lit (Str.nl +:+ "> [!")) Eol))]) false.

(** /^\n> / *)
Definition leading_quote : regexp := RegExp (Cat [Bol; Lit (Str.nl +:+ "> ")]) false.
(** /\n> /g *)
Definition quote_marker : regexp := RegExp (Lit (Str.nl +:+ "> ")) false.

(** /Highlighted: ([^\n]+)/ *)
Definition highlighted : regexp :=
  RegExp (Cat [Lit "Highlighted: "; Group 1 (Plus true (NotChr Chars.newline))]) false.

(** /Page(?: Number)?: (\d+)/ *)
Definition page_number : regexp :=
  RegExp (Cat [Lit "Page"; Opt (Lit " Number"); Lit ": ";
               Group 1 (Plus true (CSet Chars.is_digit))]) false.

(** /Location: (\d+)/ *)
Definition location_number : regexp :=
  RegExp (Cat [Lit "Location: "; Group 1 (Plus true (CSet Chars.is_digit))]) false.

(** /My Comments:([\s\S]*?)(?=\n\w+:|$)/ *)
Definition my_comments : regexp :=
  RegExp (Cat [Lit "My Comments:";
               Group 1 (Star false AnyChar);
               Lookahead (Alt (Cat [Chr Chars.newline; Plus true (CSet Chars.is_word); Chr ":"])
                              Eol)]) false.

(** /^Link: / *)
Definition link_prefix : regexp := RegExp (Cat [Bol; Lit "Link: "]) false.

(** /\s*\^ref-\d+$/ *)
Definition ref_suffix : regexp :=
  RegExp (Cat [Star true (CSet Chars.is_space); Lit "^ref-";
               Plus true (CSet Chars.is_digit); Eol]) false.

End Patterns.

(** ** parseTitleAndAuthor *)

(** [new RegExp(source)] on the pattern sources that [parseTitleAndAuthor]
    builds: the anchors, escaped syntax characters, plain characters and the
    groups [(.+)], numbered from [n] on.  [None] is a source outside that
    grammar. *)
Fixpoint RegExp_source (s : string) (n : nat) : option Re.regex :=
  match s with
  | EmptyString => Some Re.Eps
  | String "\" (String c rest) =>
      if Patterns.is_special c
      then Re.Seq (Re.Chr c) <$> RegExp_source rest n
      else None
  | String "\" EmptyString => None
  | String "(" (String "." (String "+" (String ")" rest))) =>
      Re.Seq (Re.Group n (Re.Plus true Re.Dot)) <$> RegExp_source rest (S n)
  | String "^" rest => Re.Seq Re.Bol <$> RegExp_source rest n
  | String "$" rest => Re.Seq Re.Eol <$> RegExp_source rest n
  | String c rest =>
      if Patterns.is_special c
      then None
      else Re.Seq (Re.Chr c) <$> RegExp_source rest n
  end.

Definition RegExp_new (source : string) : option Re.regexp :=
  (fun body => Re.RegExp body false) <$> RegExp_source source 1.

(** format.replace(/[.*+?^${}()|[\]\\]/g, '\\$&') *)
Definition escape_special (format : string) : string :=
  Re.replace_all Patterns.special (fun matched => "\" +:+ matched) format.

(** The pattern source built from the filename format. *)
Definition filename_pattern (format : string) : string :=
  Re.replace_all Patterns.author_placeholder (fun _ => "(.+)")
    (Re.replace_all Patterns.title_placeholder (fun _ => "(.+)")
       (escape_special format)).

(** filename.replace(/\.(md|markdown|txt)$/i, '') *)
Definition basename_of (filename : string) : string :=
  Re.replace Patterns.extension (fun _ => EmptyString) filename.

(** settings.filenameFormat || '{{title}} by {{author}}' *)
Definition effective_format (settings : BookHighlightsPluginSettings) : string :=
  if Str.is_empty (filenameFormat settings)
  then "{{title}} by {{author}}"
  else filenameFormat settings.

Record TitleAndAuthor : Type := { ta_title : string; ta_author : option string }.

(** match[n] of a group that took part in the match. *)
Definition group_text (m : Re.match_result) (n : nat) : string :=
  default EmptyString (Re.m_group m n).

Definition parseTitleAndAuthor (settings : BookHighlightsPluginSettings)
    (filename : string) : completion TitleAndAuthor :=
  let basename := basename_of filename in
  let format := effective_format settings in
  let pattern := filename_pattern format in
  match RegExp_new ("^" +:+ pattern +:+ "$") with
  | None => Throw
  | Some regex =>
      match Re.exec regex basename with
      | Some m =>
          let titleIndex := Str.indexOf "{{title}}" format in
          let authorIndex := Str.indexOf "{{author}}" format in
          match titleIndex, authorIndex with
          | Some ti, Some ai =>
              Normal {| ta_title := if (ti <? ai)%nat then group_text m 1 else group_text m 2;
                        ta_author := Some (if (ti <? ai)%nat then group_text m 2
                                           else group_text m 1) |}
          | Some _, None => Normal {| ta_title := group_text m 1; ta_author := None |}
          | None, Some _ => Normal {| ta_title := group_text m 1; ta_author := None |}
          | None, None => Normal {| ta_title := basename; ta_author := None |}
          end
      | None => Normal {| ta_title := basename; ta_author := None |}
      end
  end.

(** ** extractHighlights *)

Inductive target : Type := TDate | TPage | TLocation | TComment.

Definition metadataPatterns : list (Re.regexp * target) :=
  [ (Patterns.highlighted, TDate);
    (Patterns.page_number, TPage);
    (Patterns.location_number, TLocation);
    (Patterns.my_comments, TComment) ].

(** The five locals of the loop body: date, page, location, text, comment. *)
Record fields : Type := {
  f_date : string;
  f_page : string;
  f_location : string;
  f_text : string;
  f_comment : string
}.

Definition initial_fields (calloutContent : string) : fields :=
  {| f_date := EmptyString; f_page := EmptyString; f_location := EmptyString;
     f_text := calloutContent; f_comment := EmptyString |}.

(** text.replace(regex, '').trim() *)
Definition remove_first (regex : Re.regexp) (t : string) : string :=
  Str.trim (Re.replace regex (fun _ => EmptyString) t).

(** One round of [for (const { regex, target } of metadataPatterns)]: the
    pattern is matched against [calloutContent], the removal is made in the
    working text. *)
Definition apply_pattern (calloutContent : string) (st : fields)
    (p : Re.regexp * target) : fields :=
  let (regex, tgt) := p in
  match Re.exec regex calloutContent with
  | Some m =>
      let value := Str.trim (group_text m 1) in
      let text' := remove_first regex (f_text st) in
      match tgt with
      | TComment =>
          {| f_date := f_date st; f_page := f_page st; f_location := f_location st;
             f_text := text'; f_comment := value |}
      | TDate =>
          {| f_date := value; f_page := f_page st; f_location := f_location st;
             f_text := text'; f_comment := f_comment st |}
      | TPage =>
          {| f_date := f_date st; f_page := value; f_location := f_location st;
             f_text := text'; f_comment := f_comment st |}
      | TLocation =>
          {| f_date := f_date st; f_page := f_page st; f_location := value;
             f_text := text'; f_comment := f_comment st |}
      end
  | None => st
  end.

Definition extract_fields (calloutContent : string) : fields :=
  fold_left (apply_pattern calloutContent) metadataPatterns
    (initial_fields calloutContent).

(** The clean-up of match[2]: the leading quote marker, the markers of the
    following lines, and the surrounding whitespace. *)
Definition clean_callout (body : string) : string :=
  Str.trim
    (Re.replace_all Patterns.quote_marker (fun _ => Str.nl)
       (Re.replace Patterns.leading_quote (fun _ => EmptyString) body)).

(** The clean-up of the text: the 'Link: ' prefix, the reference suffix and
    the surrounding whitespace. *)
Definition clean_text (t : string) : string :=
  Str.trim
    (Re.replace Patterns.ref_suffix (fun _ => EmptyString)
       (Re.replace Patterns.link_prefix (fun _ => EmptyString) t)).

(** The fields of one callout, with the text cleaned. *)
Definition callout_fields (body : string) : fields :=
  let st := extract_fields (clean_callout body) in
  {| f_date := f_date st; f_page := f_page st; f_location := f_location st;
     f_text := clean_text (f_text st); f_comment := f_comment st |}.

(** frontmatter.title || filenameTitle || 'Unknown Book' *)
Definition resolve_title (frontmatter : jsval) (filenameTitle : string) : jsval :=
  if truthy (get_prop frontmatter "title")
  then default VNull (get_prop frontmatter "title")
  else if Str.is_empty filenameTitle then VStr "Unknown Book" else VStr filenameTitle.

(** frontmatter.author || filenameAuthor || null *)
Definition resolve_author (frontmatter : jsval) (filenameAuthor : option string) : jsval :=
  if truthy (get_prop frontmatter "author")
  then default VNull (get_prop frontmatter "author")
  else match filenameAuthor with
       | Some a => if Str.is_empty a then VNull else VStr a
       | None => VNull
       end.

(** The body of the [while] loop for one match of the callout pattern: the
    highlight pushed, if any. *)
Definition highlight_of_match (filePath : string) (frontmatter : jsval)
    (parsed : TitleAndAuthor) (m : Re.match_result) : option BookHighlight :=
  let st := callout_fields (group_text m 2) in
  if Str.is_empty (f_text st) then None
  else Some {| bookTitle := resolve_title frontmatter (ta_title parsed);
               author := resolve_author frontmatter (ta_author parsed);
               date := f_date st;
               page := f_page st;
               location := f_location st;
               text := f_text st;
               comment := f_comment st;
               sourceFile := filePath |}.

(** [while ((match = calloutRegex.exec(content)) !== null)]: [rest] is the
    content from [lastIndex] on.  [None]: the rounds allowed ran out. *)
Fixpoint callout_loop (rounds : nat) (rest : string) (lastIndex : nat)
    (filePath : string) (frontmatter : jsval) (parsed : TitleAndAuthor)
    (highlights : list BookHighlight) : option (list BookHighlight) :=
  match Re.search_from Patterns.calloutRegex rest lastIndex with
  | None => Some highlights
  | Some m =>
      match rounds with
      | O => None
      | S rounds' =>
          callout_loop rounds' (Re.m_after m) (Re.m_end m) filePath frontmatter parsed
            (match highlight_of_match filePath frontmatter parsed m with
             | Some h => highlights ++ [h]
             | None => highlights
             end)
      end
  end.

(** A callout match is never empty, so each round moves [lastIndex] forward
    and the length of the content bounds the rounds. *)
Definition callout_rounds (content : string) : nat := String.length content.

(** [Throw] stands for a pattern that [new RegExp] refuses and for a loop
    that does not end; neither happens ([extractHighlights_total]). *)
Definition extractHighlights (settings : BookHighlightsPluginSettings)
    (content filePath : string) (frontmatter : jsval)
    : completion (list BookHighlight) :=
  let filename := Str.after_last "/" filePath in
  match parseTitleAndAuthor settings filename with
  | Throw => Throw
  | Normal parsed =>
      match callout_loop (callout_rounds content) content 0 filePath frontmatter parsed []
      with
      | Some highlights => Normal highlights
      | None => Throw
      end
  end.

(** ** The elements of the pane *)

(** An element made by [createEl]: its tag, its class, the text handed over
    and the elements created in it so far.  The [href] of the title link and
    its click handler are not kept. *)
Inductive element : Type :=
| El (tag cls : string) (text : option jsval) (children : list element).

Definition el_cls (e : element) : string := match e with El _ cls _ _ => cls end.
Definition el_text (e : element) : option jsval := match e with El _ _ text _ => text end.
Definition el_children (e : element) : list element :=
  match e with El _ _ _ children => children end.

(** The elements created in an element, at any depth, in document order. *)
Fixpoint descendants (e : element) : list element :=
  match e with
  | El _ _ _ children => flat_map (fun child => child :: descendants child) children
  end.

Definition span (t : string) : element := El "span" EmptyString (Some (VStr t)) [].

(** The span between two items of the metadata line; the bullet U+2022 is
    held as its three UTF-8 bytes. *)
Definition separator : element := span " • ".

(** The spans created in the 'highlight-meta' element. *)
Definition metadata_spans (h : BookHighlight) : list element :=
  (if Str.is_empty (page h) then [] else [span ("Page " +:+ page h)])
  ++ (if Str.is_empty (location h) then []
      else (if Str.is_empty (page h) then [] else [separator])
           ++ [span ("Location " +:+ location h)])
  ++ (if Str.is_empty (date h) then []
      else (if Str.is_empty (page h) && Str.is_empty (location h) then [] else [separator])
           ++ [span (date h)]).

(** [items] with [sep] between any two neighbours. *)
Fixpoint separated {A : Type} (sep : A) (items : list A) : list A :=
  match items with
  | [] => []
  | [x] => [x]
  | x :: rest => x :: sep :: separated sep rest
  end.

(** The items of the metadata line: those of page, location and date that
    the highlight has. *)
Definition metadata_items (h : BookHighlight) : list string :=
  (if Str.is_empty (page h) then [] else ["Page " +:+ page h])
  ++ (if Str.is_empty (location h) then [] else ["Location " +:+ location h])
  ++ (if Str.is_empty (date h) then [] else [date h]).

(** What a run of [createEl] calls leaves in the parent: the elements
    created, in order, and how the run ended. *)
Definition creation : Type := (list element * completion unit)%type.

Definition nothing : creation := ([], Normal tt).

(** [first; second]: the second run is made when the first did not throw. *)
Definition and_then (first second : creation) : creation :=
  match snd first with
  | Normal _ => (fst first ++ fst second, snd second)
  | Throw => first
  end.

(** items.forEach(callback) *)
Fixpoint forEach {A : Type} (callback : A -> creation) (items : list A) : creation :=
  match items with
  | [] => nothing
  | item :: rest => and_then (callback item) (forEach callback rest)
  end.

(** ** The view and its host *)

(** An array object lives in the heap under its reference. *)
Definition loc : Type := nat.

(** The children of the pane: the header onOpen makes, the container with
    the elements displayHighlights has created in it, and the paragraphs
    added to the pane itself. *)
Inductive node : Type :=
| Header
| Container (children : list element)
| Paragraph (cls text : string).

(** What the pass writes to the console for a file. *)
Inductive log_entry : Type :=
| SkippedNoFrontmatter (path : string)
| SkippedByFilter (path : string)
| ProcessingFile (path : string)
| FoundHighlights (path : string) (n : nat)
| ReachedMaximum
| ErrorProcessing (path : string).

Record View : Type := {
  this_highlights : loc;                         (* this.highlights *)
  heap : gmap loc (list BookHighlight);
  contentEl : list node;                         (* the children of this.contentEl *)
  console : list log_entry;
  random_calls : nat                             (* calls of Math.random() so far *)
}.

(** The array [this.highlights] refers to. *)
Definition pool (v : View) : list BookHighlight :=
  default [] (heap v !! this_highlights v).

(** A new array object. *)
Definition alloc (items : list BookHighlight) (v : View) : loc * View :=
  let l := fresh (dom (heap v)) in
  (l, {| this_highlights := this_highlights v;
         heap := <[l := items]> (heap v);
         contentEl := contentEl v;
         console := console v;
         random_calls := random_calls v |}).

(** [this.highlights = highlights], for a list the pass has built in an
    array of its own, with the lines the scan wrote on the console. *)
Definition publish (highlights : list BookHighlight) (log : list log_entry) (v : View)
    : View :=
  let (l, v1) := alloc highlights v in
  {| this_highlights := l;
     heap := heap v1;
     contentEl := contentEl v1;
     console := console v1 ++ log;
     random_calls := random_calls v1 |}.

(** A computation that calls [Math.random()]: from the number of calls made
    so far to a result and the number of calls made then. *)
Definition rand (A : Type) : Type := nat -> A * nat.

(** [items.slice(0, end)] *)
Definition Array_slice0 {A : Type} (items : list A) (end_ : Z) : list A :=
  let len := Z.of_nat (length items) in
  let k := if (end_ <? 0)%Z then Z.max (len + end_) 0 else Z.min end_ len in
  firstn (Z.to_nat k) items.

Definition error_paragraph : node :=
  Paragraph EmptyString "Error loading highlights. Check console for details.".

Definition no_highlights_paragraph : element :=
  El "p" "no-highlights"
    (Some (VStr "No highlights found. Add some book highlights to your notes!")) [].

(** this.contentEl.querySelector('.book-highlights-container'): the index of
    the container among the children. *)
Fixpoint find_container (children : list node) : option nat :=
  match children with
  | [] => None
  | Container _ :: _ => Some 0
  | _ :: rest => S <$> find_container rest
  end.

Inductive flow : Type := Next | Break.

Section Host.

(** js-yaml's [load]: a value, [undefined] ([None]) for an empty document, or
    an exception. *)
Variable yaml_load : string -> completion (option jsval).
(** [JSON.parse]: a value or a SyntaxError. *)
Variable JSON_parse : string -> completion jsval.
(** What a value inherits: the property [name] that the prototypes of [v]
    define (Object.prototype for a mapping; Array.prototype, String.prototype
    and the like, and Object.prototype after them, for the other values).
    It is consulted for the names [v] has no property of its own for.  A
    method is a [Builtin] with the text the engine prints for it;
    ['__proto__'] gives the prototype, an empty array for a list. *)
Variable prototype_get : jsval -> string -> property.
(** [this.app.vault.getMarkdownFiles()], by path, and [this.app.vault.read]. *)
Variable getMarkdownFiles : completion (list string).
Variable vault_read : string -> completion string.
(** The numbers successive calls of [Math.random()] return. *)
Variable random_source : nat -> Q.
(** [Array.prototype.sort] under a comparator that may call [Math.random()]. *)
Variable Array_sort : forall A : Type, (A -> A -> rand Q) -> list A -> rand (list A).
(** Whether the host's [createEl] makes the element asked of it in
    displayHighlights, by tag, class and text, or throws. *)
Variable createEl : string -> string -> option jsval -> completion unit.

(** *** extractFrontmatter *)

(** [None] is the [null] the source returns for "no frontmatter". *)
Definition extractFrontmatter (content : string) : option jsval :=
  match Re.exec Patterns.frontmatter content with
  | None => None
  | Some frontmatterMatch =>
      match yaml_load (group_text frontmatterMatch 1) with
      | Normal loaded =>
          if truthy loaded then loaded else Some (VObj ∅)
      | Throw => None
      end
  end.

(** *** The frontmatter filter of refreshHighlights *)

(** [v[name]]: the property of [v] itself, else the inherited one; reading a
    property of [null] throws a TypeError. *)
Definition read_property (v : jsval) (name : string) : completion property :=
  match v with
  | VNull => Throw
  | _ =>
      Normal match own_property v name with
             | Some x => Data x
             | None => prototype_get v name
             end
  end.

(** String(item).trim() === String(filterValue).trim() *)
Definition same_trimmed (item : jsval) (filterValue : string) : completion bool :=
  match JS_String item with
  | Normal s => Normal (String.eqb (Str.trim s) (Str.trim filterValue))
  | Throw => Throw
  end.

(** items.some(item => String(item).trim() === String(filterValue).trim()):
    the elements are asked in order, up to the first that answers true. *)
Fixpoint some_same_trimmed (items : list jsval) (filterValue : string) : completion bool :=
  match items with
  | [] => Normal false
  | item :: rest =>
      match same_trimmed item filterValue with
      | Throw => Throw
      | Normal true => Normal true
      | Normal false => some_same_trimmed rest filterValue
      end
  end.

(** The value of [matches] for a property value.  For a string the parse
    and the test of the parsed array stand in a [try] of their own, whose
    [catch] compares the string itself. *)
Definition property_matches (propertyValue : property) (filterValue : string)
    : completion bool :=
  match propertyValue with
  | Undefined => Normal false
  | Data (VArr items) => some_same_trimmed items filterValue
  | Data (VStr s) =>
      match JSON_parse s with
      | Normal (VArr parsedArray) =>
          match some_same_trimmed parsedArray filterValue with
          | Normal matches => Normal matches
          | Throw => same_trimmed (VStr s) filterValue
          end
      | Normal _ => same_trimmed (VStr s) filterValue
      | Throw => same_trimmed (VStr s) filterValue
      end
  | Data other => same_trimmed other filterValue
  | Builtin text => Normal (String.eqb (Str.trim text) (Str.trim filterValue))
  end.

(** Whether the file goes on past the filter: [if (filterProperty &&
    filterValue) { ...; if (!matches) continue; }]; [Throw] when the test
    throws. *)
Definition passes_filter (settings : BookHighlightsPluginSettings) (frontmatter : jsval)
    : completion bool :=
  if negb (Str.is_empty (filterProperty settings))
     && negb (Str.is_empty (filterValue settings))
  then
    match read_property frontmatter (filterProperty settings) with
    | Normal propertyValue => property_matches propertyValue (filterValue settings)
    | Throw => Throw
    end
  else Normal true.

(** *** The loop of refreshHighlights *)

(** The body of [for (const file of files)] for one file: what the loop does
    next, the accumulated highlights and the console lines written. *)
Definition process_file (settings : BookHighlightsPluginSettings) (path : string)
    (highlights : list BookHighlight) : flow * list BookHighlight * list log_entry :=
  match vault_read path with
  | Throw => (Next, highlights, [ErrorProcessing path])
  | Normal content =>
      match extractFrontmatter content with
      | None => (Next, highlights, [SkippedNoFrontmatter path])
      | Some frontmatter =>
          match passes_filter settings frontmatter with
          | Throw => (Next, highlights, [ErrorProcessing path])
          | Normal false => (Next, highlights, [SkippedByFilter path])
          | Normal true =>
              match extractHighlights settings content path frontmatter with
              | Throw => (Next, highlights, [ProcessingFile path; ErrorProcessing path])
              | Normal bookHighlights =>
                  let highlights' :=
                    if (0 <? length bookHighlights)%nat
                    then highlights ++ bookHighlights
                    else highlights in
                  let found := [ProcessingFile path;
                                FoundHighlights path (length bookHighlights)] in
                  if ((0 <? maxHighlights settings)
                      && (maxHighlights settings <=? Z.of_nat (length highlights')))%Z
                  then (Break,
                        firstn (Z.to_nat (maxHighlights settings)) highlights',
                        found ++ [ReachedMaximum])
                  else (Next, highlights', found)
              end
          end
      end
  end.

Fixpoint scan (settings : BookHighlightsPluginSettings) (files : list string)
    (highlights : list BookHighlight) (log : list log_entry)
    : list BookHighlight * list log_entry :=
  match files with
  | [] => (highlights, log)
  | path :: rest =>
      match process_file settings path highlights with
      | (Break, highlights', entries) => (highlights', log ++ entries)
      | (Next, highlights', entries) => scan settings rest highlights' (log ++ entries)
      end
  end.

(** The files in scope: all of them, or those under the highlights folder. *)
Definition files_in_scope (settings : BookHighlightsPluginSettings) (files : list string)
    : list string :=
  if Str.is_empty (highlightsFolder settings) then files
  else
    let folderPath :=
      if Str.endsWith "/" (highlightsFolder settings)
      then highlightsFolder settings
      else highlightsFolder settings +:+ "/" in
    filter (fun path => Is_true (Str.startsWith folderPath path)) files.

(** *** getRandomHighlights and displayHighlights *)

(** () => 0.5 - Math.random() *)
Definition comparefn : BookHighlight -> BookHighlight -> rand Q :=
  fun _ _ calls => (Qminus (1 # 2) (random_source calls), S calls).

(** The reference of the array returned, and the view afterwards. *)
Definition getRandomHighlights (settings : BookHighlightsPluginSettings) (v : View)
    : loc * View :=
  if (length (pool v) =? 0)%nat then alloc [] v
  else
    let count :=
      Z.min (randomHighlightsCount settings) (Z.of_nat (length (pool v))) in
    (* [...this.highlights]: a new array with the same elements *)
    let (copy, v1) := alloc (pool v) v in
    (* .sort(...): sorts the array [copy] in place and returns it *)
    let (sorted, calls) :=
      Array_sort BookHighlight comparefn (default [] (heap v1 !! copy)) (random_calls v1) in
    let v2 := {| this_highlights := this_highlights v1;
                 heap := <[copy := sorted]> (heap v1);
                 contentEl := contentEl v1;
                 console := console v1;
                 random_calls := calls |} in
    let shuffled := copy in
    (* shuffled.slice(0, count): another new array *)
    alloc (Array_slice0 (default [] (heap v2 !! shuffled)) count) v2.

(** parent.createEl(tag, { cls, text }), and the creations made [inside]
    the new element afterwards.  A call that throws leaves no element. *)
Definition create (tag cls : string) (text : option jsval) (inside : creation) : creation :=
  match createEl tag cls text with
  | Throw => ([], Throw)
  | Normal _ => ([El tag cls text (fst inside)], snd inside)
  end.

(** The elements of a list, created one after the other. *)
Definition create_all (elements : list element) : creation :=
  forEach (fun e => match e with El tag cls text _ => create tag cls text nothing end)
    elements.

(** The callback of [forEach] in displayHighlights: the card of one
    highlight.  The text of the author line is a template literal, which
    converts the author to a string before the span is asked for. *)
Definition card (settings : BookHighlightsPluginSettings) (h : BookHighlight) : creation :=
  create "div" "book-highlight-card" None
    (and_then
       (if showBookTitle settings then
          create "h4" "book-title-container" None
            (and_then
               (create "a" "book-title-link" (Some (bookTitle h)) nothing)
               (if showAuthor settings && truthy (Some (author h)) then
                  match JS_String (author h) with
                  | Throw => ([], Throw)
                  | Normal name =>
                      create "span" "book-author" (Some (VStr (" by " +:+ name))) nothing
                  end
                else nothing))
        else nothing)
       (and_then
          (create "div" "highlight-text" (Some (VStr (text h))) nothing)
          (and_then
             (if showComments settings && negb (Str.is_empty (comment h))
              then create "div" "highlight-comment"
                     (Some (VStr ("Note: " +:+ comment h))) nothing
              else nothing)
             (if showMetadata settings
              then create "div" "highlight-meta" None (create_all (metadata_spans h))
              else nothing)))).

(** The view displayHighlights leaves, and whether it threw. *)
Definition displayHighlights (settings : BookHighlightsPluginSettings) (v : View)
    : View * completion unit :=
  match find_container (contentEl v) with
  | None => (v, Normal tt)
  | Some i =>
      (* container.empty() *)
      let (randomHighlights, v1) := getRandomHighlights settings v in
      let shown := default [] (heap v1 !! randomHighlights) in
      let created :=
        if (length shown =? 0)%nat
        then create "p" "no-highlights"
               (Some (VStr "No highlights found. Add some book highlights to your notes!"))
               nothing
        else forEach (card settings) shown in
      ({| this_highlights := this_highlights v1;
          heap := heap v1;
          contentEl := <[i := Container (fst created)]> (contentEl v1);
          console := console v1;
          random_calls := random_calls v1 |},
       snd created)
  end.

(** *** refreshHighlights *)

(** The statements of the [try]: the view they leave, and whether they
    threw.  The new list is published before it is displayed. *)
Definition refreshHighlights_try (settings : BookHighlightsPluginSettings) (v : View)
    : View * completion unit :=
  match getMarkdownFiles with
  | Throw => (v, Throw)
  | Normal files =>
      let (highlights, log) := scan settings (files_in_scope settings files) [] [] in
      (* this.highlights = highlights; this.displayHighlights(); *)
      displayHighlights settings (publish highlights log v)
  end.

(** The [catch] adds its paragraph to the pane; this call of the host is
    taken to complete. *)
Definition refreshHighlights (settings : BookHighlightsPluginSettings) (v : View) : View :=
  match refreshHighlights_try settings v with
  | (v', Normal _) => v'
  | (v', Throw) =>
      {| this_highlights := this_highlights v';
         heap := heap v';
         contentEl := contentEl v' ++ [error_paragraph];
         console := console v';
         random_calls := random_calls v' |}
  end.

End Host.

(** ** A concrete host

    Stand-ins for the host functions, to run the view on concrete documents:
    a YAML loader for flat blocks of [key: value] lines, a JSON parser for
    scalars and arrays without escapes, an engine that sorts by straight
    insertion and one that sorts by binary insertion, what a mapping
    inherits, and a host that makes every element. *)

Module Sample.

Definition all_digits (s : string) : bool :=
  negb (Str.is_empty s) && forallb Chars.is_digit (list_ascii_of_string s).

(** A plain scalar of a flat block. *)
Definition yaml_plain (s : string) : jsval :=
  if Str.is_empty s then VNull
  else if String.eqb s "true" then VBool true
  else if String.eqb s "false" then VBool false
  else if all_digits s && negb (Str.startsWith "0" s && (1 <? String.length s)%nat)
       then VNum s
  else VStr s.

(** The value of a line: a plain scalar, or a flow mapping of one entry,
    '{key: value}'. *)
Definition yaml_scalar (s : string) : jsval :=
  if Str.startsWith "{" s && Str.endsWith "}" s then
    let inner := Str.take (String.length s - 2) (Str.drop 1 s) in
    match Str.indexOf ":" inner with
    | Some i =>
        VObj {[ Str.trim (Str.take i inner) := yaml_plain (Str.trim (Str.drop (S i) inner)) ]}
    | None => yaml_plain s
    end
  else yaml_plain s.

Fixpoint yaml_entries (lines : list string) : completion (gmap string jsval) :=
  match lines with
  | [] => Normal ∅
  | line :: rest =>
      match yaml_entries rest with
      | Throw => Throw
      | Normal entries =>
          if Str.is_empty (Str.trim line) then Normal entries
          else match Str.indexOf ":" line with
               | Some i =>
                   Normal (<[Str.trim (Str.take i line) :=
                               yaml_scalar (Str.trim (Str.drop (S i) line))]> entries)
               | None => Throw
               end
      end
  end.

Definition yaml_load (block : string) : completion (option jsval) :=
  match yaml_entries (Str.split Chars.newline block) with
  | Throw => Throw
  | Normal entries =>
      if decide (entries = ∅) then Normal None else Normal (Some (VObj entries))
  end.

(** The text of a JSON string up to its closing quote; no escapes. *)
Fixpoint json_string (s : string) : option (string * string) :=
  match s with
  | EmptyString => None
  | String c rest =>
      if Ascii.eqb c Chars.dquote then Some (EmptyString, rest)
      else if Ascii.eqb c "\" || (Chars.code c <? 32)%nat then None
      else match json_string rest with
           | Some (body, rest') => Some (String c body, rest')
           | None => None
           end
  end.

Fixpoint json_digits (s : string) : string * string :=
  match s with
  | String c rest =>
      if Chars.is_digit c
      then let (ds, rest') := json_digits rest in (String c ds, rest')
      else (EmptyString, s)
  | EmptyString => (EmptyString, EmptyString)
  end.

Definition json_scalar (s : string) : option (jsval * string) :=
  if Str.startsWith "null" s then Some (VNull, Str.drop 4 s)
  else if Str.startsWith "true" s then Some (VBool true, Str.drop 4 s)
  else if Str.startsWith "false" s then Some (VBool false, Str.drop 5 s)
  else match s with
       | String c rest =>
           if Ascii.eqb c Chars.dquote then
             match json_string rest with
             | Some (body, rest') => Some (VStr body, rest')
             | None => None
             end
           else
             let (ds, rest') := json_digits s in
             if all_digits ds && negb (Str.startsWith "0" ds && (1 <? String.length ds)%nat)
             then Some (VNum ds, rest')
             else None
       | EmptyString => None
       end.

(** The elements of an array, read after its opening bracket or a comma. *)
Fixpoint json_items (depth : nat) (s : string) : option (list jsval * string) :=
  match depth with
  | O => None
  | S depth' =>
      let s := Str.ltrim s in
      let value :=
        match json_scalar s with
        | Some r => Some r
        | None =>
            if Str.startsWith "[" s then
              if Str.startsWith "]" (Str.ltrim (Str.drop 1 s))
              then Some (VArr [], Str.drop 1 (Str.ltrim (Str.drop 1 s)))
              else match json_items depth' (Str.drop 1 s) with
                   | Some (items, rest) => Some (VArr items, rest)
                   | None => None
                   end
            else None
        end in
      match value with
      | Some (v, rest) =>
          let rest := Str.ltrim rest in
          if Str.startsWith "," rest then
            match json_items depth' (Str.drop 1 rest) with
            | Some (items, rest') => Some (v :: items, rest')
            | None => None
            end
          else if Str.startsWith "]" rest then Some ([v], Str.drop 1 rest)
          else None
      | None => None
      end
  end.

Definition JSON_parse (s : string) : completion jsval :=
  let s := Str.ltrim s in
  let value :=
    match json_scalar s with
    | Some r => Some r
    | None =>
        if Str.startsWith "[" s then
          if Str.startsWith "]" (Str.ltrim (Str.drop 1 s))
          then Some (VArr [], Str.drop 1 (Str.ltrim (Str.drop 1 s)))
          else match json_items (String.length s) (Str.drop 1 s) with
               | Some (items, rest) => Some (VArr items, rest)
               | None => None
               end
        else None
    end in
  match value with
  | Some (v, rest) => if Str.is_empty (Str.ltrim rest) then Normal v else Throw
  | None => Throw
  end.

(** Straight insertion: [x] goes before the first element it does not
    compare greater than. *)
Fixpoint insert_by {A : Type} (comparefn : A -> A -> rand Q) (x : A) (sorted : list A)
    : rand (list A) :=
  fun calls =>
    match sorted with
    | [] => ([x], calls)
    | y :: rest =>
        let (c, calls1) := comparefn x y calls in
        if Qle_bool c 0 then (x :: sorted, calls1)
        else let (rest', calls2) := insert_by comparefn x rest calls1 in
             (y :: rest', calls2)
    end.

Fixpoint insertion_sort (A : Type) (comparefn : A -> A -> rand Q) (items : list A)
    : rand (list A) :=
  fun calls =>
    match items with
    | [] => ([], calls)
    | x :: rest =>
        let (sorted, calls1) := insertion_sort A comparefn rest calls in
        insert_by comparefn x sorted calls1
    end.

(** [order < 0] *)
Definition negative (order : Q) : bool := negb (Qle_bool 0 order).

(** How far the run the array begins with goes on after its second
    element: [previous] is the last element of the run so far. *)
Fixpoint count_run {A : Type} (comparefn : A -> A -> rand Q) (descending : bool)
    (previous : A) (rest : list A) : rand nat :=
  fun calls =>
    match rest with
    | [] => (0, calls)
    | current :: rest' =>
        let (order, calls1) := comparefn current previous calls in
        if (if descending then negb (negative order) else negative order)
        then (0, calls1)
        else let (n, calls2) := count_run comparefn descending current rest' calls1 in
             (S n, calls2)
    end.

(** The place of [pivot] in [work], looked for between [left] and [right]
    by halving. *)
Fixpoint insertion_point {A : Type} (fuel : nat) (comparefn : A -> A -> rand Q)
    (pivot : A) (work : list A) (left right : nat) : rand nat :=
  fun calls =>
    match fuel with
    | O => (left, calls)
    | S fuel' =>
        if (left <? right)%nat then
          let mid := left + (right - left) / 2 in
          match nth_error work mid with
          | Some x =>
              let (order, calls1) := comparefn pivot x calls in
              if negative order
              then insertion_point fuel' comparefn pivot work left mid calls1
              else insertion_point fuel' comparefn pivot work (S mid) right calls1
          | None => (left, calls)
          end
        else (left, calls)
    end.

Fixpoint binary_insertion {A : Type} (comparefn : A -> A -> rand Q)
    (sorted rest : list A) : rand (list A) :=
  fun calls =>
    match rest with
    | [] => (sorted, calls)
    | pivot :: rest' =>
        let (left, calls1) :=
          insertion_point (length sorted) comparefn pivot sorted 0 (length sorted) calls in
        binary_insertion comparefn (firstn left sorted ++ pivot :: skipn left sorted)
          rest' calls1
    end.

(** The sort of V8 on an array of fewer than 64 elements: the run the
    array begins with is counted, and reversed when it descends; the
    elements after it are inserted one by one, each at the place a binary
    search finds. *)
Definition binary_insertion_sort (A : Type) (comparefn : A -> A -> rand Q)
    (items : list A) : rand (list A) :=
  fun calls =>
    match items with
    | first :: second :: rest =>
        let (order, calls1) := comparefn second first calls in
        let descending := negative order in
        let (more, calls2) := count_run comparefn descending second rest calls1 in
        let run := first :: second :: firstn more rest in
        binary_insertion comparefn (if descending then rev run else run)
          (skipn more rest) calls2
    | _ => (items, calls)
    end.

(** [Math.random()] answering from a list of coins: below one half for
    [true], above for [false]. *)
Definition source_of_coins (coins : list bool) : nat -> Q :=
  fun i => if nth i coins false then (1 # 4)%Q else (3 # 4)%Q.

(** The sequences of [k] coins. *)
Fixpoint coin_sequences (k : nat) : list (list bool) :=
  match k with
  | O => [[]]
  | S k' => flat_map (fun coins => [true :: coins; false :: coins]) (coin_sequences k')
  end.

Definition quote (s : string) : string :=
  String Chars.dquote s +:+ String Chars.dquote EmptyString.

(** The text V8 prints for a built-in function. *)
Definition native_function (name : string) : string :=
  "function " +:+ name +:+ "() { [native code] }".

(** What a mapping inherits from Object.prototype, for the constructor and
    the methods named here; the examples read no other inherited
    property. *)
Definition prototype_get (v : jsval) (name : string) : property :=
  match v with
  | VObj _ =>
      if String.eqb name "constructor" then Builtin (native_function "Object")
      else if existsb (String.eqb name)
                ["toString"; "valueOf"; "hasOwnProperty"; "isPrototypeOf";
                 "propertyIsEnumerable"; "toLocaleString"]
      then Builtin (native_function name)
      else Undefined
  | _ => Undefined
  end.

(** A host that makes every element asked of it. *)
Definition createEl (tag cls : string) (text : option jsval) : completion unit := Normal tt.

End Sample.

(** ** Derived observations *)

(** The elements of the array [getRandomHighlights] returns. *)
Definition sampled (random_source : nat -> Q)
    (Array_sort : forall A : Type, (A -> A -> rand Q) -> list A -> rand (list A))
    (settings : BookHighlightsPluginSettings) (v : View) : list BookHighlight :=
  let (l, v') := getRandomHighlights random_source Array_sort settings v in
  default [] (heap v' !! l).

(** What displayHighlights asks the host to create in the container, for the
    sample it draws from the pool of [v]. *)
Definition displayed (random_source : nat -> Q)
    (Array_sort : forall A : Type, (A -> A -> rand Q) -> list A -> rand (list A))
    (createEl : string -> string -> option jsval -> completion unit)
    (settings : BookHighlightsPluginSettings) (v : View) : creation :=
  let shown := sampled random_source Array_sort settings v in
  if (length shown =? 0)%nat
  then create createEl "p" "no-highlights"
         (Some (VStr "No highlights found. Add some book highlights to your notes!"))
         nothing
  else forEach (card createEl settings) shown.

(** The card of [h] as the callback leaves it when it throws at the author
    line: the title link and nothing after it. *)
Definition title_only (h : BookHighlight) : element :=
  El "div" "book-highlight-card" None
    [El "h4" "book-title-container" None
       [El "a" "book-title-link" (Some (bookTitle h)) []]].

(** The classes of the elements created in [e], in document order. *)
Definition classes_in (e : element) : list string := map el_cls (descendants e).

(** Whether the callback comes to the author line. *)
Definition author_line (settings : BookHighlightsPluginSettings) (h : BookHighlight) : bool :=
  showBookTitle settings && showAuthor settings && truthy (Some (author h)).

(** A display that threw at the card of [h]: the cards of the highlights
    before it are complete, and the container holds them and what was
    created of the card of [h]. *)
Definition interrupted_display {A : Type} (callback : A -> creation)
    (shown : list A) (children : list element) : Prop :=
  exists done h rest,
    shown = done ++ h :: rest
    /\ Forall (fun x => snd (callback x) = Normal tt) done
    /\ snd (callback h) = Throw
    /\ children = concat (map (fun x => fst (callback x)) done) ++ fst (callback h).

(** The view left by [getRandomHighlights]. *)
Definition after_sampling (random_source : nat -> Q)
    (Array_sort : forall A : Type, (A -> A -> rand Q) -> list A -> rand (list A))
    (settings : BookHighlightsPluginSettings) (v : View) : View :=
  snd (getRandomHighlights random_source Array_sort settings v).

(** The settings with another value of maxHighlights. *)
Definition with_maxHighlights (settings : BookHighlightsPluginSettings) (n : Z)
    : BookHighlightsPluginSettings :=
  {| autoRefresh := autoRefresh settings;
     showBookTitle := showBookTitle settings;
     showAuthor := showAuthor settings;
     showComments := showComments settings;
     showMetadata := showMetadata settings;
     maxHighlights := n;
     randomHighlightsCount := randomHighlightsCount settings;
     refreshInterval := refreshInterval settings;
     filterProperty := filterProperty settings;
     filterValue := filterValue settings;
     highlightExample := highlightExample settings;
     highlightsFolder := highlightsFolder settings;
     filenameFormat := filenameFormat settings |}.

(** The settings with another filter and another filename format. *)
Definition with_filter (settings : BookHighlightsPluginSettings) (property value : string)
    : BookHighlightsPluginSettings :=
  {| autoRefresh := autoRefresh settings;
     showBookTitle := showBookTitle settings;
     showAuthor := showAuthor settings;
     showComments := showComments settings;
     showMetadata := showMetadata settings;
     maxHighlights := maxHighlights settings;
     randomHighlightsCount := randomHighlightsCount settings;
     refreshInterval := refreshInterval settings;
     filterProperty := property;
     filterValue := value;
     highlightExample := highlightExample settings;
     highlightsFolder := highlightsFolder settings;
     filenameFormat := filenameFormat settings |}.

Definition with_filenameFormat (settings : BookHighlightsPluginSettings) (format : string)
    : BookHighlightsPluginSettings :=
  {| autoRefresh := autoRefresh settings;
     showBookTitle := showBookTitle settings;
     showAuthor := showAuthor settings;
     showComments := showComments settings;
     showMetadata := showMetadata settings;
     maxHighlights := maxHighlights settings;
     randomHighlightsCount := randomHighlightsCount settings;
     refreshInterval := refreshInterval settings;
     filterProperty := filterProperty settings;
     filterValue := filterValue settings;
     highlightExample := highlightExample settings;
     highlightsFolder := highlightsFolder settings;
     filenameFormat := format |}.

Definition with_randomHighlightsCount (settings : BookHighlightsPluginSettings) (n : Z)
    : BookHighlightsPluginSettings :=
  {| autoRefresh := autoRefresh settings;
     showBookTitle := showBookTitle settings;
     showAuthor := showAuthor settings;
     showComments := showComments settings;
     showMetadata := showMetadata settings;
     maxHighlights := maxHighlights settings;
     randomHighlightsCount := n;
     refreshInterval := refreshInterval settings;
     filterProperty := filterProperty settings;
     filterValue := filterValue settings;
     highlightExample := highlightExample settings;
     highlightsFolder := highlightsFolder settings;
     filenameFormat := filenameFormat settings |}.

(** ** The specification's wording, for comparison with the code *)

Module Spec.

(** Section 4.3, step 3: a rule is tried on the working text, and a match
    removes its span from the working text before the next rule is tried. *)
Definition apply_rule (st : fields) (p : Re.regexp * target) : fields :=
  apply_pattern (f_text st) st p.

Definition extract_fields (cleaned : string) : fields :=
  fold_left apply_rule metadataPatterns (initial_fields cleaned).

(** Section 4.1: start of text, a line holding only the delimiter, any
    lines, then a line holding only the same delimiter. *)
Definition begins_with_delimiter_pair (content : string) : bool :=
  match Str.split Chars.newline content with
  | first :: rest => String.eqb first "---" && existsb (String.eqb "---") rest
  | [] => false
  end.

(** An ordered selection of [m] highlights of the pool, no position twice. *)
Definition arrangement (sel pool : list BookHighlight) (m : nat) : Prop :=
  length sel = m /\ exists rest, Permutation (sel ++ rest) pool.

(** The number of ordered selections of [m] out of [n]. *)
Fixpoint arrangements (n m : nat) : nat :=
  match m with
  | O => 1
  | S m' => n * arrangements (n - 1) m'
  end.

(** Section 4.5, uniformity.  The sort learns of a random number only the
    sign of [0.5 - Math.random()], a fair coin.  When the [2 ^ k] sequences
    of the first [k] coins are equally likely, every ordered selection of the
    pool is as likely as any other: the coin sequences that produce it,
    listed in [ways], are one in [arrangements n m] of all. *)
Definition uniform_sample (k : nat)
    (Array_sort : forall A : Type, (A -> A -> rand Q) -> list A -> rand (list A))
    (settings : BookHighlightsPluginSettings) (v : View) : Prop :=
  let n := length (pool v) in
  let m := Z.to_nat (Z.min (randomHighlightsCount settings) (Z.of_nat n)) in
  forall sel, arrangement sel (pool v) m ->
    exists ways : list (list bool),
      NoDup ways
      /\ (forall coins, In coins ways <->
            length coins = k
            /\ sampled (Sample.source_of_coins coins) Array_sort settings v = sel)
      /\ length ways * arrangements n m = 2 ^ k.

End Spec.

(** ** Vocabulary of the statements *)

(** The trimmed first capture of a pattern in a text, empty without a match. *)
Definition captured (regex : Re.regexp) (s : string) : string :=
  match Re.exec regex s with
  | Some m => Str.trim (group_text m 1)
  | None => EmptyString
  end.

(** The working text after the round of a pattern: when the pattern matches
    the callout content, its first occurrence in the working text is removed
    and the text trimmed. *)
Definition stripped (regex : Re.regexp) (calloutContent working : string) : string :=
  match Re.exec regex calloutContent with
  | Some _ => remove_first regex working
  | None => working
  end.

(** The highlights one file adds to the accumulated list. *)
Definition file_highlights (yaml_load : string -> completion (option jsval))
    (JSON_parse : string -> completion jsval)
    (prototype_get : jsval -> string -> property)
    (vault_read : string -> completion string)
    (settings : BookHighlightsPluginSettings) (path : string) : list BookHighlight :=
  match vault_read path with
  | Throw => []
  | Normal content =>
      match extractFrontmatter yaml_load content with
      | None => []
      | Some frontmatter =>
          match passes_filter JSON_parse prototype_get settings frontmatter with
          | Normal true =>
              match extractHighlights settings content path frontmatter with
              | Normal bookHighlights => bookHighlights
              | Throw => []
              end
          | _ => []
          end
      end
  end.

(** Whether the cap stops the scan at a list of highlights. *)
Definition cap_reached (settings : BookHighlightsPluginSettings)
    (highlights : list BookHighlight) : bool :=
  ((0 <? maxHighlights settings)
   && (maxHighlights settings <=? Z.of_nat (length highlights)))%Z.

(** The highlights the files yield when nothing caps the scan. *)
Definition raw_highlights (yaml_load : string -> completion (option jsval))
    (JSON_parse : string -> completion jsval)
    (prototype_get : jsval -> string -> property)
    (vault_read : string -> completion string)
    (settings : BookHighlightsPluginSettings) (files : list string) : list BookHighlight :=
  fst (scan yaml_load JSON_parse prototype_get vault_read (with_maxHighlights settings 0)
         files [] []).

(** A lower bound on what a pattern reads. *)
Fixpoint min_length (r : Re.regex) : nat :=
  match r with
  | Re.Eps => 0
  | Re.Chr _ => 1
  | Re.CSet _ => 1
  | Re.Seq r1 r2 => min_length r1 + min_length r2
  | Re.Alt r1 r2 => Nat.min (min_length r1) (min_length r2)
  | Re.Star _ _ => 0
  | Re.Group _ r1 => min_length r1
  | Re.Lookahead _ => 0
  | Re.Bol => 0
  | Re.Eol => 0
  end.

(** Patterns without capturing groups. *)
Fixpoint group_free (r : Re.regex) : bool :=
  match r with
  | Re.Group _ _ => false
  | Re.Seq r1 r2 => group_free r1 && group_free r2
  | Re.Alt r1 r2 => group_free r1 && group_free r2
  | Re.Star _ r1 => group_free r1
  | Re.Lookahead r1 => group_free r1
  | _ => true
  end.

(** What a successful step or run guarantees: its continuation succeeded on
    the input left after at least [lo] units. *)
Definition hands_on (lo : nat) (s : string) (pos : nat) (k : Re.cont) (o : Re.outcome)
    : Prop :=
  exists n cs', lo <= n <= String.length s /\ k (Str.drop n s) (pos + n) cs' = Some o.

(** The escaping of the format, unit by unit. *)
Fixpoint escape_units (s : string) : string :=
  match s with
  | EmptyString => EmptyString
  | String c s' =>
      if Patterns.is_special c
      then String "\" (String c (escape_units s'))
      else String c (escape_units s')
  end.

(** The grammar of the pattern sources: escaped syntax characters, plain
    characters and groups. *)
Inductive source_ok : string -> Prop :=
| ok_end : source_ok EmptyString
| ok_escaped c s :
    Patterns.is_special c = true -> source_ok s -> source_ok (String "\" (String c s))
| ok_plain c s :
    Patterns.is_special c = false -> source_ok s -> source_ok (String c s)
| ok_group s : source_ok s -> source_ok ("(.+)" +:+ s).

(** Sources without groups. *)
Inductive escaped_text : string -> Prop :=
| et_end : escaped_text EmptyString
| et_escaped c s :
    Patterns.is_special c = true -> escaped_text s -> escaped_text (String "\" (String c s))
| et_plain c s :
    Patterns.is_special c = false -> escaped_text s -> escaped_text (String c s).

(** The first element of [items] that decides the test of [some]: the
    callback answers [answer] for it, and false for those before it. *)
Definition first_decides (items : list jsval) (filterValue : string)
    (answer : completion bool) : Prop :=
  exists before item after,
    items = before ++ item :: after
    /\ Forall (fun x => same_trimmed x filterValue = Normal false) before
    /\ same_trimmed item filterValue = answer.

(** ** Documents and views used as examples *)

Module Examples.

(** A callout whose lines are [lines], each behind a quote marker. *)
Definition callout_of (lines : list string) : string :=
  "> [!quote]" +:+ Str.join EmptyString (map (fun l => Str.nl +:+ "> " +:+ l) lines).

(** The block of section 8 of the specification. *)
Definition spec_lines : list string :=
  [ "Highlighted: 2023-01-01"; "Page: 42"; "My Comments: great quote";
    "Link: Some text ^ref-1234" ].

(** The highlight section 8 expects of it, in the note "Dune.md". *)
Definition spec_highlight : BookHighlight :=
  {| bookTitle := VStr "Dune"; author := VNull;
     date := "2023-01-01"; page := "42"; location := EmptyString;
     text := "Some text"; comment := "great quote"; sourceFile := "Dune.md" |}.

(** A block whose date line holds what looks like a page label. *)
Definition contested_lines : list string := [ "Highlighted: Page: 5"; "foo" ].

(** A block that holds only metadata. *)
Definition metadata_only_lines : list string := [ "Page: 3"; "Location: 77" ].

Definition document (frontmatter_lines body_lines : list string) : string :=
  Str.join Str.nl (["---"] ++ frontmatter_lines ++ ["---"] ++ body_lines).

(** A note whose closing line starts with the delimiter and goes on. *)
Definition rule_after_block : string :=
  Str.join Str.nl ["---"; "title: Dune"; "---- end of properties"; "> [!quote] Fear is the mind-killer"].

(** A note with highlights and no frontmatter. *)
Definition bare_note : string :=
  Str.join Str.nl ["# Dune"; "> [!quote] Fear is the mind-killer"].

(** A book note with [n] highlights. *)
Fixpoint quotes (n : nat) : list string :=
  match n with
  | O => []
  | S n' => quotes n' ++ ["> [!quote] passage"; EmptyString]
  end.

Definition book_note (n : nat) : string :=
  document ["title: Dune"; "subtopic: Book Highlights"] (quotes n).

(** A vault of four book notes with 8, 8, 8 and 6 highlights. *)
Definition vault_paths : list string := ["a.md"; "b.md"; "c.md"; "d.md"].

Definition vault_read (path : string) : completion string :=
  if String.eqb path "d.md" then Normal (book_note 6)
  else if existsb (String.eqb path) vault_paths then Normal (book_note 8)
  else Throw.

(** A vault with the bare note only. *)
Definition bare_vault_read (path : string) : completion string :=
  if String.eqb path "note.md" then Normal bare_note else Throw.

(** A note whose filter property is a mapping with a key 'toString'. *)
Definition odd_property_note : string :=
  document ["subtopic: {toString: x}"] ["> [!quote] Fear is the mind-killer"].

Definition odd_vault_read (path : string) : completion string :=
  if String.eqb path "note.md" then Normal odd_property_note else Throw.

(** A book note with an author and one highlight. *)
Definition authored_note (author quote : string) : string :=
  document ["subtopic: Book Highlights"; "author: " +:+ author] ["> [!quote] " +:+ quote].

(** A vault of two such notes; the author of the second is a mapping with a
    key 'toString'. *)
Definition authors_read (path : string) : completion string :=
  if String.eqb path "a.md" then Normal (authored_note "Frank Herbert" "Fear is the mind-killer")
  else if String.eqb path "b.md" then Normal (authored_note "{toString: x}" "The spice must flow")
  else Throw.

Definition highlight (t : string) : BookHighlight :=
  {| bookTitle := VStr "Dune"; author := VNull; date := EmptyString; page := EmptyString;
     location := EmptyString; text := t; comment := EmptyString; sourceFile := "Dune.md" |}.

Definition three : list BookHighlight := [highlight "one"; highlight "two"; highlight "three"].

(** An open pane whose pool is [three]. *)
Definition view : View :=
  {| this_highlights := 0;
     heap := <[0 := three]> ∅;
     contentEl := [Header; Container []];
     console := [];
     random_calls := 0 |}.

End Examples.

(** ** Character classes of a text, and one-unit iteration *)

(** Every unit of [s] satisfies [p]. *)
Fixpoint every (p : ascii -> bool) (s : string) : bool :=
  match s with
  | EmptyString => true
  | String c s' => p c && every p s'
  end.

(** What the greedy iteration of a pattern of one unit amounts to: the
    longest run of units in [p] is read, then shorter ones, until the rest
    of the pattern, [k], succeeds. *)
Fixpoint greedy_class (p : ascii -> bool) (k : Re.cont) (s : string) (pos : nat)
    (cs : Re.captures) : option Re.outcome :=
  match s with
  | String x s' =>
      if p x then
        match greedy_class p k s' (S pos) cs with
        | Some o => Some o
        | None => k s pos cs
        end
      else k s pos cs
  | EmptyString => k s pos cs
  end.

(** The lazy one: the shortest run first. *)
Fixpoint lazy_class (p : ascii -> bool) (k : Re.cont) (s : string) (pos : nat)
    (cs : Re.captures) : option Re.outcome :=
  match k s pos cs with
  | Some o => Some o
  | None =>
      match s with
      | String x s' => if p x then lazy_class p k s' (S pos) cs else None
      | EmptyString => None
      end
  end.

(** A step that reads one unit in [p]. *)
Definition reads_one (p : ascii -> bool)
    (step : string -> nat -> Re.captures -> Re.cont -> option Re.outcome) : Prop :=
  forall s pos cs k,
    step s pos cs k =
    match s with
    | String x s' => if p x then k s' (S pos) cs else None
    | EmptyString => None
    end.

(** ** The default filename format *)

(** The units [.] matches. *)
Definition in_line (c : ascii) : bool := negb (Chars.is_line_terminator c).

(** The pattern built from the format '{{title}} by {{author}}'. *)
Definition title_by_author : Re.regexp :=
  Re.RegExp
    (Re.Cat [Re.Bol; Re.Group 1 (Re.Plus true Re.Dot);
             Re.Chr " "; Re.Chr "b"; Re.Chr "y"; Re.Chr " ";
             Re.Group 2 (Re.Plus true Re.Dot); Re.Eol]) false.

(** ** The frontmatter block *)

(** What extractFrontmatter makes of the value js-yaml returns. *)
Definition frontmatter_of (loaded : completion (option jsval)) : option jsval :=
  match loaded with
  | Normal loaded => if truthy loaded then loaded else Some (VObj ∅)
  | Throw => None
  end.

(** The beginning of a line that starts with the delimiter. *)
Definition closing : string := Str.nl +:+ "---".

(** /^\/+|\/+$/g *)
Definition edge_slashes : Re.regexp :=
  Re.RegExp (Re.Alt (Re.Seq Re.Bol (Re.Plus true (Re.Chr "/")))
                    (Re.Seq (Re.Plus true (Re.Chr "/")) Re.Eol)) false.

(** value.replace(/^\/+|\/+$/g, '') *)
Definition strip_edge_slashes (value : string) : string :=
  Re.replace_all edge_slashes (fun _ => EmptyString) value.

(** [s] without the units [c] it begins with. *)
Fixpoint drop_leading (c : ascii) (s : string) : string :=
  match s with
  | String x s' => if Ascii.eqb c x then drop_leading c s' else s
  | EmptyString => EmptyString
  end.

(** [s] without the units [c] it ends with. *)
Fixpoint drop_trailing (c : ascii) (s : string) : string :=
  match s with
  | String x s' =>
      let t := drop_trailing c s' in
      if Ascii.eqb c x && Str.is_empty t then EmptyString else String x t
  | EmptyString => EmptyString
  end.

(** ** The settings tab of main.ts *)

(** The value of a digit under a radix of at most 36, a letter counting
    from ten. *)
Definition digit_value (radix : Z) (c : ascii) : option Z :=
  let n := Z.of_nat (Chars.code c) in
  let value :=
    if Chars.is_digit c then Some (n - 48)%Z
    else if Chars.is_lower c then Some (n - 87)%Z
    else if Chars.is_upper c then Some (n - 55)%Z
    else None in
  match value with
  | Some d => if (d <? radix)%Z then Some d else None
  | None => None
  end.

(** The number the leading digits of [s] spell, after those already read;
    [None]: no digit read. *)
Fixpoint digits_value (radix : Z) (s : string) (seen : option Z) : option Z :=
  match s with
  | String c s' =>
      match digit_value radix c with
      | Some d => digits_value radix s' (Some (radix * default 0 seen + d)%Z)
      | None => seen
      end
  | EmptyString => seen
  end.

(** The digits after the sign: '0x' or '0X' announce radix 16. *)
Definition magnitude (s : string) : option Z :=
  if Str.startsWith "0x" s || Str.startsWith "0X" s
  then digits_value 16 (Str.drop 2 s) None
  else digits_value 10 s None.

(** [parseInt(text)], the radix left out: leading white space is skipped, a
    sign is read, then '0x' or '0X' for radix 16, then the digits there are;
    [None] is NaN.  The Number is this integer as long as it lies below
    2^53 in size, which at most 15 digits ensure. *)
Definition parseInt (text : string) : option Z :=
  let s := Str.ltrim text in
  let negative := Str.startsWith "-" s in
  let s := if Str.startsWith "-" s || Str.startsWith "+" s then Str.drop 1 s else s in
  match magnitude s with
  | Some n => Some (if negative then (- n)%Z else n)
  | None => None
  end.

(** [n || d] for a number [n]: NaN and zero are falsy. *)
Definition number_or (n : option Z) (d : Z) : Z :=
  match n with
  | Some n => if (n =? 0)%Z then d else n
  | None => d
  end.

Definition with_refreshInterval (settings : BookHighlightsPluginSettings) (n : Z)
    : BookHighlightsPluginSettings :=
  {| autoRefresh := autoRefresh settings;
     showBookTitle := showBookTitle settings;
     showAuthor := showAuthor settings;
     showComments := showComments settings;
     showMetadata := showMetadata settings;
     maxHighlights := maxHighlights settings;
     randomHighlightsCount := randomHighlightsCount settings;
     refreshInterval := n;
     filterProperty := filterProperty settings;
     filterValue := filterValue settings;
     highlightExample := highlightExample settings;
     highlightsFolder := highlightsFolder settings;
     filenameFormat := filenameFormat settings |}.

Definition with_highlightsFolder (settings : BookHighlightsPluginSettings) (folder : string)
    : BookHighlightsPluginSettings :=
  {| autoRefresh := autoRefresh settings;
     showBookTitle := showBookTitle settings;
     showAuthor := showAuthor settings;
     showComments := showComments settings;
     showMetadata := showMetadata settings;
     maxHighlights := maxHighlights settings;
     randomHighlightsCount := randomHighlightsCount settings;
     refreshInterval := refreshInterval settings;
     filterProperty := filterProperty settings;
     filterValue := filterValue settings;
     highlightExample := highlightExample settings;
     highlightsFolder := folder;
     filenameFormat := filenameFormat settings |}.

(** The settings with other display toggles. *)
Definition with_toggles (settings : BookHighlightsPluginSettings)
    (auto title author comments metadata : bool) : BookHighlightsPluginSettings :=
  {| autoRefresh := auto;
     showBookTitle := title;
     showAuthor := author;
     showComments := comments;
     showMetadata := metadata;
     maxHighlights := maxHighlights settings;
     randomHighlightsCount := randomHighlightsCount settings;
     refreshInterval := refreshInterval settings;
     filterProperty := filterProperty settings;
     filterValue := filterValue settings;
     highlightExample := highlightExample settings;
     highlightsFolder := highlightsFolder settings;
     filenameFormat := filenameFormat settings |}.

(** A change made in the settings tab: the setting and the value its
    control hands to [onChange]. *)
Inductive change : Type :=
| AutoRefresh (value : bool)
| ShowBookTitle (value : bool)
| ShowAuthor (value : bool)
| ShowComments (value : bool)
| ShowMetadata (value : bool)
| MaxHighlights (value : string)
| RandomHighlightsCount (value : string)
| RefreshInterval (value : string)
| FilterProperty (value : string)
| FilterValue (value : string)
| FilenameFormat (value : string)
| HighlightsFolder (value : string).

(** What the [onChange] handlers of [display] assign to the settings. *)
Definition onChange (c : change) (settings : BookHighlightsPluginSettings)
    : BookHighlightsPluginSettings :=
  match c with
  | AutoRefresh value =>
      with_toggles settings value (showBookTitle settings) (showAuthor settings)
        (showComments settings) (showMetadata settings)
  | ShowBookTitle value =>
      with_toggles settings (autoRefresh settings) value (showAuthor settings)
        (showComments settings) (showMetadata settings)
  | ShowAuthor value =>
      with_toggles settings (autoRefresh settings) (showBookTitle settings) value
        (showComments settings) (showMetadata settings)
  | ShowComments value =>
      with_toggles settings (autoRefresh settings) (showBookTitle settings)
        (showAuthor settings) value (showMetadata settings)
  | ShowMetadata value =>
      with_toggles settings (autoRefresh settings) (showBookTitle settings)
        (showAuthor settings) (showComments settings) value
  | MaxHighlights value =>
      (* parseInt(value) || 0 *)
      with_maxHighlights settings (number_or (parseInt value) 0)
  | RandomHighlightsCount value =>
      (* Math.max(1, parseInt(value) || 1) *)
      with_randomHighlightsCount settings (Z.max 1 (number_or (parseInt value) 1))
  | RefreshInterval value =>
      (* Math.max(0, parseInt(value) || 300) *)
      with_refreshInterval settings (Z.max 0 (number_or (parseInt value) 300))
  | FilterProperty value =>
      (* value || 'type' *)
      with_filter settings (if Str.is_empty value then "type" else value)
        (filterValue settings)
  | FilterValue value => with_filter settings (filterProperty settings) value
  | FilenameFormat value =>
      (* value || '{{title}} by {{author}}' *)
      with_filenameFormat settings
        (if Str.is_empty value then "{{title}} by {{author}}" else value)
  | HighlightsFolder value => with_highlightsFolder settings (strip_edge_slashes value)
  end.

(** The text a change hands over, for the settings that are numbers. *)
Definition number_text (c : change) : string :=
  match c with
  | MaxHighlights value | RandomHighlightsCount value | RefreshInterval value => value
  | _ => EmptyString
  end.

(** What the handlers of the tab establish and keep: a display count of at
    least 1, a refresh interval that is not negative, a filter property and
    a filename format that are not empty, a folder without a slash at
    either end. *)
Definition tab_invariant (settings : BookHighlightsPluginSettings) : Prop :=
  (1 <= randomHighlightsCount settings)%Z
  /\ (0 <= refreshInterval settings)%Z
  /\ filterProperty settings <> EmptyString
  /\ filenameFormat settings <> EmptyString
  /\ Str.startsWith "/" (highlightsFolder settings) = false
  /\ Str.endsWith "/" (highlightsFolder settings) = false.

(** A Number that holds an integer exactly (Number.isSafeInteger). *)
Definition safe_integer (n : Z) : Prop := (Z.abs n < 2 ^ 53)%Z.

(** The changes whose number, if they hand one over as text, has at most
    15 digits. *)
Definition in_range (c : change) : Prop := String.length (number_text c) <= 15.

(** ** Files that yield highlights *)

(** Whether a file adds highlights to the pool. *)
Definition yields (yaml_load : string -> completion (option jsval))
    (JSON_parse : string -> completion jsval)
    (prototype_get : jsval -> string -> property)
    (vault_read : string -> completion string)
    (settings : BookHighlightsPluginSettings) (path : string) : bool :=
  (0 <? length (file_highlights yaml_load JSON_parse prototype_get vault_read settings
                  path))%nat.

(** ** Passes in a row, and the life of the pane *)

(** Whether a child of the pane is the paragraph the catch of a pass adds. *)
Definition is_error (n : node) : bool :=
  match n with
  | Paragraph cls text =>
      String.eqb cls EmptyString
      && String.eqb text "Error loading highlights. Check console for details."
  | _ => false
  end.

Definition errors_shown (v : View) : nat := length (List.filter is_error (contentEl v)).

(** The vault as one pass finds it, and the settings of the moment. *)
Record pass : Type := {
  pass_settings : BookHighlightsPluginSettings;
  pass_files : completion (list string);          (* getMarkdownFiles() *)
  pass_read : string -> completion string         (* vault.read *)
}.

Section Passes.

Variable yaml_load : string -> completion (option jsval).
Variable JSON_parse : string -> completion jsval.
Variable prototype_get : jsval -> string -> property.
Variable random_source : nat -> Q.
Variable Array_sort : forall A : Type, (A -> A -> rand Q) -> list A -> rand (list A).
Variable createEl : string -> string -> option jsval -> completion unit.

Definition refresh_pass (v : View) (p : pass) : View :=
  refreshHighlights yaml_load JSON_parse prototype_get (pass_files p) (pass_read p)
    random_source Array_sort createEl (pass_settings p) v.

(** Whether the pass ends in the [catch] of refreshHighlights. *)
Definition caught (v : View) (p : pass) : bool :=
  match snd (refreshHighlights_try yaml_load JSON_parse prototype_get (pass_files p)
               (pass_read p) random_source Array_sort createEl (pass_settings p) v) with
  | Throw => true
  | Normal _ => false
  end.

(** Calls of refreshHighlights one after the other. *)
Definition refresh_passes (passes : list pass) (v : View) : View :=
  fold_left refresh_pass passes v.

(** How many of them end in the [catch]. *)
Fixpoint caught_passes (passes : list pass) (v : View) : nat :=
  match passes with
  | [] => 0
  | p :: rest => (if caught v p then 1 else 0) + caught_passes rest (refresh_pass v p)
  end.

End Passes.

(** ** The intervals of the pane and of the plugin *)

(** The intervals set on [window]: their handles, each with its delay in
    milliseconds. *)
Definition intervals : Type := gmap nat Z.

(** The pane with its interval. *)
Record Pane : Type := {
  pane_view : View;
  this_refreshInterval : option nat;       (* this.refreshInterval: a handle or null *)
  pane_window : intervals
}.

(** The plugin of main.ts: its settings, its interval, the handlers it has
    registered for the vault's 'modify' event, the data it has saved, and
    the calls of refreshAllViews it has made. *)
Record Plugin : Type := {
  plugin_settings : BookHighlightsPluginSettings;
  refreshIntervalId : option nat;          (* this.refreshIntervalId *)
  plugin_window : intervals;
  modify_handlers : nat;
  data : option BookHighlightsPluginSettings;
  refreshAllViews_calls : nat
}.

Definition with_contentEl (v : View) (children : list node) : View :=
  {| this_highlights := this_highlights v;
     heap := heap v;
     contentEl := children;
     console := console v;
     random_calls := random_calls v |}.

Section Window.

(** The handle [window.setInterval] returns when the intervals given are
    set. *)
Variable setInterval_handle : intervals -> nat.

(** if (this.refreshInterval) { window.clearInterval(this.refreshInterval);
    this.refreshInterval = null; } : a handle of 0 is falsy. *)
Definition clear_refreshInterval (p : Pane) : Pane :=
  match this_refreshInterval p with
  | Some h =>
      if (h =? 0)%nat then p
      else {| pane_view := pane_view p;
              this_refreshInterval := None;
              pane_window := delete h (pane_window p) |}
  | None => p
  end.

(** setupAutoRefresh of the view *)
Definition setupAutoRefresh (settings : BookHighlightsPluginSettings) (p : Pane) : Pane :=
  let p1 := clear_refreshInterval p in
  let refreshSeconds := refreshInterval settings in
  if autoRefresh settings && (0 <? refreshSeconds)%Z then
    let h := setInterval_handle (pane_window p1) in
    {| pane_view := pane_view p1;
       this_refreshInterval := Some h;
       pane_window := <[h := (refreshSeconds * 1000)%Z]> (pane_window p1) |}
  else p1.

Definition onClose (p : Pane) : Pane :=
  let p1 := clear_refreshInterval p in
  {| pane_view := with_contentEl (pane_view p1) [];
     this_refreshInterval := this_refreshInterval p1;
     pane_window := pane_window p1 |}.

Section Open.

Variable yaml_load : string -> completion (option jsval).
Variable JSON_parse : string -> completion jsval.
Variable prototype_get : jsval -> string -> property.
Variable getMarkdownFiles : completion (list string).
Variable vault_read : string -> completion string.
Variable random_source : nat -> Q.
Variable Array_sort : forall A : Type, (A -> A -> rand Q) -> list A -> rand (list A).
Variable createEl : string -> string -> option jsval -> completion unit.

(** onOpen: the pane is emptied, the header and the container are made, the
    first pass runs, the interval is set up. *)
Definition onOpen (settings : BookHighlightsPluginSettings) (p : Pane) : Pane :=
  let opened := with_contentEl (pane_view p) [Header; Container []] in
  setupAutoRefresh settings
    {| pane_view :=
         refreshHighlights yaml_load JSON_parse prototype_get getMarkdownFiles vault_read
           random_source Array_sort createEl settings opened;
       this_refreshInterval := this_refreshInterval p;
       pane_window := pane_window p |}.

End Open.

End Window.

(** The plugin. *)
Module Plugin.

Section Window.

Variable setInterval_handle : intervals -> nat.

(** if (this.refreshIntervalId !== null) { ... } *)
Definition clearAutoRefresh (g : Plugin) : Plugin :=
  match refreshIntervalId g with
  | Some h =>
      {| plugin_settings := plugin_settings g;
         refreshIntervalId := None;
         plugin_window := delete h (plugin_window g);
         modify_handlers := modify_handlers g;
         data := data g;
         refreshAllViews_calls := refreshAllViews_calls g |}
  | None => g
  end.

(** this.registerEvent(this.app.vault.on('modify', ...)) *)
Definition register_modify (g : Plugin) : Plugin :=
  {| plugin_settings := plugin_settings g;
     refreshIntervalId := refreshIntervalId g;
     plugin_window := plugin_window g;
     modify_handlers := S (modify_handlers g);
     data := data g;
     refreshAllViews_calls := refreshAllViews_calls g |}.

Definition setupAutoRefresh (g : Plugin) : Plugin :=
  let g1 := clearAutoRefresh g in
  let settings := plugin_settings g1 in
  let g2 :=
    if autoRefresh settings && (0 <? refreshInterval settings)%Z then
      let h := setInterval_handle (plugin_window g1) in
      {| plugin_settings := settings;
         refreshIntervalId := Some h;
         plugin_window := <[h := (refreshInterval settings * 1000)%Z]> (plugin_window g1);
         modify_handlers := modify_handlers g1;
         data := data g1;
         refreshAllViews_calls := refreshAllViews_calls g1 |}
    else g1 in
  register_modify g2.

Definition refreshAllViews (g : Plugin) : Plugin :=
  {| plugin_settings := plugin_settings g;
     refreshIntervalId := refreshIntervalId g;
     plugin_window := plugin_window g;
     modify_handlers := modify_handlers g;
     data := data g;
     refreshAllViews_calls := S (refreshAllViews_calls g) |}.

(** saveSettings: saveData, setupAutoRefresh, refreshAllViews. *)
Definition saveSettings (g : Plugin) : Plugin :=
  refreshAllViews
    (setupAutoRefresh
       {| plugin_settings := plugin_settings g;
          refreshIntervalId := refreshIntervalId g;
          plugin_window := plugin_window g;
          modify_handlers := modify_handlers g;
          data := Some (plugin_settings g);
          refreshAllViews_calls := refreshAllViews_calls g |}).

(** A change made in the tab: the handler assigns the setting and saves. *)
Definition change_setting (c : change) (g : Plugin) : Plugin :=
  saveSettings
    {| plugin_settings := onChange c (plugin_settings g);
       refreshIntervalId := refreshIntervalId g;
       plugin_window := plugin_window g;
       modify_handlers := modify_handlers g;
       data := data g;
       refreshAllViews_calls := refreshAllViews_calls g |}.

(** onload, for what it does to the intervals and the handlers: the
    settings are those loaded; setupAutoRefresh; one more handler when
    auto-refresh is on. *)
Definition onload (loaded : BookHighlightsPluginSettings) (window : intervals) : Plugin :=
  let g := setupAutoRefresh
             {| plugin_settings := loaded;
                refreshIntervalId := None;
                plugin_window := window;
                modify_handlers := 0;
                data := None;
                refreshAllViews_calls := 0 |} in
  if autoRefresh loaded then register_modify g else g.

(** The vault's 'modify' event for a file: every handler registered calls
    refreshAllViews when the path ends with '.md'. *)
Definition modify (path : string) (g : Plugin) : Plugin :=
  if Str.endsWith ".md" path
  then Nat.iter (modify_handlers g) refreshAllViews g
  else g.

End Window.

End Plugin.

(** What there is of the pane's interval: none, with the window as it was
    without it, or one, next to the intervals of others. *)
Definition pane_interval (others : intervals) (p : Pane) : Prop :=
  (this_refreshInterval p = None /\ pane_window p = others)
  \/ (exists h delay,
        this_refreshInterval p = Some h /\ 0 < h /\ (h ∉ dom others)
        /\ pane_window p = <[h := delay]> others).

(** The same for the plugin. *)
Definition plugin_interval (others : intervals) (g : Plugin) : Prop :=
  (refreshIntervalId g = None /\ plugin_window g = others)
  \/ (exists h delay,
        refreshIntervalId g = Some h /\ (h ∉ dom others)
        /\ plugin_window g = <[h := delay]> others).

(** ** A window that hands out unused handles *)

(** A window that hands out as handle a number above 0 that is not in use. *)
Definition unused_handle (window : intervals) : nat := fresh (dom window ∪ {[0]}).

(** A pane that was not opened yet. *)
Definition closed_pane : Pane :=
  {| pane_view := with_contentEl Examples.view [];
     this_refreshInterval := None;
     pane_window := ∅ |}.

(** ** The end of a callout block *)

(** What ends the block of a callout, short of the end of the note: an
    empty line, or the marker of the next callout at the start of a line. *)
Definition empty_line : string := Str.nl +:+ Str.nl.
Definition next_callout : string := Str.nl +:+ "> [!".

(** Whether the block of a callout ends where [s] begins. *)
Definition block_ends (s : string) : bool :=
  Str.startsWith empty_line s || Str.startsWith next_callout s || Str.is_empty s.

(** A highlight made from the block [block] of a callout of [content]. *)
Definition made_from_block (content : string) (h : BookHighlight) : Prop :=
  exists type block before after,
    content = before +:+ "> [!" +:+ type +:+ "]" +:+ block +:+ after
    /\ type <> EmptyString
    /\ every (fun c => negb (Ascii.eqb c "]")) type = true
    /\ Str.indexOf empty_line block = None
    /\ Str.indexOf next_callout block = None
    /\ block_ends after = true
    /\ date h = f_date (callout_fields block)
    /\ page h = f_page (callout_fields block)
    /\ location h = f_location (callout_fields block)
    /\ text h = f_text (callout_fields block)
    /\ comment h = f_comment (callout_fields block).

(** * Lemmas and theorems *)

(** * Strings *)

Lemma Str_drop_0 s : Str.drop 0 s = s.
Proof. destruct s; reflexivity. Qed.

Lemma Str_drop_drop n m s : Str.drop n (Str.drop m s) = Str.drop (m + n) s.
Proof.
  revert s; induction m as [|m IH]; intros s; simpl.
  - reflexivity.
  - destruct s as [|c s]; simpl; [destruct n; reflexivity | apply IH].
Qed.

Lemma Str_length_drop n s : String.length (Str.drop n s) = String.length s - n.
Proof.
  revert s; induction n as [|n IH]; intros [|c s]; simpl; auto with arith.
Qed.

Lemma Str_app_cons c s t : String c s +:+ t = String c (s +:+ t).
Proof. reflexivity. Qed.

Lemma Str_app_empty_l t : EmptyString +:+ t = t.
Proof. reflexivity. Qed.

Lemma Str_app_empty_r s : s +:+ EmptyString = s.
Proof. induction s as [|c s IH]; [reflexivity|]. rewrite Str_app_cons, IH. reflexivity. Qed.

Lemma Str_take_drop n s : Str.take n s +:+ Str.drop n s = s.
Proof.
  revert s; induction n as [|n IH]; intros [|c s]; simpl; try reflexivity.
  rewrite Str_app_cons. f_equal. apply IH.
Qed.

(** * The matcher *)

Lemma hands_on_here s pos cs k o : k s pos cs = Some o -> hands_on 0 s pos k o.
Proof.
  intros H. exists 0, cs. rewrite Str_drop_0, Nat.add_0_r. split; [lia | assumption].
Qed.

Lemma hands_on_next x s pos cs k o :
  k s (S pos) cs = Some o -> hands_on 1 (String x s) pos k o.
Proof.
  intros H. exists 1, cs. simpl. rewrite ?Str_drop_0, Nat.add_1_r. split; [lia | assumption].
Qed.

Lemma hands_on_weaken lo lo' s pos k o :
  lo' <= lo -> hands_on lo s pos k o -> hands_on lo' s pos k o.
Proof. intros Hle (n & cs & Hn & H). exists n, cs. split; [lia | assumption]. Qed.

Lemma hands_on_trans lo1 lo2 s pos k k' o :
  hands_on lo1 s pos k' o ->
  (forall n cs', n <= String.length s ->
     k' (Str.drop n s) (pos + n) cs' = Some o -> hands_on lo2 (Str.drop n s) (pos + n) k o) ->
  hands_on (lo1 + lo2) s pos k o.
Proof.
  intros (n1 & cs1 & Hn1 & H1) Hk.
  destruct (Hk n1 cs1 (proj2 Hn1) H1) as (n2 & cs2 & Hn2 & H2).
  exists (n1 + n2), cs2. rewrite Str_length_drop in Hn2.
  rewrite Str_drop_drop, <- Nat.add_assoc in H2. split; [lia | assumption].
Qed.

Lemma iterate_sound g step k :
  (forall s pos cs k' o, step s pos cs k' = Some o -> hands_on 0 s pos k' o) ->
  forall rounds s pos cs o,
    Re.iterate g step k rounds s pos cs = Some o -> hands_on 0 s pos k o.
Proof.
  intros Hstep. induction rounds as [|rounds IH]; intros s pos cs o H; simpl in H.
  - eapply hands_on_here; eassumption.
  - assert (Hagain : forall o',
      step s pos cs
        (fun s' pos' cs' =>
           if (pos <? pos')%nat then Re.iterate g step k rounds s' pos' cs' else None)
      = Some o' -> hands_on 0 s pos k o').
    { intros o' H'. apply Hstep in H'. apply (hands_on_trans 0 0 _ _ _ _ _ H').
      intros n cs' _ Hn. simpl in Hn.
      destruct (pos <? pos + n)%nat; [|discriminate]. eapply IH; eassumption. }
    destruct g.
    + match type of H with match ?X with _ => _ end = _ => destruct X eqn:E end.
      * inversion H; subst. apply Hagain; assumption.
      * eapply hands_on_here; eassumption.
    + destruct (k s pos cs) eqn:E.
      * inversion H; subst. eapply hands_on_here; eassumption.
      * apply Hagain; assumption.
Qed.

(** A successful run read at least [min_length r] units, at most the whole
    input, and its continuation succeeded on what is left. *)
Lemma run_sound icase r : forall s pos cs k o,
  Re.run icase r s pos cs k = Some o -> hands_on (min_length r) s pos k o.
Proof.
  induction r as [ | c | p | r1 IH1 r2 IH2 | r1 IH1 r2 IH2 | g r1 IH1 | g r1 IH1 | r1 IH1 | | ];
    intros s pos cs k o H; cbn [Re.run] in H; cbn [min_length].
  - eapply hands_on_here; eassumption.
  - destruct s as [|x s]; [discriminate|].
    destruct (Re.char_eq icase c x); [|discriminate].
    eapply hands_on_next; eassumption.
  - destruct s as [|x s]; [discriminate|].
    destruct (p x); [|discriminate].
    eapply hands_on_next; eassumption.
  - apply IH1 in H. eapply hands_on_trans; [exact H|].
    intros n cs' _ Hn. cbv beta in Hn. eapply IH2; eassumption.
  - destruct (Re.run icase r1 s pos cs k) eqn:E1.
    + inversion H; subst. eapply hands_on_weaken; [|eapply IH1; eassumption]. lia.
    + eapply hands_on_weaken; [|eapply IH2; eassumption]. lia.
  - eapply iterate_sound; [|eassumption].
    intros; eapply hands_on_weaken; [|eapply IH1; eassumption]. lia.
  - apply IH1 in H as (n & cs' & Hn & H). exists n. eauto.
  - match type of H with match ?X with _ => _ end = _ => destruct X as [[[e cs'] rest]|] eqn:E end;
      [|discriminate].
    eapply hands_on_here; eassumption.
  - destruct (pos =? 0)%nat; [|discriminate]. eapply hands_on_here; eassumption.
  - destruct s; [|discriminate]. eapply hands_on_here; eassumption.
Qed.

Lemma attempt_sound re s pos m :
  Re.attempt re s pos = Some m ->
  exists n, min_length (Re.re_body re) <= n <= String.length s
    /\ m = Re.Match pos (Str.take n s) (Re.m_caps m) EmptyString (Str.drop n s).
Proof.
  unfold Re.attempt. intros H.
  destruct (Re.run _ _ _ _ _ _) as [[[e cs] after]|] eqn:E; [|discriminate].
  apply run_sound in E as (n & cs' & Hn & E). inversion E; subst. inversion H; subst.
  exists n. simpl. split; [assumption|].
  replace (pos + n - pos) with n by lia. reflexivity.
Qed.

(** A match splits the input searched into what was skipped, the matched
    text and the rest. *)
Lemma search_from_split re : forall s pos m,
  Re.search_from re s pos = Some m ->
  s = Re.m_before m +:+ Re.m_text m +:+ Re.m_after m
  /\ Re.m_index m = pos + String.length (Re.m_before m).
Proof.
  induction s as [|c s IH]; intros pos m H; simpl in H.
  - destruct (Re.attempt re EmptyString pos) eqn:E; [|discriminate].
    inversion H; subst. apply attempt_sound in E as (n & Hn & ->). simpl.
    rewrite Str_app_empty_l, Str_take_drop. split; [reflexivity | lia].
  - destruct (Re.attempt re (String c s) pos) eqn:E.
    + inversion H; subst. apply attempt_sound in E as (n & Hn & ->). simpl.
      rewrite Str_app_empty_l, Str_take_drop. split; [reflexivity | lia].
    + destruct (Re.search_from re s (S pos)) as [m'|] eqn:E'; [|discriminate].
      inversion H; subst. destruct (IH _ _ E') as [Hs Hi]. simpl.
      rewrite Str_app_cons, <- Hs. split; [reflexivity | lia].
Qed.

(** A match of the callout pattern is never empty, so a search leaves less
    input than it was given. *)
Lemma callout_search_progress : forall s pos m,
  Re.search_from Patterns.calloutRegex s pos = Some m ->
  String.length (Re.m_after m) < String.length s.
Proof.
  induction s as [|c s IH]; intros pos m H; simpl in H.
  - discriminate H.
  - destruct (Re.attempt Patterns.calloutRegex (String c s) pos) eqn:E.
    + inversion H; subst.
      apply attempt_sound in E as (n & Hn & Hm). rewrite Hm.
      cbn [Re.m_after]. rewrite Str_length_drop.
      change (min_length (Re.re_body Patterns.calloutRegex)) with 6 in Hn. lia.
    + destruct (Re.search_from Patterns.calloutRegex s (S pos)) as [m'|] eqn:E'; [|discriminate].
      inversion H; subst. simpl. apply IH in E'. lia.
Qed.

(** The rounds allowed to the callout loop are enough. *)
Lemma callout_loop_total : forall rounds rest pos filePath frontmatter parsed highlights,
  String.length rest <= rounds ->
  exists result,
    callout_loop rounds rest pos filePath frontmatter parsed highlights = Some result.
Proof.
  induction rounds as [|rounds IH]; intros rest pos filePath frontmatter parsed highlights Hlen;
    simpl.
  - destruct (Re.search_from Patterns.calloutRegex rest pos) as [m|] eqn:E; [|eauto].
    apply callout_search_progress in E. lia.
  - destruct (Re.search_from Patterns.calloutRegex rest pos) as [m|] eqn:E; [|eauto].
    apply callout_search_progress in E. apply IH. lia.
Qed.

(** Every highlight the loop pushes has text. *)
Lemma callout_loop_text : forall rounds rest pos filePath frontmatter parsed highlights result,
  Forall (fun h => text h <> EmptyString) highlights ->
  callout_loop rounds rest pos filePath frontmatter parsed highlights = Some result ->
  Forall (fun h => text h <> EmptyString) result.
Proof.
  induction rounds as [|rounds IH]; intros rest pos filePath frontmatter parsed highlights result
    Hall H; simpl in H.
  - destruct (Re.search_from Patterns.calloutRegex rest pos); [discriminate|].
    inversion H; subst. assumption.
  - destruct (Re.search_from Patterns.calloutRegex rest pos) as [m|]; [|inversion H; subst; assumption].
    eapply IH; [|exact H].
    unfold highlight_of_match.
    destruct (Str.is_empty (f_text (callout_fields (group_text m 2)))) eqn:E; [assumption|].
    apply Forall_app. split; [assumption|].
    constructor; [|constructor]. cbn [text]. intros Heq. rewrite Heq in E. discriminate.
Qed.

(** * The pattern source built by parseTitleAndAuthor *)

Lemma attempt_special s pos :
  Re.attempt Patterns.special s pos =
  match s with
  | String x s' =>
      if Patterns.is_special x
      then Some (Re.Match pos (String x EmptyString) [] EmptyString s')
      else None
  | EmptyString => None
  end.
Proof.
  unfold Re.attempt. cbn [Patterns.special Re.re_body Re.re_icase Re.run].
  destruct s as [|x s]; [reflexivity|].
  destruct (Patterns.is_special x); [|reflexivity].
  replace (S pos - pos) with 1 by lia. reflexivity.
Qed.

Lemma search_special : forall s pos,
  match Re.search_from Patterns.special s pos with
  | Some m =>
      exists x, Re.m_text m = String x EmptyString
        /\ String.length (Re.m_after m) < String.length s
        /\ escape_units s
           = Re.m_before m +:+ ("\" +:+ Re.m_text m) +:+ escape_units (Re.m_after m)
  | None => escape_units s = s
  end.
Proof.
  induction s as [|c s IH]; intros pos; cbn [Re.search_from]; rewrite attempt_special.
  - reflexivity.
  - cbn [escape_units]. destruct (Patterns.is_special c) eqn:Ec.
    + exists c. cbn. split; [reflexivity|]. split; [lia|reflexivity].
    + specialize (IH (S pos)).
      destruct (Re.search_from Patterns.special s (S pos)) as [m|]; cbn.
      * destruct IH as (x & Hx & Hlen & Hesc). exists x.
        split; [assumption|]. split; [lia|]. rewrite Hesc, Str_app_cons. reflexivity.
      * now rewrite IH.
Qed.

Lemma escape_special_units format : escape_special format = escape_units format.
Proof.
  unfold escape_special, Re.replace_all.
  generalize 0 as pos. generalize (Nat.lt_succ_diag_r (String.length format)).
  generalize (S (String.length format)) as rounds. intros rounds; revert format.
  induction rounds as [|rounds IH]; intros s Hlen pos; [lia|].
  cbn [Re.replace_all_from].
  pose proof (search_special s pos) as Hs.
  destruct (Re.search_from Patterns.special s pos) as [m|]; [|now rewrite Hs].
  destruct Hs as (x & Hx & Hafter & Hesc). rewrite Hesc, Hx. cbn [Str.is_empty].
  rewrite IH by lia. reflexivity.
Qed.

Ltac not_special :=
  exfalso;
  match goal with
  | H : Patterns.is_special _ = false |- _ => vm_compute in H; discriminate H
  | H : Patterns.is_special ?c = false, H' : Patterns.is_special ?c = true |- _ =>
      rewrite H in H'; discriminate H'
  end.

Lemma escape_units_ok s : source_ok (escape_units s).
Proof.
  induction s as [|c s IH]; cbn [escape_units]; [constructor|].
  destruct (Patterns.is_special c) eqn:E; constructor; assumption.
Qed.

Lemma source_ok_strip p : escaped_text p ->
  forall rest, source_ok (p +:+ rest) -> source_ok rest.
Proof.
  induction 1 as [|c p Hc Hp IH|c p Hc Hp IH]; intros rest H.
  - exact H.
  - rewrite !Str_app_cons in H. inversion H; subst; try not_special.
    apply IH; assumption.
  - rewrite Str_app_cons in H. inversion H; subst; try not_special.
    apply IH; assumption.
Qed.

Lemma startsWith_split p : forall s,
  Str.startsWith p s = true -> s = p +:+ Str.drop (String.length p) s.
Proof.
  induction p as [|a p IH]; intros s H.
  - simpl. rewrite ?Str_drop_0. reflexivity.
  - destruct s as [|b s]; [discriminate|]. cbn [Str.startsWith] in H.
    apply andb_true_iff in H as [Hab Hp]. apply Ascii.eqb_eq in Hab. subst b.
    rewrite Str_app_cons. simpl. f_equal. apply IH; assumption.
Qed.

Lemma run_Lit p : forall s pos cs k,
  Re.run false (Re.Lit p) s pos cs k =
  if Str.startsWith p s then k (Str.drop (String.length p) s) (pos + String.length p) cs
  else None.
Proof.
  induction p as [|a p IH]; intros s pos cs k; cbn [Re.Lit Re.run Str.startsWith].
  - cbn. rewrite ?Str_drop_0, Nat.add_0_r. reflexivity.
  - destruct s as [|b s]; [reflexivity|]. cbn [Re.char_eq].
    destruct (Ascii.eqb a b); [|reflexivity]. cbn [andb]. rewrite IH.
    simpl. rewrite Nat.add_succ_r. reflexivity.
Qed.

Lemma attempt_Lit p s pos :
  Re.attempt (Re.RegExp (Re.Lit p) false) s pos =
  if Str.startsWith p s
  then Some (Re.Match pos (Str.take (String.length p) s) [] EmptyString
               (Str.drop (String.length p) s))
  else None.
Proof.
  unfold Re.attempt. cbn [Re.re_body Re.re_icase]. rewrite run_Lit.
  destruct (Str.startsWith p s); [|reflexivity].
  replace (pos + String.length p - pos) with (String.length p) by lia. reflexivity.
Qed.

Section Placeholder.

(** A placeholder as it stands in the escaped format: it begins with an
    escaped syntax character and holds no group. *)
Variable c0 : ascii.
Variable tail : string.
Let placeholder : string := String "\" (String c0 tail).
Hypothesis c0_special : Patterns.is_special c0 = true.
Hypothesis c0_not_backslash : c0 <> "\"%char.
Hypothesis c0_not_paren : c0 <> "("%char.
Hypothesis placeholder_text : escaped_text placeholder.

Let re : Re.regexp := Re.RegExp (Re.Lit placeholder) false.

Lemma no_placeholder_at c s :
  c <> "\"%char -> Str.startsWith placeholder (String c s) = false.
Proof.
  intros Hc. subst placeholder. cbn [Str.startsWith].
  destruct (Ascii.eqb "\" c) eqn:E; [|reflexivity].
  apply Ascii.eqb_eq in E. congruence.
Qed.

Lemma no_placeholder_at_plain c s :
  Patterns.is_special c = false -> Str.startsWith placeholder (String c s) = false.
Proof.
  intros Hc. apply no_placeholder_at. intros ->. discriminate.
Qed.

Lemma no_placeholder_inside c s :
  source_ok s -> Str.startsWith placeholder (String c s) = false.
Proof.
  intros Hs. subst placeholder. cbn [Str.startsWith].
  destruct (Ascii.eqb "\" c); [|reflexivity]. cbn [andb].
  destruct s as [|d s]; [reflexivity|].
  destruct (Ascii.eqb c0 d) eqn:E; [|reflexivity].
  apply Ascii.eqb_eq in E. subst d. exfalso.
  inversion Hs; subst; try congruence.
Qed.

(** A search for the placeholder in a pattern source stops at a boundary. *)
Lemma search_placeholder s : source_ok s -> forall pos,
  match Re.search_from re s pos with
  | Some m =>
      Re.m_text m <> EmptyString
      /\ String.length (Re.m_after m) < String.length s
      /\ source_ok (Re.m_after m)
      /\ (forall t, source_ok t -> source_ok (Re.m_before m +:+ t))
  | None => True
  end.
Proof.
  induction 1 as [|c s Hc Hs IH|c s Hc Hs IH|s Hs IH]; intros pos.
  - cbn [Re.search_from]. unfold re. rewrite attempt_Lit. reflexivity.
  - cbn [Re.search_from]. unfold re at 1. rewrite attempt_Lit.
    destruct (Str.startsWith placeholder (String "\" (String c s))) eqn:E.
    + pose proof (startsWith_split _ _ E) as Hsplit.
      cbn [Re.m_text Re.m_after Re.m_before].
      split; [subst placeholder; discriminate|].
      split; [rewrite Str_length_drop; subst placeholder; simpl; lia|].
      split.
      * apply (source_ok_strip placeholder placeholder_text).
        rewrite <- Hsplit. constructor; assumption.
      * intros t Ht. exact Ht.
    + unfold re at 1. rewrite attempt_Lit, (no_placeholder_inside c s Hs).
      specialize (IH (S (S pos))).
      destruct (Re.search_from re s (S (S pos))) as [m|]; cbn; [|exact I].
      destruct IH as (Hne & Hlen & Hafter & Hbefore).
      split; [assumption|]. split; [lia|]. split; [assumption|].
      intros t Ht. rewrite !Str_app_cons. constructor; [assumption|]. apply Hbefore, Ht.
  - cbn [Re.search_from]. unfold re at 1.
    rewrite attempt_Lit, (no_placeholder_at_plain c s Hc).
    specialize (IH (S pos)).
    destruct (Re.search_from re s (S pos)) as [m|]; cbn; [|exact I].
    destruct IH as (Hne & Hlen & Hafter & Hbefore).
    split; [assumption|]. split; [lia|]. split; [assumption|].
    intros t Ht. rewrite Str_app_cons. constructor; [assumption|]. apply Hbefore, Ht.
  - change ("(.+)" +:+ s) with (String "(" (String "." (String "+" (String ")" s)))).
    cbn [Re.search_from]. unfold re at 1 2 3 4. rewrite !attempt_Lit.
    rewrite (no_placeholder_at "(") by discriminate.
    rewrite (no_placeholder_at ".") by discriminate.
    rewrite (no_placeholder_at "+") by discriminate.
    rewrite (no_placeholder_at ")") by discriminate.
    specialize (IH (S (S (S (S pos))))).
    destruct (Re.search_from re s (S (S (S (S pos))))) as [m|]; cbn; [|exact I].
    destruct IH as (Hne & Hlen & Hafter & Hbefore).
    split; [assumption|]. split; [lia|]. split; [assumption|].
    intros t Ht. rewrite !Str_app_cons.
    apply (ok_group (Re.m_before m +:+ t)). apply Hbefore, Ht.
Qed.

(** Putting a group for every placeholder keeps the source in the grammar. *)
Lemma replace_placeholder_ok : forall rounds s pos,
  source_ok s -> source_ok (Re.replace_all_from rounds re (fun _ => "(.+)") s pos).
Proof.
  induction rounds as [|rounds IH]; intros s pos Hs; cbn [Re.replace_all_from].
  - assumption.
  - pose proof (search_placeholder s Hs pos) as H.
    destruct (Re.search_from re s pos) as [m|]; [|assumption].
    destruct H as (Hne & Hlen & Hafter & Hbefore).
    destruct (Re.m_text m) eqn:E; [congruence|]. cbn [Str.is_empty].
    apply Hbefore. apply ok_group. apply IH. assumption.
Qed.

End Placeholder.

Lemma RegExp_source_plain c s n :
  Patterns.is_special c = false ->
  RegExp_source (String c s) n = Re.Seq (Re.Chr c) <$> RegExp_source s n.
Proof.
  intros Hc.
  destruct c as [b0 b1 b2 b3 b4 b5 b6 b7].
  destruct b0, b1, b2, b3, b4, b5, b6, b7;
    first [ discriminate Hc | cbn [RegExp_source]; rewrite ?Hc; reflexivity ].
Qed.

Lemma RegExp_source_ok s : source_ok s ->
  forall n, exists body, RegExp_source (s +:+ "$") n = Some body.
Proof.
  induction 1 as [|c s Hc Hs IH|c s Hc Hs IH|s Hs IH]; intros n.
  - eexists. reflexivity.
  - destruct (IH n) as [body Hbody]. rewrite !Str_app_cons.
    cbn [RegExp_source]. rewrite Hc, Hbody. eexists. reflexivity.
  - destruct (IH n) as [body Hbody]. rewrite Str_app_cons.
    rewrite (RegExp_source_plain c _ n Hc), Hbody. eexists. reflexivity.
  - destruct (IH (S n)) as [body Hbody].
    change (("(.+)" +:+ s) +:+ "$")
      with (String "(" (String "." (String "+" (String ")" (s +:+ "$"))))).
    cbn [RegExp_source]. rewrite Hbody. eexists. reflexivity.
Qed.

Lemma filename_pattern_ok format : source_ok (filename_pattern format).
Proof.
  unfold filename_pattern, Re.replace_all.
  apply (replace_placeholder_ok "{" "\{author\}\}"); try discriminate; try reflexivity.
  - repeat (first [ apply et_end
                  | apply et_escaped; [reflexivity|]
                  | apply et_plain; [reflexivity|] ]).
  - apply (replace_placeholder_ok "{" "\{title\}\}"); try discriminate; try reflexivity.
    + repeat (first [ apply et_end
                    | apply et_escaped; [reflexivity|]
                    | apply et_plain; [reflexivity|] ]).
    + rewrite escape_special_units. apply escape_units_ok.
Qed.

(** The pattern source of every format is accepted by [new RegExp]. *)
Lemma RegExp_new_pattern format :
  exists regex, RegExp_new ("^" +:+ filename_pattern format +:+ "$") = Some regex.
Proof.
  destruct (RegExp_source_ok _ (filename_pattern_ok format) 1) as [body Hbody].
  unfold RegExp_new. rewrite Str_app_cons, Str_app_empty_l. cbn [RegExp_source].
  rewrite Hbody. eexists. reflexivity.
Qed.

Lemma parseTitleAndAuthor_total settings filename :
  exists parsed, parseTitleAndAuthor settings filename = Normal parsed.
Proof.
  unfold parseTitleAndAuthor.
  destruct (RegExp_new_pattern (effective_format settings)) as [regex ->].
  destruct (Re.exec regex (basename_of filename)); [|eauto].
  destruct (Str.indexOf "{{title}}" (effective_format settings)),
           (Str.indexOf "{{author}}" (effective_format settings)); eauto.
Qed.

(** extractHighlights always returns. *)
Lemma extractHighlights_total settings content filePath frontmatter :
  exists highlights, extractHighlights settings content filePath frontmatter = Normal highlights.
Proof.
  unfold extractHighlights.
  destruct (parseTitleAndAuthor_total settings (Str.after_last "/" filePath)) as [parsed ->].
  destruct (callout_loop_total (callout_rounds content) content 0 filePath frontmatter parsed [])
    as [result ->]; [unfold callout_rounds; lia|].
  eauto.
Qed.

(** A pattern that begins with [^] matches at the start only. *)
Lemma search_from_Bol r icase : forall s pos,
  Re.search_from (Re.RegExp (Re.Seq Re.Bol r) icase) s (S pos) = None.
Proof.
  induction s as [|c s IH]; intros pos; cbn [Re.search_from].
  - reflexivity.
  - unfold Re.attempt at 1. cbn [Re.re_body Re.re_icase Re.run Nat.eqb].
    rewrite IH. reflexivity.
Qed.

Lemma exec_Bol r icase s m :
  Re.exec (Re.RegExp (Re.Seq Re.Bol r) icase) s = Some m ->
  Re.attempt (Re.RegExp (Re.Seq Re.Bol r) icase) s 0 = Some m.
Proof.
  unfold Re.exec. destruct s as [|c s]; cbn [Re.search_from].
  - destruct (Re.attempt _ _ _); [auto | discriminate].
  - destruct (Re.attempt _ _ _); [auto|]. rewrite search_from_Bol. discriminate.
Qed.

(** The body parsed from a source that ends with [$] succeeds at the end of
    the input only. *)
Lemma RegExp_source_anchored src : source_ok src ->
  forall n body, RegExp_source (src +:+ "$") n = Some body ->
  forall s pos cs k o, Re.run false body s pos cs k = Some o ->
  exists pos' cs', k EmptyString pos' cs' = Some o.
Proof.
  induction 1 as [|c src Hc Hs IH|c src Hc Hs IH|src Hs IH]; intros n body Hbody s pos cs k o Hrun.
  - inversion Hbody; subst. cbn [Re.run] in Hrun.
    destruct s; [eauto | discriminate].
  - rewrite !Str_app_cons in Hbody. cbn [RegExp_source] in Hbody. rewrite Hc in Hbody.
    destruct (RegExp_source (src +:+ "$") n) as [body'|] eqn:E; [|discriminate].
    inversion Hbody; subst. cbn [Re.run] in Hrun.
    destruct s as [|x s]; [discriminate|].
    destruct (Re.char_eq false c x); [|discriminate].
    eapply IH; eauto.
  - rewrite Str_app_cons, (RegExp_source_plain c _ n Hc) in Hbody.
    destruct (RegExp_source (src +:+ "$") n) as [body'|] eqn:E; [|discriminate].
    inversion Hbody; subst. cbn [Re.run] in Hrun.
    destruct s as [|x s]; [discriminate|].
    destruct (Re.char_eq false c x); [|discriminate].
    eapply IH; eauto.
  - change (("(.+)" +:+ src) +:+ "$")
      with (String "(" (String "." (String "+" (String ")" (src +:+ "$"))))) in Hbody.
    cbn [RegExp_source] in Hbody.
    destruct (RegExp_source (src +:+ "$") (S n)) as [body'|] eqn:E; [|discriminate].
    inversion Hbody; subst.
    change (Re.run false (Re.Seq (Re.Group n (Re.Plus true Re.Dot)) body') s pos cs k)
      with (Re.run false (Re.Group n (Re.Plus true Re.Dot)) s pos cs
              (fun s' pos' cs' => Re.run false body' s' pos' cs' k)) in Hrun.
    apply run_sound in Hrun as (m & cs' & _ & Hrun). cbv beta in Hrun.
    eapply IH; eauto.
Qed.

(** A match of the pattern built from a format covers the whole basename. *)
Lemma pattern_match_whole format regex basename m :
  RegExp_new ("^" +:+ filename_pattern format +:+ "$") = Some regex ->
  Re.exec regex basename = Some m ->
  Re.m_index m = 0 /\ Re.m_text m = basename.
Proof.
  unfold RegExp_new. rewrite Str_app_cons, Str_app_empty_l. cbn [RegExp_source].
  destruct (RegExp_source (filename_pattern format +:+ "$") 1) as [body|] eqn:E; [|discriminate].
  intros Hre Hexec. inversion Hre; subst; clear Hre.
  apply exec_Bol in Hexec. unfold Re.attempt in Hexec.
  cbn [Re.re_body Re.re_icase Re.run Nat.eqb] in Hexec.
  destruct (Re.run false body basename 0 [] _) as [[[e cs] after]|] eqn:Hrun; [|discriminate].
  inversion Hexec; subst; clear Hexec. cbn [Re.m_index Re.m_text]. split; [reflexivity|].
  pose proof Hrun as Hrun'.
  apply run_sound in Hrun as (n & cs1 & Hn & Hk). inversion Hk; subst.
  apply (RegExp_source_anchored _ (filename_pattern_ok format) _ _ E) in Hrun'
    as (pos' & cs2 & Hend).
  injection Hend as _ _ Hafter. clear Hk.
  rewrite Nat.sub_0_r.
  transitivity (Str.take e basename +:+ Str.drop e basename); [|apply Str_take_drop].
  rewrite <- Hafter. symmetry. apply Str_app_empty_r.
Qed.

(** * Captures *)

(** A run of a pattern without groups hands the captures on as they were. *)
Lemma iterate_keeps_captures g step k :
  (forall s pos cs k' o, step s pos cs k' = Some o ->
     exists n, n <= String.length s /\ k' (Str.drop n s) (pos + n) cs = Some o) ->
  forall rounds s pos cs o,
    Re.iterate g step k rounds s pos cs = Some o ->
    exists n, n <= String.length s /\ k (Str.drop n s) (pos + n) cs = Some o.
Proof.
  intros Hstep. induction rounds as [|rounds IH]; intros s pos cs o H; simpl in H.
  - exists 0. rewrite Str_drop_0, Nat.add_0_r. split; [lia | assumption].
  - assert (Hagain : forall o',
      step s pos cs
        (fun s' pos' cs' =>
           if (pos <? pos')%nat then Re.iterate g step k rounds s' pos' cs' else None)
      = Some o' ->
      exists n, n <= String.length s /\ k (Str.drop n s) (pos + n) cs = Some o').
    { intros o' H'. apply Hstep in H' as (n1 & Hn1 & H'). cbv beta in H'.
      destruct (pos <? pos + n1)%nat; [|discriminate].
      apply IH in H' as (n2 & Hn2 & H').
      exists (n1 + n2). rewrite Str_length_drop in Hn2.
      rewrite Str_drop_drop, <- Nat.add_assoc in H'. split; [lia | assumption]. }
    destruct g.
    + match type of H with match ?X with _ => _ end = _ => destruct X eqn:E end.
      * inversion H; subst. apply Hagain; assumption.
      * exists 0. rewrite Str_drop_0, Nat.add_0_r. split; [lia | assumption].
    + destruct (k s pos cs) eqn:E.
      * inversion H; subst. exists 0. rewrite Str_drop_0, Nat.add_0_r. split; [lia | assumption].
      * apply Hagain; assumption.
Qed.

Lemma run_keeps_captures icase r : group_free r = true ->
  forall s pos cs k o,
    Re.run icase r s pos cs k = Some o ->
    exists n, min_length r <= n <= String.length s
      /\ k (Str.drop n s) (pos + n) cs = Some o.
Proof.
  induction r as [ | c | p | r1 IH1 r2 IH2 | r1 IH1 r2 IH2 | g r1 IH1 | g r1 IH1 | r1 IH1 | | ];
    intros Hfree s pos cs k o H; cbn [Re.run] in H; cbn [min_length group_free] in *;
    try (apply andb_true_iff in Hfree as [Hfree1 Hfree2]).
  - exists 0. rewrite Str_drop_0, Nat.add_0_r. split; [lia | assumption].
  - destruct s as [|x s]; [discriminate|].
    destruct (Re.char_eq icase c x); [|discriminate].
    exists 1. cbn. rewrite ?Str_drop_0, Nat.add_1_r. split; [lia | assumption].
  - destruct s as [|x s]; [discriminate|].
    destruct (p x); [|discriminate].
    exists 1. cbn. rewrite ?Str_drop_0, Nat.add_1_r. split; [lia | assumption].
  - apply (IH1 Hfree1) in H as (n1 & Hn1 & H). cbv beta in H.
    apply (IH2 Hfree2) in H as (n2 & Hn2 & H).
    exists (n1 + n2). rewrite Str_length_drop in Hn2.
    rewrite Str_drop_drop, <- Nat.add_assoc in H. split; [lia | assumption].
  - destruct (Re.run icase r1 s pos cs k) eqn:E1.
    + inversion H; subst. apply (IH1 Hfree1) in E1 as (n & Hn & E1).
      exists n. split; [lia | assumption].
    + apply (IH2 Hfree2) in H as (n & Hn & H). exists n. split; [lia | assumption].
  - apply iterate_keeps_captures in H as (n & Hn & H).
    + exists n. split; [lia | assumption].
    + intros s' pos' cs' k' o' H'. apply (IH1 Hfree) in H' as (n & Hn & H').
      exists n. split; [lia | assumption].
  - discriminate.
  - match type of H with match ?X with _ => _ end = _ => destruct X as [[[e cs'] rest]|] eqn:E end;
      [|discriminate].
    apply (IH1 Hfree) in E as (n & Hn & E). inversion E; subst.
    exists 0. rewrite Str_drop_0, Nat.add_0_r. split; [lia | assumption].
  - destruct (pos =? 0)%nat; [|discriminate].
    exists 0. rewrite Str_drop_0, Nat.add_0_r. split; [lia | assumption].
  - destruct s; [|discriminate].
    exists 0. rewrite Nat.add_0_r. split; [simpl; lia | assumption].
Qed.

(** A group around a pattern without groups records what the pattern read. *)
Lemma run_Group icase g r rest s pos cs k o :
  group_free r = true ->
  Re.run icase (Re.Seq (Re.Group g r) rest) s pos cs k = Some o ->
  exists n, min_length r <= n <= String.length s
    /\ Re.run icase rest (Str.drop n s) (pos + n) ((g, Str.take n s) :: cs) k = Some o.
Proof.
  intros Hfree H. cbn [Re.run] in H.
  apply (run_keeps_captures _ _ Hfree) in H as (n & Hn & H). cbv beta in H.
  exists n. split; [assumption|].
  replace (pos + n - pos) with n in H by lia. exact H.
Qed.

Lemma run_Chr c rest s pos cs k o :
  Re.run false (Re.Seq (Re.Chr c) rest) s pos cs k = Some o ->
  exists s', s = String c s' /\ Re.run false rest s' (S pos) cs k = Some o.
Proof.
  cbn [Re.run Re.char_eq]. destruct s as [|x s]; [discriminate|].
  destruct (Ascii.eqb c x) eqn:E; [|discriminate].
  apply Ascii.eqb_eq in E. subst x. eauto.
Qed.

(** With the default format, a parse that finds an author splits the
    basename at an occurrence of " by ". *)
Lemma default_format_splits settings filename title author :
  parseTitleAndAuthor (with_filenameFormat settings "{{title}} by {{author}}") filename
  = Normal {| ta_title := title; ta_author := Some author |} ->
  basename_of filename = title +:+ " by " +:+ author
  /\ title <> EmptyString /\ author <> EmptyString.
Proof.
  unfold parseTitleAndAuthor.
  change (effective_format (with_filenameFormat settings "{{title}} by {{author}}"))
    with "{{title}} by {{author}}".
  change (RegExp_new ("^" +:+ filename_pattern "{{title}} by {{author}}" +:+ "$"))
    with (Some (Re.RegExp
                  (Re.Seq Re.Bol
                     (Re.Seq (Re.Group 1 (Re.Plus true Re.Dot))
                        (Re.Seq (Re.Chr " ") (Re.Seq (Re.Chr "b") (Re.Seq (Re.Chr "y")
                           (Re.Seq (Re.Chr " ")
                              (Re.Seq (Re.Group 2 (Re.Plus true Re.Dot))
                                 (Re.Seq Re.Eol Re.Eps)))))))) false)).
  change (Str.indexOf "{{title}}" "{{title}} by {{author}}") with (Some 0).
  change (Str.indexOf "{{author}}" "{{title}} by {{author}}") with (Some 13).
  cbn [Nat.ltb Nat.leb].
  generalize (basename_of filename) as s. intros s.
  destruct (Re.exec _ s) as [m|] eqn:Hexec; [|discriminate].
  intros H. injection H as <- <-.
  apply exec_Bol in Hexec. unfold Re.attempt in Hexec.
  cbn [Re.re_body Re.re_icase] in Hexec.
  match type of Hexec with
  | match ?X with _ => _ end = _ => destruct X as [[[e cs] after]|] eqn:Hrun; [|discriminate]
  end.
  injection Hexec as <-. unfold group_text, Re.m_group. cbn [Re.m_caps].
  change (Re.run false (Re.Seq Re.Bol ?r) s 0 [] ?k) with (Re.run false r s 0 [] k) in Hrun.
  apply run_Group in Hrun as (n1 & Hn1 & Hrun); [|reflexivity].
  apply run_Chr in Hrun as (s1 & Hs1 & Hrun).
  apply run_Chr in Hrun as (s2 & Hs2 & Hrun).
  apply run_Chr in Hrun as (s3 & Hs3 & Hrun).
  apply run_Chr in Hrun as (s4 & Hs4 & Hrun).
  apply run_Group in Hrun as (n2 & Hn2 & Hrun); [|reflexivity].
  cbn [Re.run] in Hrun.
  destruct (Str.drop n2 s4) eqn:Hend; [|discriminate].
  injection Hrun as _ <- _. cbn [Re.cap Nat.eqb default from_option id].
  change (min_length (Re.Plus true Re.Dot)) with 1 in *.
  assert (Hauthor : Str.take n2 s4 = s4).
  { rewrite <- (Str_take_drop n2 s4) at 2. rewrite Hend. symmetry. apply Str_app_empty_r. }
  rewrite Hauthor. split; [|split].
  - rewrite <- (Str_take_drop n1 s) at 1. rewrite Hs1. subst s1 s2 s3. reflexivity.
  - destruct n1; [lia|]. destruct s; [simpl in Hn1; lia | discriminate].
  - destruct n2; [lia|]. destruct s4; [simpl in Hn2; lia | discriminate].
Qed.

(** * The claims about extraction and parsing *)

(** C7. Every highlight returned by extractHighlights has a non-empty text:
    the extractor always returns, each highlight of the list it returns has
    text, and a callout whose text is empty once the sub-fields, the prefix
    and the suffix are stripped and the rest trimmed adds no highlight. *)
Theorem extractHighlights_text_nonempty
    (settings : BookHighlightsPluginSettings) (content filePath : string)
    (frontmatter : jsval) :
  (exists highlights,
     extractHighlights settings content filePath frontmatter = Normal highlights
     /\ Forall (fun h => text h <> EmptyString) highlights)
  /\ (forall parsed m,
        f_text (callout_fields (group_text m 2)) = EmptyString ->
        highlight_of_match filePath frontmatter parsed m = None)
  /\ extractHighlights settings (Examples.callout_of Examples.metadata_only_lines)
       filePath frontmatter = Normal [].
Proof.
  split; [|split].
  - destruct (extractHighlights_total settings content filePath frontmatter) as [hs Hhs].
    exists hs. split; [assumption|].
    unfold extractHighlights in Hhs.
    destruct (parseTitleAndAuthor settings (Str.after_last "/" filePath)) as [parsed|];
      [|discriminate].
    destruct (callout_loop _ _ _ _ _ _ _) as [result|] eqn:E; [|discriminate].
    inversion Hhs; subst. eapply callout_loop_text; [|exact E]. constructor.
  - intros parsed m H. unfold highlight_of_match. rewrite H. reflexivity.
  - unfold extractHighlights.
    destruct (parseTitleAndAuthor_total settings (Str.after_last "/" filePath)) as [parsed ->].
    vm_compute. reflexivity.
Qed.

(** C1, as the code has it. For every callout, the sub-field rules run in
    the order date, page, location, comment; each is matched against the
    cleaned callout content as a whole, not against the text left by the
    rules before it; a rule that matches sets its field to the trimmed
    capture and removes the first occurrence of its pattern from the working
    text, which is trimmed; then the 'Link: ' prefix and the '^ref-digits'
    suffix are stripped and the text trimmed. In particular the block of
    'Highlighted: 2023-01-01', 'Page: 42', 'My Comments: great quote' and
    'Link: Some text ^ref-1234', its lines in any order, yields one highlight
    with date 2023-01-01, page 42, comment 'great quote', text 'Some text'. *)
Theorem callout_fields_by_rounds (body : string) :
  let c := clean_callout body in
  callout_fields body =
    {| f_date := captured Patterns.highlighted c;
       f_page := captured Patterns.page_number c;
       f_location := captured Patterns.location_number c;
       f_text :=
         clean_text
           (stripped Patterns.my_comments c
              (stripped Patterns.location_number c
                 (stripped Patterns.page_number c
                    (stripped Patterns.highlighted c c))));
       f_comment := captured Patterns.my_comments c |}
  /\ Forall
       (fun lines =>
          extractHighlights DEFAULT_SETTINGS (Examples.callout_of lines) "Dune.md" (VObj ∅)
          = Normal [Examples.spec_highlight])
       (permutations Examples.spec_lines).
Proof.
  split.
  - unfold callout_fields, extract_fields, captured, stripped.
    cbn [fold_left metadataPatterns]. unfold apply_pattern, initial_fields.
    destruct (Re.exec Patterns.highlighted (clean_callout body));
      destruct (Re.exec Patterns.page_number (clean_callout body));
      destruct (Re.exec Patterns.location_number (clean_callout body));
      destruct (Re.exec Patterns.my_comments (clean_callout body)); reflexivity.
  - apply List.Forall_forall. intros lines Hin. vm_compute in Hin.
    repeat (destruct Hin as [<-|Hin]; [vm_compute; reflexivity|]).
    contradiction.
Qed.

(** C1, the counterexample. In the block 'Highlighted: Page: 5' / 'foo' the
    date rule claims 'Page: 5'; the page rule still reads it and sets the
    page to 5, where rules tried on the working text would leave the page
    empty. *)
Lemma later_rule_reads_claimed_text :
  let c := Str.join Str.nl Examples.contested_lines in
  f_date (extract_fields c) = "Page: 5"
  /\ f_text (extract_fields c) = "foo"
  /\ f_page (extract_fields c) = "5"
  /\ f_page (Spec.extract_fields c) = EmptyString
  /\ exists h,
       extractHighlights DEFAULT_SETTINGS (Examples.callout_of Examples.contested_lines)
         "Dune.md" (VObj ∅) = Normal [h]
       /\ date h = "Page: 5" /\ page h = "5".
Proof.
  cbv zeta. repeat split; try (vm_compute; reflexivity).
  exists {| bookTitle := VStr "Dune"; author := VNull; date := "Page: 5"; page := "5";
            location := EmptyString; text := "foo"; comment := EmptyString;
            sourceFile := "Dune.md" |}.
  repeat split.
Qed.

(** C3. For every filename and every format: the extension .md, .markdown
    or .txt is stripped whatever its case; the pattern is the format with its
    syntax characters escaped and each placeholder replaced by the group
    (.+), between ^ and $, and new RegExp accepts it; a match covers the
    whole basename; with both placeholders the captures go to title and
    author by which placeholder comes first in the format; with {{title}}
    only, or with {{author}} only, the single capture is the title and there
    is no author; without a match the title is the basename and there is no
    author.  With the format '{{title}} by {{author}}' a parse that finds an
    author splits the basename at an occurrence of ' by '. *)
Theorem parseTitleAndAuthor_cases
    (settings : BookHighlightsPluginSettings) (filename : string) :
  let basename := basename_of filename in
  let format := effective_format settings in
  let result := parseTitleAndAuthor settings filename in
  (exists regex,
     RegExp_new ("^" +:+ filename_pattern format +:+ "$") = Some regex
     /\ filename_pattern format
        = Re.replace_all Patterns.author_placeholder (fun _ => "(.+)")
            (Re.replace_all Patterns.title_placeholder (fun _ => "(.+)")
               (escape_units format))
     /\ (forall m, Re.exec regex basename = Some m ->
           Re.m_index m = 0 /\ Re.m_text m = basename)
     /\ (Re.exec regex basename = None ->
           result = Normal {| ta_title := basename; ta_author := None |})
     /\ (forall m ti ai,
           Re.exec regex basename = Some m ->
           Str.indexOf "{{title}}" format = Some ti ->
           Str.indexOf "{{author}}" format = Some ai ->
           (ti < ai ->
              result = Normal {| ta_title := group_text m 1;
                                 ta_author := Some (group_text m 2) |})
           /\ (ai <= ti ->
                 result = Normal {| ta_title := group_text m 2;
                                    ta_author := Some (group_text m 1) |}))
     /\ (forall m ti,
           Re.exec regex basename = Some m ->
           Str.indexOf "{{title}}" format = Some ti ->
           Str.indexOf "{{author}}" format = None ->
           result = Normal {| ta_title := group_text m 1; ta_author := None |})
     /\ (forall m ai,
           Re.exec regex basename = Some m ->
           Str.indexOf "{{title}}" format = None ->
           Str.indexOf "{{author}}" format = Some ai ->
           result = Normal {| ta_title := group_text m 1; ta_author := None |}))
  /\ RegExp_new ("^" +:+ filename_pattern "{{title}} by {{author}}" +:+ "$")
     = Some (Re.RegExp
               (Re.Cat [Re.Bol; Re.Group 1 (Re.Plus true Re.Dot);
                        Re.Chr " "; Re.Chr "b"; Re.Chr "y"; Re.Chr " ";
                        Re.Group 2 (Re.Plus true Re.Dot); Re.Eol]) false)
  /\ (forall title author,
        parseTitleAndAuthor (with_filenameFormat settings "{{title}} by {{author}}") filename
        = Normal {| ta_title := title; ta_author := Some author |} ->
        basename = title +:+ " by " +:+ author
        /\ title <> EmptyString /\ author <> EmptyString)
  /\ parseTitleAndAuthor (with_filenameFormat settings "{{title}} by {{author}}")
       "Dune by Frank Herbert.md"
     = Normal {| ta_title := "Dune"; ta_author := Some "Frank Herbert" |}
  /\ parseTitleAndAuthor (with_filenameFormat settings "{{title}}") "Notes.md"
     = Normal {| ta_title := "Notes"; ta_author := None |}
  /\ parseTitleAndAuthor (with_filenameFormat settings "{{author}}") "Frank Herbert.md"
     = Normal {| ta_title := "Frank Herbert"; ta_author := None |}
  /\ parseTitleAndAuthor (with_filenameFormat settings "{{title}} by {{author}}")
       "Notes.md"
     = Normal {| ta_title := "Notes"; ta_author := None |}
  /\ basename_of "Dune.MD" = "Dune" /\ basename_of "Dune.Markdown" = "Dune"
  /\ basename_of "Dune.txt" = "Dune" /\ basename_of "Dune.pdf" = "Dune.pdf".
Proof.
  intros basename format result.
  split; [|split; [reflexivity|split; [apply default_format_splits|repeat split; reflexivity]]].
  destruct (RegExp_new_pattern format) as [regex Hregex].
  exists regex. split; [assumption|].
  split; [unfold filename_pattern; rewrite escape_special_units; reflexivity|].
  split; [intros m Hm; eapply pattern_match_whole; eassumption|].
  subst result. unfold parseTitleAndAuthor. fold basename format. rewrite Hregex.
  split; [intros ->; reflexivity|].
  split; [|split].
  - intros m ti ai -> -> ->. split; intros Hlt.
    + apply Nat.ltb_lt in Hlt. rewrite Hlt. reflexivity.
    + apply Nat.ltb_ge in Hlt. rewrite Hlt. reflexivity.
  - intros m ti -> -> ->. reflexivity.
  - intros m ai -> -> ->. reflexivity.
Qed.

(** * Frontmatter *)

(** A match of the frontmatter pattern: the text starts with the delimiter
    and a newline, and the first capture is followed by a newline and the
    delimiter. *)
Lemma frontmatter_match content m :
  Re.exec Patterns.frontmatter content = Some m ->
  content = "---" +:+ Str.nl +:+ group_text m 1 +:+ Str.nl +:+ "---" +:+ Re.m_after m.
Proof.
  intros H. apply exec_Bol in H. unfold Re.attempt in H.
  destruct (Re.run _ _ _ _ _ _) as [[[e cs] after]|] eqn:E; [|discriminate].
  inversion H; subst; clear H. unfold group_text, Re.m_group. cbn [Re.m_caps Re.m_after].
  cbn [Patterns.frontmatter Re.re_body Re.re_icase Re.Cat Re.run Nat.eqb] in E.
  rewrite run_Lit in E.
  destruct (Str.startsWith "---" content) eqn:Hstart; [|discriminate].
  apply startsWith_split in Hstart.
  destruct (Str.drop (String.length "---") content) as [|x s1] eqn:Hs1; [discriminate|].
  cbn [Re.char_eq] in E.
  destruct (Ascii.eqb Chars.newline x) eqn:Hx; [|discriminate].
  apply Ascii.eqb_eq in Hx. subst x.
  apply iterate_sound in E; [|intros; eapply hands_on_weaken; [|eapply run_sound; eassumption]; lia].
  destruct E as (n & cs1 & Hn & E).
  destruct (Str.drop n s1) as [|y s2] eqn:Hs2; [discriminate|].
  destruct (Ascii.eqb Chars.newline y) eqn:Hy; [|discriminate].
  apply Ascii.eqb_eq in Hy. subst y.
  rewrite run_Lit in E.
  destruct (Str.startsWith "---" s2) eqn:Hstart2; [|discriminate].
  apply startsWith_split in Hstart2.
  injection E as _ <- <-. cbn [Re.cap Nat.eqb default id].
  enough (content = "---" +:+ Str.nl +:+ Str.take n s1 +:+ Str.nl +:+ "---" +:+ Str.drop 3 s2)
    as Hgoal by (rewrite ?Nat.sub_0_r; exact Hgoal).
  change (Str.drop (String.length "---") s2) with (Str.drop 3 s2) in *.
  rewrite <- Hstart2. rewrite Hstart at 1. rewrite <- (Str_take_drop n s1) at 1. rewrite Hs2.
  unfold Str.nl. rewrite !Str_app_cons, !Str_app_empty_l. reflexivity.
Qed.

(** C6, as the code has it. extractFrontmatter never throws, being a total
    function into "a mapping or null". It returns null for every text that
    is not the delimiter, a newline, a block, a newline and the delimiter
    again followed by anything (the closing delimiter need only begin its
    line), and null as well when js-yaml throws on the block; null is not the
    empty mapping, which an empty block gives. *)
Theorem extractFrontmatter_null
    (yaml_load : string -> completion (option jsval)) (content : string) :
  ((forall block rest,
      content <> "---" +:+ Str.nl +:+ block +:+ Str.nl +:+ "---" +:+ rest) ->
   extractFrontmatter yaml_load content = None)
  /\ (forall m,
        Re.exec Patterns.frontmatter content = Some m ->
        yaml_load (group_text m 1) = Throw ->
        extractFrontmatter yaml_load content = None)
  /\ (forall frontmatter,
        extractFrontmatter yaml_load content = Some frontmatter ->
        exists block rest loaded,
          content = "---" +:+ Str.nl +:+ block +:+ Str.nl +:+ "---" +:+ rest
          /\ yaml_load block = Normal loaded)
  /\ extractFrontmatter Sample.yaml_load "# Dune, no properties" = None
  /\ extractFrontmatter Sample.yaml_load (Examples.document ["not a mapping"] []) = None
  /\ extractFrontmatter Sample.yaml_load (Examples.document [EmptyString] []) = Some (VObj ∅).
Proof.
  assert (Hinv : forall frontmatter,
            extractFrontmatter yaml_load content = Some frontmatter ->
            exists block rest loaded,
              content = "---" +:+ Str.nl +:+ block +:+ Str.nl +:+ "---" +:+ rest
              /\ yaml_load block = Normal loaded).
  { unfold extractFrontmatter. intros frontmatter H.
    destruct (Re.exec Patterns.frontmatter content) as [m|] eqn:E; [|discriminate].
    destruct (yaml_load (group_text m 1)) as [loaded|] eqn:El; [|discriminate].
    exists (group_text m 1), (Re.m_after m), loaded.
    split; [apply frontmatter_match; assumption | assumption]. }
  split; [|split; [|split; [exact Hinv|]]].
  - intros Hno. destruct (extractFrontmatter yaml_load content) as [fm|] eqn:E; [|reflexivity].
    destruct (Hinv fm eq_refl) as (block & rest & loaded & Hc & _).
    exfalso. exact (Hno block rest Hc).
  - intros m Hm Hthrow. unfold extractFrontmatter. rewrite Hm, Hthrow. reflexivity.
  - repeat split; vm_compute; reflexivity.
Qed.

(** C6, the counterexample. A note whose block is closed by the line
    '---- end of properties' does not begin with a delimiter pair as the
    specification words it, and still gets its mapping. *)
Lemma frontmatter_without_closing_line :
  Spec.begins_with_delimiter_pair Examples.rule_after_block = false
  /\ extractFrontmatter Sample.yaml_load Examples.rule_after_block
     = Some (VObj {[ "title" := VStr "Dune" ]}).
Proof. split; vm_compute; reflexivity. Qed.

(** * The frontmatter filter *)

Lemma not_empty_is_empty s : s <> EmptyString -> Str.is_empty s = false.
Proof. destruct s; [congruence | reflexivity]. Qed.

Lemma answers_false_cons x items filterValue :
  same_trimmed x filterValue = Normal false ->
  forall answer, first_decides items filterValue answer ->
                 first_decides (x :: items) filterValue answer.
Proof.
  intros Hx answer (before & item & after & -> & Hb & Hi).
  exists (x :: before), item, after. split; [reflexivity|].
  split; [constructor; assumption | exact Hi].
Qed.

(** What [some] returns, by the first element that decides it. *)
Lemma some_same_trimmed_spec filterValue : forall items,
  match some_same_trimmed items filterValue with
  | Normal false => Forall (fun x => same_trimmed x filterValue = Normal false) items
  | answer => first_decides items filterValue answer
  end.
Proof.
  induction items as [|x items IH]; cbn [some_same_trimmed]; [constructor|].
  destruct (same_trimmed x filterValue) as [[|]|] eqn:Hx.
  - exists [], x, items. split; [reflexivity|]. split; [constructor | exact Hx].
  - destruct (some_same_trimmed items filterValue) as [[|]|].
    + apply answers_false_cons; assumption.
    + constructor; assumption.
    + apply answers_false_cons; assumption.
  - exists [], x, items. split; [reflexivity|]. split; [constructor | exact Hx].
Qed.

Lemma first_decides_unique items filterValue answer :
  first_decides items filterValue answer -> answer <> Normal false ->
  some_same_trimmed items filterValue = answer.
Proof.
  intros (before & item & after & -> & Hb & Hi) Hne.
  induction Hb as [|x before Hx _ IH]; cbn [app some_same_trimmed].
  - rewrite Hi. destruct answer as [[|]|]; [reflexivity | congruence | reflexivity].
  - rewrite Hx. exact IH.
Qed.

Lemma some_same_trimmed_iff items filterValue answer :
  answer <> Normal false ->
  (some_same_trimmed items filterValue = answer <-> first_decides items filterValue answer).
Proof.
  intros Hne. split.
  - intros H. pose proof (some_same_trimmed_spec filterValue items) as Hs.
    rewrite H in Hs. destruct answer as [[|]|]; [exact Hs | congruence | exact Hs].
  - intros H. apply first_decides_unique; assumption.
Qed.

(** When the conversion of no element throws, [some] is the test of
    whether one of them, trimmed, is the trimmed target. *)
Lemma some_same_trimmed_total items filterValue :
  Forall (fun item => JS_String item <> Throw) items ->
  exists b,
    some_same_trimmed items filterValue = Normal b
    /\ (b = true <->
        exists item s, In item items /\ JS_String item = Normal s
                       /\ Str.trim s = Str.trim filterValue).
Proof.
  induction 1 as [|x items Hx _ (b & Hb & Hiff)]; cbn [some_same_trimmed].
  - exists false. split; [reflexivity|]. split; [discriminate|].
    intros (item & s & [] & _).
  - unfold same_trimmed at 1. destruct (JS_String x) as [sx|] eqn:Ex; [|congruence].
    destruct (String.eqb (Str.trim sx) (Str.trim filterValue)) eqn:Eq.
    + exists true. split; [reflexivity|]. split; [|reflexivity]. intros _.
      exists x, sx. split; [left; reflexivity|]. split; [exact Ex|].
      apply String.eqb_eq. exact Eq.
    + exists b. split; [exact Hb|]. rewrite Hiff. split.
      * intros (item & s & Hin & Hs & Ht). exists item, s. split; [right; exact Hin | auto].
      * intros (item & s & [<-|Hin] & Hs & Ht).
        -- rewrite Ex in Hs. injection Hs as <-. apply String.eqb_eq in Ht. congruence.
        -- exists item, s. auto.
Qed.

(** X20. What the filter of refreshHighlights answers for a mapping, under a
    non-empty property name and a non-empty target.  For a property the
    mapping does not have, the answer is that of what the mapping inherits:
    false when it inherits nothing of the name, the comparison of the text
    of a built-in otherwise.  For a list the elements are asked in order:
    true at the first whose string form, trimmed, is the trimmed target,
    and an error when the conversion of an element before it throws.  For
    a string that JSON.parse turns into an array the same test is made of
    the array, an error of it being answered by the comparison of the
    string itself; any other string, and null, a boolean or a number, is
    compared by its trimmed string form.  A mapping is compared as
    '[object Object]', and its conversion throws when it has a key
    'toString'. *)
Theorem passes_filter_cases
    (JSON_parse : string -> completion jsval)
    (prototype_get : jsval -> string -> property)
    (settings : BookHighlightsPluginSettings) (frontmatter : gmap string jsval) :
  filterProperty settings <> EmptyString ->
  filterValue settings <> EmptyString ->
  let passes := passes_filter JSON_parse prototype_get settings (VObj frontmatter) in
  let value := frontmatter !! filterProperty settings in
  let inherited := prototype_get (VObj frontmatter) (filterProperty settings) in
  let target := Str.trim (filterValue settings) in
  (value = None ->
   (inherited = Undefined -> passes = Normal false)
   /\ (forall text, inherited = Builtin text ->
         passes = Normal (String.eqb (Str.trim text) target)))
  /\ (forall items, value = Some (VArr items) ->
        (passes = Normal true <-> first_decides items (filterValue settings) (Normal true))
        /\ (passes = Throw <-> first_decides items (filterValue settings) Throw)
        /\ (Forall (fun item => JS_String item <> Throw) items ->
            exists b,
              passes = Normal b
              /\ (b = true <->
                  exists item s, In item items /\ JS_String item = Normal s
                                 /\ Str.trim s = target)))
  /\ (forall s parsedArray,
        value = Some (VStr s) -> JSON_parse s = Normal (VArr parsedArray) ->
        passes <> Throw
        /\ (passes = Normal true <->
            first_decides parsedArray (filterValue settings) (Normal true)
            \/ (first_decides parsedArray (filterValue settings) Throw
                /\ Str.trim s = target)))
  /\ (forall s,
        value = Some (VStr s) ->
        (forall parsedArray, JSON_parse s <> Normal (VArr parsedArray)) ->
        passes = Normal (String.eqb (Str.trim s) target))
  /\ (forall scalar,
        value = Some scalar ->
        (scalar = VNull \/ (exists b, scalar = VBool b) \/ (exists repr, scalar = VNum repr)) ->
        exists s, JS_String scalar = Normal s
                  /\ passes = Normal (String.eqb (Str.trim s) target))
  /\ (forall fields, value = Some (VObj fields) ->
        (fields !! "toString" = None ->
         passes = Normal (String.eqb "[object Object]" target))
        /\ (fields !! "toString" <> None -> passes = Throw)).
Proof.
  intros Hp Hv passes value inherited target.
  assert (Hpasses : passes
                    = property_matches JSON_parse
                        match value with Some x => Data x | None => inherited end
                        (filterValue settings)).
  { subst passes value inherited. unfold passes_filter.
    rewrite (not_empty_is_empty _ Hp), (not_empty_is_empty _ Hv). reflexivity. }
  rewrite Hpasses. subst target. clear Hpasses.
  split; [intros ->; split; [intros ->; reflexivity | intros text ->; reflexivity]|].
  split.
  { intros items ->. cbn [property_matches].
    split; [apply some_same_trimmed_iff; discriminate|].
    split; [apply some_same_trimmed_iff; discriminate|].
    apply some_same_trimmed_total. }
  split.
  { intros s parsedArray -> Hparse. cbn [property_matches]. rewrite Hparse.
    pose proof (some_same_trimmed_iff parsedArray (filterValue settings) (Normal true)
                  ltac:(discriminate)) as Htrue.
    pose proof (some_same_trimmed_iff parsedArray (filterValue settings) Throw
                  ltac:(discriminate)) as Hthrow.
    destruct (some_same_trimmed parsedArray (filterValue settings)) as [[|]|].
    - split; [discriminate|]. split; [intros _; left; apply Htrue; reflexivity | reflexivity].
    - split; [discriminate|]. split; [discriminate|].
      intros [H | [H _]]; [apply Htrue in H | apply Hthrow in H]; discriminate H.
    - unfold same_trimmed. cbn [JS_String]. split; [discriminate|]. split.
      + intros H. right. split; [apply Hthrow; reflexivity|].
        injection H as H. apply String.eqb_eq. exact H.
      + intros [H | [_ H]]; [apply Htrue in H; discriminate H|].
        apply String.eqb_eq in H. rewrite H. reflexivity. }
  split.
  { intros s -> Hnot. cbn [property_matches].
    destruct (JSON_parse s) as [[| | | |parsed|]|] eqn:E; try reflexivity.
    exfalso. exact (Hnot parsed eq_refl). }
  split.
  { intros scalar -> [->|[[b ->]|[repr ->]]]; cbn [property_matches]; unfold same_trimmed.
    - exists "null". split; reflexivity.
    - destruct b; eexists; split; reflexivity.
    - exists repr. split; reflexivity. }
  intros fields ->. cbn [property_matches]. unfold same_trimmed. cbn [JS_String].
  destruct (fields !! "toString"); split; try reflexivity; try congruence; discriminate.
Qed.

(** The filter at the default settings, for a parser of JSON arrays and the
    prototype of mappings: the examples of the property 'subtopic'. *)
Lemma passes_filter_cases_subtopic :
  passes_filter Sample.JSON_parse Sample.prototype_get DEFAULT_SETTINGS
    (VObj {[ "subtopic" := VArr [VStr "Book Highlights"; VStr "Fiction"] ]}) = Normal true
  /\ passes_filter Sample.JSON_parse Sample.prototype_get DEFAULT_SETTINGS
       (VObj {[ "subtopic" := VStr ("[" +:+ Sample.quote "Other" +:+ "]") ]}) = Normal false
  /\ passes_filter Sample.JSON_parse Sample.prototype_get DEFAULT_SETTINGS
       (VObj {[ "title" := VStr "Dune" ]}) = Normal false.
Proof.
  pose proof (passes_filter_cases Sample.JSON_parse Sample.prototype_get DEFAULT_SETTINGS
                {[ "title" := VStr "Dune" ]}) as H.
  cbv zeta in H.
  destruct H as (Habsent & _); [discriminate | discriminate |].
  split; [vm_compute; reflexivity|]. split; [vm_compute; reflexivity|].
  apply Habsent; reflexivity.
Defined.

(** C2, at the failing inputs.  The mapping of the note 'title: Dune' has
    no property 'constructor', and passes the filter set on that property
    when the target is the text of the function every mapping inherits
    under this name.  A list whose second element is the target, behind a
    mapping with a key 'toString', makes the filter throw; so does a
    property that is such a mapping, and the note is then left out with an
    error on the console. *)
Lemma passes_filter_divergence :
  ({[ "title" := VStr "Dune" ]} : gmap string jsval) !! "constructor" = None
  /\ passes_filter Sample.JSON_parse Sample.prototype_get
       (with_filter DEFAULT_SETTINGS "constructor" "function Object() { [native code] }")
       (VObj {[ "title" := VStr "Dune" ]}) = Normal true
  /\ passes_filter Sample.JSON_parse Sample.prototype_get DEFAULT_SETTINGS
       (VObj {[ "subtopic" :=
                  VArr [VObj {[ "toString" := VStr "x" ]}; VStr "Book Highlights"] ]})
     = Throw
  /\ extractFrontmatter Sample.yaml_load Examples.odd_property_note
     = Some (VObj {[ "subtopic" := VObj {[ "toString" := VStr "x" ]} ]})
  /\ process_file Sample.yaml_load Sample.JSON_parse Sample.prototype_get
       Examples.odd_vault_read DEFAULT_SETTINGS "note.md" []
     = (Next, [], [ErrorProcessing "note.md"]).
Proof. repeat split; vm_compute; reflexivity. Qed.

(** * The scan of refreshHighlights *)

Section Scan.

Variable yaml_load : string -> completion (option jsval).
Variable JSON_parse : string -> completion jsval.
Variable prototype_get : jsval -> string -> property.
Variable vault_read : string -> completion string.

Local Abbreviation process_file' := (process_file yaml_load JSON_parse prototype_get vault_read).
Local Abbreviation scan' := (scan yaml_load JSON_parse prototype_get vault_read).
Local Abbreviation file_highlights' := (file_highlights yaml_load JSON_parse prototype_get vault_read).

(** The highlights of a file do not depend on the cap. *)
Lemma file_highlights_with_max settings n path :
  file_highlights' (with_maxHighlights settings n) path = file_highlights' settings path.
Proof. reflexivity. Qed.

(** One round of the loop: the file's highlights are appended; the loop
    breaks, with the list cut at the cap, exactly when the cap is reached
    after a file that was handed to the extractor. *)
Lemma process_file_spec settings path highlights :
  cap_reached settings highlights = false ->
  let all := highlights ++ file_highlights' settings path in
  exists entries,
    (cap_reached settings all = true ->
       process_file' settings path highlights
       = (Break, firstn (Z.to_nat (maxHighlights settings)) all,
          entries ++ [ReachedMaximum]))
    /\ (cap_reached settings all = false ->
          process_file' settings path highlights = (Next, all, entries))
    /\ ~ In ReachedMaximum entries
    /\ (forall content frontmatter,
          vault_read path = Normal content ->
          extractFrontmatter yaml_load content = Some frontmatter ->
          passes_filter JSON_parse prototype_get settings frontmatter = Normal true ->
          In (ProcessingFile path) entries).
Proof.
  intros Hcap all. subst all. unfold process_file, file_highlights.
  destruct (vault_read path) as [content|] eqn:Hread.
  2:{ exists [ErrorProcessing path]. rewrite List.app_nil_r, Hcap.
      split; [discriminate|]. split; [reflexivity|].
      split; [intros [H|[]]; discriminate|]. intros c f H; discriminate H. }
  destruct (extractFrontmatter yaml_load content) as [frontmatter|] eqn:Hfm.
  2:{ exists [SkippedNoFrontmatter path]. rewrite List.app_nil_r, Hcap.
      split; [discriminate|]. split; [reflexivity|].
      split; [intros [H|[]]; discriminate|].
      intros c f H Hf. injection H as <-. rewrite Hfm in Hf. discriminate Hf. }
  destruct (passes_filter JSON_parse prototype_get settings frontmatter) as [[|]|] eqn:Hpass.
  2:{ exists [SkippedByFilter path]. rewrite List.app_nil_r, Hcap.
      split; [discriminate|]. split; [reflexivity|].
      split; [intros [H|[]]; discriminate|].
      intros c f H Hf Hp. injection H as <-. rewrite Hfm in Hf. injection Hf as <-.
      rewrite Hpass in Hp. discriminate Hp. }
  2:{ exists [ErrorProcessing path]. rewrite List.app_nil_r, Hcap.
      split; [discriminate|]. split; [reflexivity|].
      split; [intros [H|[]]; discriminate|].
      intros c f H Hf Hp. injection H as <-. rewrite Hfm in Hf. injection Hf as <-.
      rewrite Hpass in Hp. discriminate Hp. }
  destruct (extractHighlights_total settings content path frontmatter) as [found ->].
  exists [ProcessingFile path; FoundHighlights path (length found)].
  assert (Hall : (if (0 <? length found)%nat then highlights ++ found else highlights)
                 = highlights ++ found).
  { destruct found; [rewrite List.app_nil_r|]; reflexivity. }
  rewrite Hall. fold (cap_reached settings (highlights ++ found)).
  split; [intros ->; reflexivity|].
  split; [intros ->; reflexivity|].
  split; [intros [H|[H|[]]]; discriminate|].
  intros; left; reflexivity.
Qed.

Lemma cap_reached_nil settings : cap_reached settings [] = false.
Proof. unfold cap_reached. simpl. destruct (0 <? maxHighlights settings)%Z eqn:E; [|reflexivity].
  apply Z.ltb_lt in E. apply Z.leb_gt. lia.
Qed.

Lemma cap_reached_true settings highlights :
  cap_reached settings highlights = true ->
  (0 < maxHighlights settings)%Z
  /\ Z.to_nat (maxHighlights settings) <= length highlights.
Proof.
  unfold cap_reached. intros H. apply andb_true_iff in H as [H1 H2].
  apply Z.ltb_lt in H1. apply Z.leb_le in H2. lia.
Qed.

Lemma cap_reached_false settings highlights :
  cap_reached settings highlights = false ->
  (maxHighlights settings <= 0)%Z
  \/ length highlights < Z.to_nat (maxHighlights settings).
Proof.
  unfold cap_reached. intros H. apply andb_false_iff in H as [H|H].
  - apply Z.ltb_ge in H. left; lia.
  - apply Z.leb_gt in H. right; lia.
Qed.

Lemma firstn_app_ge {A : Type} n (l1 l2 : list A) :
  n <= length l1 -> firstn n (l1 ++ l2) = firstn n l1.
Proof.
  intros H. rewrite List.firstn_app. replace (n - length l1) with 0 by lia.
  rewrite List.firstn_O, List.app_nil_r. reflexivity.
Qed.

(** The list a capped scan stops at. *)
Lemma scan_pool settings : forall files highlights log,
  cap_reached settings highlights = false ->
  fst (scan' settings files highlights log)
  = if (0 <? maxHighlights settings)%Z
    then firstn (Z.to_nat (maxHighlights settings))
           (highlights ++ concat (map (file_highlights' settings) files))
    else highlights ++ concat (map (file_highlights' settings) files).
Proof.
  induction files as [|path rest IH]; intros highlights log Hcap; cbn [scan map concat].
  - cbn [fst]. rewrite List.app_nil_r.
    destruct (0 <? maxHighlights settings)%Z eqn:E; [|reflexivity].
    apply Z.ltb_lt in E. destruct (cap_reached_false _ _ Hcap); [lia|].
    symmetry. apply List.firstn_all2. lia.
  - destruct (process_file_spec settings path highlights Hcap) as (entries & Hb & Hn & _).
    destruct (cap_reached settings (highlights ++ file_highlights' settings path)) eqn:E.
    + rewrite (Hb eq_refl). cbn [fst]. apply cap_reached_true in E as [Hpos Hlen].
      apply Z.ltb_lt in Hpos. rewrite Hpos, List.app_assoc.
      rewrite (firstn_app_ge _ _ (concat (map (file_highlights' settings) rest)) Hlen).
      reflexivity.
    + rewrite (Hn eq_refl), (IH _ _ E), List.app_assoc. reflexivity.
Qed.

Lemma raw_highlights_concat settings files :
  raw_highlights yaml_load JSON_parse prototype_get vault_read settings files
  = concat (map (file_highlights' settings) files).
Proof.
  unfold raw_highlights. rewrite scan_pool by reflexivity. reflexivity.
Qed.

(** What the console has is kept. *)
Lemma scan_log_keeps settings e : forall files highlights log,
  In e log -> In e (snd (scan' settings files highlights log)).
Proof.
  induction files as [|path rest IH]; intros highlights log Hin; cbn [scan].
  - exact Hin.
  - destruct (process_file' settings path highlights) as [[[|] hs] entries]; cbn [snd].
    + apply IH. apply in_or_app. left; exact Hin.
    + apply in_or_app. left; exact Hin.
Qed.

(** The break: the console ends with the line of the cap, written once, and
    the files after the one that reached the cap do not count. *)
Lemma scan_break settings : forall files highlights log,
  cap_reached settings highlights = false ->
  cap_reached settings
    (highlights ++ concat (map (file_highlights' settings) files)) = true ->
  ~ In ReachedMaximum log ->
  (exists entries,
     snd (scan' settings files highlights log) = entries ++ [ReachedMaximum]
     /\ ~ In ReachedMaximum entries)
  /\ (exists visited unread,
        files = visited ++ unread
        /\ forall others,
             scan' settings (visited ++ others) highlights log
             = scan' settings files highlights log).
Proof.
  induction files as [|path rest IH]; intros highlights log Hcap Hall Hlog;
    cbn [map concat] in Hall.
  - rewrite List.app_nil_r in Hall. congruence.
  - destruct (process_file_spec settings path highlights Hcap) as (entries & Hb & Hn & Hne & _).
    destruct (cap_reached settings (highlights ++ file_highlights' settings path)) eqn:E.
    + split.
      * exists (log ++ entries). cbn [scan]. rewrite (Hb eq_refl). cbn [snd].
        rewrite List.app_assoc. split; [reflexivity|].
        intros Hin. apply in_app_or in Hin as [Hin|Hin]; [exact (Hlog Hin) | exact (Hne Hin)].
      * exists [path], rest. split; [reflexivity|].
        intros others. cbn [app scan]. rewrite (Hb eq_refl). reflexivity.
    + rewrite List.app_assoc in Hall.
      assert (Hlog' : ~ In ReachedMaximum (log ++ entries)).
      { intros Hin. apply in_app_or in Hin as [Hin|Hin]; [exact (Hlog Hin) | exact (Hne Hin)]. }
      destruct (IH _ (log ++ entries) E Hall Hlog') as [Hentries (visited & unread & Hfiles & Hsame)].
      split.
      * cbn [scan]. rewrite (Hn eq_refl). exact Hentries.
      * exists (path :: visited), unread. split; [rewrite Hfiles; reflexivity|].
        intros others. cbn [app scan]. rewrite (Hn eq_refl). apply Hsame.
Qed.

(** A file that is read, has frontmatter and passes the filter is handed to
    the extractor, unless the scan stopped at the cap. *)
Lemma scan_processes settings path content frontmatter :
  vault_read path = Normal content ->
  extractFrontmatter yaml_load content = Some frontmatter ->
  passes_filter JSON_parse prototype_get settings frontmatter = Normal true ->
  forall files highlights log,
    cap_reached settings highlights = false ->
    In path files ->
    In (ProcessingFile path) (snd (scan' settings files highlights log))
    \/ In ReachedMaximum (snd (scan' settings files highlights log)).
Proof.
  intros Hread Hfm Hpass.
  induction files as [|path0 rest IH]; intros highlights log Hcap Hin; [contradiction|].
  destruct (process_file_spec settings path0 highlights Hcap)
    as (entries & Hb & Hn & Hne & Hproc).
  cbn [scan].
  destruct (cap_reached settings (highlights ++ file_highlights' settings path0)) eqn:E.
  - right. rewrite (Hb eq_refl). cbn [snd].
    apply in_or_app. right. apply in_or_app. right. left; reflexivity.
  - rewrite (Hn eq_refl). destruct Hin as [->|Hin].
    + left. apply scan_log_keeps. apply in_or_app. right.
      eapply Hproc; eassumption.
    + apply IH; assumption.
Qed.

(** C5. For every vault and every cap above 0: when the files, scanned in
    order, yield more highlights than the cap (or as many), the accumulated
    list is the first cap highlights of what they yield, in the order met, so
    it has exactly cap elements; the console shows the cap reached once, as
    its last line, and the files after the one that reached the cap are not
    looked at. *)
Theorem scan_truncates_at_cap
    (settings : BookHighlightsPluginSettings) (files : list string) :
  let raw := raw_highlights yaml_load JSON_parse prototype_get vault_read settings files in
  let result := scan' settings files [] [] in
  (0 < maxHighlights settings)%Z ->
  (maxHighlights settings <= Z.of_nat (length raw))%Z ->
  raw = concat (map (file_highlights' settings) files)
  /\ fst result = firstn (Z.to_nat (maxHighlights settings)) raw
  /\ length (fst result) = Z.to_nat (maxHighlights settings)
  /\ (exists entries,
        snd result = entries ++ [ReachedMaximum] /\ ~ In ReachedMaximum entries)
  /\ (exists visited unread,
        files = visited ++ unread
        /\ forall others, scan' settings (visited ++ others) [] [] = result).
Proof.
  intros raw result Hpos Hmore. subst raw result.
  rewrite raw_highlights_concat in *.
  assert (Hpool := scan_pool settings files [] [] (cap_reached_nil settings)).
  cbn [app] in Hpool.
  apply Z.ltb_lt in Hpos as Hpos'. rewrite Hpos' in Hpool.
  split; [reflexivity|].
  split; [exact Hpool|].
  split; [rewrite Hpool; apply List.firstn_length_le; lia|].
  apply (scan_break settings files [] [] (cap_reached_nil settings)).
  - unfold cap_reached. cbn [app]. rewrite Hpos'. apply Z.leb_le. lia.
  - intros [].
Qed.

(** C8, as the code has it. With an empty filter property or an empty
    filter value the filter test is not made: every frontmatter passes, and
    every file in scope that is read and has frontmatter is handed to the
    extractor, unless the scan stopped at the cap before. *)
Theorem empty_filter_passes (settings : BookHighlightsPluginSettings) :
  filterProperty settings = EmptyString \/ filterValue settings = EmptyString ->
  (forall frontmatter, passes_filter JSON_parse prototype_get settings frontmatter = Normal true)
  /\ (forall files path content frontmatter,
        In path files ->
        vault_read path = Normal content ->
        extractFrontmatter yaml_load content = Some frontmatter ->
        let log := snd (scan' settings files [] []) in
        In (ProcessingFile path) log \/ In ReachedMaximum log).
Proof.
  intros Hempty.
  assert (Hpass : forall frontmatter,
            passes_filter JSON_parse prototype_get settings frontmatter = Normal true).
  { intros frontmatter. unfold passes_filter.
    destruct Hempty as [-> | ->]; cbn [Str.is_empty negb andb];
      [reflexivity | rewrite andb_false_r; reflexivity]. }
  split; [exact Hpass|].
  intros files path content frontmatter Hin Hread Hfm log. subst log.
  eapply scan_processes; eauto using cap_reached_nil.
Qed.

End Scan.

(** C5, on a vault of four notes with 8, 8, 8 and 6 highlights and a cap of
    10: the 30 highlights are cut to the first 10. *)
Lemma scan_truncates_at_cap_ten :
  let settings := with_maxHighlights DEFAULT_SETTINGS 10 in
  let raw := raw_highlights Sample.yaml_load Sample.JSON_parse Sample.prototype_get Examples.vault_read
               settings Examples.vault_paths in
  let result := scan Sample.yaml_load Sample.JSON_parse Sample.prototype_get Examples.vault_read
                  settings Examples.vault_paths [] [] in
  length raw = 30
  /\ fst result = firstn 10 raw
  /\ length (fst result) = 10
  /\ snd result = [ProcessingFile "a.md"; FoundHighlights "a.md" 8;
                   ProcessingFile "b.md"; FoundHighlights "b.md" 8; ReachedMaximum].
Proof.
  cbv zeta.
  destruct (scan_truncates_at_cap Sample.yaml_load Sample.JSON_parse Sample.prototype_get Examples.vault_read
              (with_maxHighlights DEFAULT_SETTINGS 10) Examples.vault_paths)
    as (_ & Hpool & Hlen & _ & _).
  - reflexivity.
  - apply Z.leb_le. vm_compute. reflexivity.
  - split; [vm_compute; reflexivity|].
    split; [exact Hpool|]. split; [exact Hlen|]. vm_compute. reflexivity.
Defined.

(** C8, on the same vault with no filter and no cap: the four notes are all
    handed to the extractor. *)
Lemma empty_filter_passes_vault :
  let settings := with_maxHighlights (with_filter DEFAULT_SETTINGS EmptyString EmptyString) 0 in
  let log := snd (scan Sample.yaml_load Sample.JSON_parse Sample.prototype_get Examples.vault_read
                    settings Examples.vault_paths [] []) in
  Forall (fun path => In (ProcessingFile path) log) Examples.vault_paths.
Proof.
  cbv zeta.
  destruct (empty_filter_passes Sample.yaml_load Sample.JSON_parse Sample.prototype_get Examples.vault_read
              (with_maxHighlights (with_filter DEFAULT_SETTINGS EmptyString EmptyString) 0))
    as [_ Hfiles]; [left; reflexivity|].
  assert (Hno : ~ In ReachedMaximum
                  (snd (scan Sample.yaml_load Sample.JSON_parse Sample.prototype_get Examples.vault_read
                          (with_maxHighlights
                             (with_filter DEFAULT_SETTINGS EmptyString EmptyString) 0)
                          Examples.vault_paths [] []))).
  { vm_compute. intuition discriminate. }
  apply List.Forall_forall. intros path Hin.
  assert (Hread : exists content frontmatter,
            Examples.vault_read path = Normal content
            /\ extractFrontmatter Sample.yaml_load content = Some frontmatter).
  { vm_compute in Hin.
    repeat (destruct Hin as [<-|Hin];
            [eexists; eexists; split; [vm_compute; reflexivity | vm_compute; reflexivity]|]).
    contradiction. }
  destruct Hread as (content & frontmatter & Hread & Hfm).
  destruct (Hfiles Examples.vault_paths path content frontmatter Hin Hread Hfm) as [H|H];
    [exact H | destruct (Hno H)].
Defined.

(** C8, the counterexample. With no filter set, a note in scope that has
    highlights and no frontmatter is skipped: it is not handed to the
    extractor, which would find its highlight. *)
Lemma no_frontmatter_not_extracted :
  let settings := with_filter DEFAULT_SETTINGS EmptyString EmptyString in
  scan Sample.yaml_load Sample.JSON_parse Sample.prototype_get Examples.bare_vault_read settings ["note.md"] [] []
  = ([], [SkippedNoFrontmatter "note.md"])
  /\ extractHighlights settings Examples.bare_note "note.md" (VObj ∅)
     = Normal [ {| bookTitle := VStr "note"; author := VNull; date := EmptyString;
                   page := EmptyString; location := EmptyString;
                   text := "Fear is the mind-killer"; comment := EmptyString;
                   sourceFile := "note.md" |} ].
Proof. split; vm_compute; reflexivity. Qed.

(** * The view: sampling and the refresh pass *)

Lemma alloc_fresh items v : fst (alloc items v) ∉ dom (heap v).
Proof. unfold alloc. cbn [fst]. apply is_fresh. Qed.

Lemma alloc_heap items v :
  heap (snd (alloc items v)) = <[fst (alloc items v) := items]> (heap v).
Proof. reflexivity. Qed.

Lemma alloc_frame items v l x :
  heap v !! l = Some x -> heap (snd (alloc items v)) !! l = Some x.
Proof.
  intros H. rewrite alloc_heap. rewrite lookup_insert_ne; [exact H|].
  intros Heq. apply (alloc_fresh items v). rewrite Heq.
  apply elem_of_dom. eauto.
Qed.

Lemma pool_nonempty_allocated v :
  pool v <> [] -> exists items, heap v !! this_highlights v = Some items.
Proof.
  unfold pool. destruct (heap v !! this_highlights v) as [items|]; [eauto|].
  intros H. exfalso. apply H. reflexivity.
Qed.

Section Sampling.

Variable random_source : nat -> Q.
Variable Array_sort : forall A : Type, (A -> A -> rand Q) -> list A -> rand (list A).

Local Abbreviation getRandomHighlights' := (getRandomHighlights random_source Array_sort).

(** The two shapes of a call of getRandomHighlights. *)
Lemma getRandomHighlights_cases settings v :
  (pool v = []
   /\ getRandomHighlights' settings v = alloc [] v)
  \/ (exists items sorted calls copy v1,
        heap v !! this_highlights v = Some items
        /\ pool v = items /\ items <> []
        /\ alloc items v = (copy, v1)
        /\ Array_sort BookHighlight (comparefn random_source) items (random_calls v)
           = (sorted, calls)
        /\ getRandomHighlights' settings v
           = alloc
               (Array_slice0 sorted
                  (Z.min (randomHighlightsCount settings) (Z.of_nat (length items))))
               {| this_highlights := this_highlights v;
                  heap := <[copy := sorted]> (heap v1);
                  contentEl := contentEl v;
                  console := console v;
                  random_calls := calls |}).
Proof.
  unfold getRandomHighlights.
  destruct (pool v) as [|h rest] eqn:Hpool.
  - left. split; reflexivity.
  - right. cbn [length Nat.eqb].
    destruct (pool_nonempty_allocated v) as [items Hitems]; [rewrite Hpool; discriminate|].
    assert (Hitems' : items = h :: rest).
    { unfold pool in Hpool. rewrite Hitems in Hpool. exact Hpool. }
    destruct (Array_sort BookHighlight (comparefn random_source) (h :: rest) (random_calls v))
      as [sorted calls] eqn:Hsort.
    exists items, sorted, calls, (fst (alloc (h :: rest) v)), (snd (alloc (h :: rest) v)).
    subst items.
    split; [assumption|]. split; [reflexivity|]. split; [discriminate|].
    split; [reflexivity|]. split; [exact Hsort|].
    cbn [alloc fst snd heap random_calls this_highlights contentEl console].
    rewrite lookup_insert_eq. cbn [default from_option id].
    rewrite Hsort. cbn [heap]. rewrite lookup_insert_eq. reflexivity.
Qed.

(** What a call of getRandomHighlights leaves as it was. *)
Lemma getRandomHighlights_keeps (settings : BookHighlightsPluginSettings) (v : View) :
  let result := fst (getRandomHighlights' settings v) in
  let v' := snd (getRandomHighlights' settings v) in
  pool v' = pool v
  /\ this_highlights v' = this_highlights v
  /\ (forall l items, heap v !! l = Some items -> heap v' !! l = Some items)
  /\ (result ∉ dom (heap v))
  /\ contentEl v' = contentEl v.
Proof.
  cbv zeta.
  destruct (getRandomHighlights_cases settings v)
    as [[Hpool ->] | (items & sorted & calls & copy & v1 & Hthis & Hpool & Hne & Hcopy & Hsort & ->)].
  - split; [|split; [reflexivity|split; [|split; [apply alloc_fresh | reflexivity]]]].
    + unfold pool in *. cbn [alloc snd heap this_highlights].
      destruct (heap v !! this_highlights v) as [x|] eqn:E.
      * rewrite lookup_insert_ne; [rewrite E; reflexivity|].
        intros Heq. apply (is_fresh (dom (heap v))). rewrite Heq.
        apply elem_of_dom. eauto.
      * cbn [default] in *.
        destruct (decide (fresh (dom (heap v)) = this_highlights v)) as [Heq|Hneq].
        -- rewrite Heq, lookup_insert_eq. reflexivity.
        -- rewrite lookup_insert_ne by exact Hneq. rewrite E. reflexivity.
    + intros l items H. apply alloc_frame. exact H.
  - assert (Hcopy_fresh : copy ∉ dom (heap v)).
    { replace copy with (fst (alloc items v)) by (rewrite Hcopy; reflexivity).
      apply alloc_fresh. }
    assert (Hv1 : heap v1 = <[copy := items]> (heap v)).
    { replace v1 with (snd (alloc items v)) by (rewrite Hcopy; reflexivity).
      replace copy with (fst (alloc items v)) by (rewrite Hcopy; reflexivity).
      apply alloc_heap. }
    assert (Hframe : forall l x, heap v !! l = Some x ->
                       (<[copy := sorted]> (heap v1)) !! l = Some x).
    { intros l x H. rewrite Hv1, insert_insert_eq.
      rewrite lookup_insert_ne; [exact H|].
      intros Heq. apply Hcopy_fresh. rewrite Heq. apply elem_of_dom. eauto. }
    set (v2 := {| this_highlights := this_highlights v;
                  heap := <[copy := sorted]> (heap v1);
                  contentEl := contentEl v; console := console v;
                  random_calls := calls |}).
    set (sel := Array_slice0 sorted _).
    assert (Hframe2 : forall l x, heap v !! l = Some x ->
                        heap (snd (alloc sel v2)) !! l = Some x).
    { intros l x H. apply alloc_frame. apply Hframe. exact H. }
    split; [|split; [reflexivity|split; [exact Hframe2|split; [|reflexivity]]]].
    + unfold pool.
      change (this_highlights (snd (alloc sel v2))) with (this_highlights v).
      rewrite (Hframe2 _ _ Hthis), Hthis. reflexivity.
    + intros Hin. apply (alloc_fresh sel v2).
      cbn [heap v2]. rewrite Hv1, insert_insert_eq. rewrite dom_insert.
      apply elem_of_union_r. exact Hin.
Qed.

(** What the call returns: nothing for an empty pool, else the first
    elements of the sorted copy. *)
Lemma sampled_cases settings v :
  (pool v = [] /\ sampled random_source Array_sort settings v = [])
  \/ (exists sorted calls,
        pool v <> []
        /\ Array_sort BookHighlight (comparefn random_source) (pool v) (random_calls v)
           = (sorted, calls)
        /\ sampled random_source Array_sort settings v
           = Array_slice0 sorted
               (Z.min (randomHighlightsCount settings) (Z.of_nat (length (pool v))))).
Proof.
  unfold sampled.
  destruct (getRandomHighlights_cases settings v)
    as [[Hpool ->] | (items & sorted & calls & copy & v1 & Hthis & Hpool & Hne & Hcopy & Hsort & ->)].
  - left. split; [assumption|]. cbn [alloc heap]. rewrite lookup_insert_eq. reflexivity.
  - right. exists sorted, calls. rewrite Hpool.
    split; [assumption|]. split; [assumption|].
    cbn [alloc heap]. rewrite lookup_insert_eq. reflexivity.
Qed.

Hypothesis Array_sort_permutes :
  forall (A : Type) (comparefn : A -> A -> rand Q) (items : list A) (calls : nat),
    Permutation (fst (Array_sort A comparefn items calls)) items.

(** C4, as the code has it. For every pool and every display count N of at
    least 1, under an engine whose sort permutes, getRandomHighlights
    returns exactly min(N, pool size) highlights, drawn from the pool
    without taking a position twice: they are the first elements of what
    the engine's sort makes of a copy of the pool, under a comparator that
    answers 0.5 - Math.random() whatever it is asked, so they are distinct
    when the pool's are; and nothing when the pool is empty.  Nothing is
    said of how the selections are distributed. *)
Theorem getRandomHighlights_selection
    (settings : BookHighlightsPluginSettings) (v : View) :
  (1 <= randomHighlightsCount settings)%Z ->
  let selection := sampled random_source Array_sort settings v in
  length selection
  = Nat.min (Z.to_nat (randomHighlightsCount settings)) (length (pool v))
  /\ (exists permuted,
        Permutation permuted (pool v)
        /\ selection = firstn (length selection) permuted)
  /\ (exists rest, Permutation (selection ++ rest) (pool v))
  /\ (NoDup (pool v) -> NoDup selection)
  /\ (pool v = [] -> selection = [])
  /\ (pool v <> [] ->
      selection
      = firstn (length selection)
          (fst (Array_sort BookHighlight (comparefn random_source) (pool v)
                  (random_calls v)))).
Proof using Array_sort_permutes.
  intros Hcount selection. subst selection.
  destruct (sampled_cases settings v) as [[Hpool ->] | (sorted & calls & Hne & Hsort & ->)].
  - rewrite Hpool. cbn [length]. rewrite Nat.min_0_r.
    split; [reflexivity|]. split; [exists []; split; [constructor | reflexivity]|].
    split; [exists []; constructor|]. split; [intros _; constructor|].
    split; [reflexivity | congruence].
  - pose proof (Array_sort_permutes BookHighlight (comparefn random_source) (pool v)
                  (random_calls v)) as Hperm.
    rewrite Hsort in Hperm. cbn [fst] in Hperm.
    pose proof (Permutation_length Hperm) as Hlen.
    unfold Array_slice0. rewrite Hlen.
    set (n := length (pool v)) in *.
    set (N := randomHighlightsCount settings) in *.
    assert (Hk : (if (Z.min N (Z.of_nat n) <? 0)%Z
                  then Z.max (Z.of_nat n + Z.min N (Z.of_nat n)) 0
                  else Z.min (Z.min N (Z.of_nat n)) (Z.of_nat n))
                 = Z.min N (Z.of_nat n)).
    { destruct (Z.min N (Z.of_nat n) <? 0)%Z eqn:E; [apply Z.ltb_lt in E; lia | lia]. }
    rewrite Hk.
    assert (Hm : Z.to_nat (Z.min N (Z.of_nat n)) = Nat.min (Z.to_nat N) n) by lia.
    rewrite Hm.
    assert (Hsel : length (firstn (Nat.min (Z.to_nat N) n) sorted) = Nat.min (Z.to_nat N) n).
    { rewrite List.length_firstn. lia. }
    split; [exact Hsel|].
    split; [exists sorted; split; [exact Hperm | rewrite Hsel; reflexivity]|].
    assert (Hrest : Permutation
                      (firstn (Nat.min (Z.to_nat N) n) sorted
                       ++ skipn (Nat.min (Z.to_nat N) n) sorted) (pool v)).
    { rewrite List.firstn_skipn. exact Hperm. }
    split; [eexists; exact Hrest|].
    split; [|split; [intros H; contradiction | intros _; rewrite Hsel, Hsort; reflexivity]].
    intros Hnodup. rewrite <- Hrest in Hnodup.
    apply NoDup_app in Hnodup as (Hsel' & _ & _). exact Hsel'.
Qed.

End Sampling.

(** C10. Sampling leaves the stored pool alone, whatever the engine's sort
    and the random numbers: the array this.highlights refers to, and every
    array that existed before the call, holds the same elements in the same
    order after it; the reference this.highlights and the pane are
    unchanged; the array returned is a new object. *)
Theorem getRandomHighlights_frame
    (random_source : nat -> Q)
    (Array_sort : forall A : Type, (A -> A -> rand Q) -> list A -> rand (list A))
    (settings : BookHighlightsPluginSettings) (v : View) :
  let result := fst (getRandomHighlights random_source Array_sort settings v) in
  let v' := snd (getRandomHighlights random_source Array_sort settings v) in
  pool v' = pool v
  /\ this_highlights v' = this_highlights v
  /\ (forall l items, heap v !! l = Some items -> heap v' !! l = Some items)
  /\ (result ∉ dom (heap v))
  /\ contentEl v' = contentEl v.
Proof. apply getRandomHighlights_keeps. Qed.

(** Straight insertion permutes. *)
Lemma insert_by_permutes {A : Type} (comparefn : A -> A -> rand Q) (x : A) :
  forall sorted calls, Permutation (fst (Sample.insert_by comparefn x sorted calls)) (x :: sorted).
Proof.
  induction sorted as [|y rest IH]; intros calls; cbn [Sample.insert_by].
  - reflexivity.
  - destruct (comparefn x y calls) as [c calls1].
    destruct (Qle_bool c 0); [reflexivity|].
    specialize (IH calls1).
    destruct (Sample.insert_by comparefn x rest calls1) as [rest' calls2].
    cbn [fst] in *. rewrite IH. apply perm_swap.
Qed.

Lemma insertion_sort_permutes (A : Type) (comparefn : A -> A -> rand Q) :
  forall items calls, Permutation (fst (Sample.insertion_sort A comparefn items calls)) items.
Proof.
  induction items as [|x rest IH]; intros calls; cbn [Sample.insertion_sort].
  - reflexivity.
  - specialize (IH calls).
    destruct (Sample.insertion_sort A comparefn rest calls) as [sorted calls1].
    cbn [fst] in IH. rewrite insert_by_permutes. constructor. exact IH.
Qed.

(** C4, on a pool of three with a display count of 2 under an engine that
    sorts by insertion: two of the three highlights; and the next call, its
    coins falling otherwise, returns another selection. *)
Lemma getRandomHighlights_selection_three :
  let coins := [true; true; true; false; false; false] in
  let source := Sample.source_of_coins coins in
  let settings := with_randomHighlightsCount DEFAULT_SETTINGS 2 in
  let first := sampled source Sample.insertion_sort settings Examples.view in
  let second :=
    sampled source Sample.insertion_sort settings
      (after_sampling source Sample.insertion_sort settings Examples.view) in
  length first = 2
  /\ (exists rest, Permutation (first ++ rest) Examples.three)
  /\ map text first = ["three"; "two"]
  /\ map text second = ["one"; "two"].
Proof.
  cbv zeta.
  destruct (getRandomHighlights_selection
              (Sample.source_of_coins [true; true; true; false; false; false])
              Sample.insertion_sort insertion_sort_permutes
              (with_randomHighlightsCount DEFAULT_SETTINGS 2) Examples.view)
    as (Hlen & _ & Hrest & _ & _ & _).
  - cbn. lia.
  - split; [exact Hlen|]. split; [exact Hrest|].
    split; vm_compute; reflexivity.
Defined.

Lemma pow2_mod3 k : exists q, 2 ^ k = 3 * q + 1 \/ 2 ^ k = 3 * q + 2.
Proof.
  induction k as [|k [q [H|H]]].
  - exists 0. left. reflexivity.
  - exists (2 * q). right. rewrite Nat.pow_succ_r', H. lia.
  - exists (2 * q + 1). left. rewrite Nat.pow_succ_r', H. lia.
Qed.

(** C4, the counterexample. On a pool of three highlights with a display
    count of 1, a uniform sample would return each highlight for a third of
    the coin sequences of some length k; whatever that length and whatever
    the engine's sort this cannot be, no power of two being three times a
    number.  Under an engine that sorts as V8 does, by binary insertion
    after the run the array begins with, the sort asks for at most four
    coins here: of the sixteen sequences seven return the first highlight
    of the pool, three the second and six the third; with three coins and a
    fourth answer above one half the counts are three, one and four.  Under
    an engine that sorts by straight insertion, which asks for at most
    three coins, the first highlight is returned for four of the eight
    sequences and the two others for two each. *)
Lemma sample_not_uniform :
  ~ (exists (k : nat)
            (Array_sort : forall A : Type, (A -> A -> rand Q) -> list A -> rand (list A)),
        Spec.uniform_sample k Array_sort
          (with_randomHighlightsCount DEFAULT_SETTINGS 1) Examples.view)
  /\ map (fun coins =>
            map text
              (sampled (Sample.source_of_coins coins) Sample.binary_insertion_sort
                 (with_randomHighlightsCount DEFAULT_SETTINGS 1) Examples.view))
         (Sample.coin_sequences 4)
     = [ ["one"]; ["two"]; ["one"]; ["three"]; ["one"]; ["two"]; ["one"]; ["three"];
         ["one"]; ["two"]; ["one"]; ["three"]; ["one"]; ["three"]; ["three"]; ["three"] ]
  /\ map (fun coins =>
            map text
              (sampled (Sample.source_of_coins coins) Sample.binary_insertion_sort
                 (with_randomHighlightsCount DEFAULT_SETTINGS 1) Examples.view))
         (Sample.coin_sequences 3)
     = [ ["one"]; ["two"]; ["one"]; ["three"]; ["one"]; ["three"]; ["three"]; ["three"] ]
  /\ map (fun coins =>
            map text
              (sampled (Sample.source_of_coins coins) Sample.insertion_sort
                 (with_randomHighlightsCount DEFAULT_SETTINGS 1) Examples.view))
         (Sample.coin_sequences 3)
     = [ ["three"]; ["two"]; ["one"]; ["one"]; ["three"]; ["two"]; ["one"]; ["one"] ].
Proof.
  split; [|repeat split; vm_compute; reflexivity].
  intros (k & Array_sort & Huniform).
  destruct (Huniform [Examples.highlight "one"]) as (ways & _ & _ & Hcount).
  - split; [reflexivity|].
    exists [Examples.highlight "two"; Examples.highlight "three"]. reflexivity.
  - change (length ways * 3 = 2 ^ k) in Hcount.
    destruct (pow2_mod3 k) as [q [H|H]]; lia.
Qed.

(** * The refresh pass *)

Lemma find_container_lookup : forall children i,
  find_container children = Some i ->
  exists old, children !! i = Some (Container old).
Proof.
  induction children as [|n children IH]; intros i H; [discriminate|].
  destruct n as [|old|cls text]; cbn [find_container] in H;
    try (destruct (find_container children) as [j|] eqn:E; [|discriminate];
         injection H as <-; destruct (IH j eq_refl) as [old Hold]; exists old; exact Hold).
  injection H as <-. exists old. reflexivity.
Qed.

Lemma filter_is_error_insert : forall children i old new,
  children !! i = Some (Container old) ->
  List.filter is_error (<[i := Container new]> children) = List.filter is_error children.
Proof.
  induction children as [|n children IH]; intros i old new H; [reflexivity|].
  destruct i as [|i].
  - cbn in H. injection H as ->. reflexivity.
  - change (<[S i := Container new]> (n :: children))
      with (n :: <[i := Container new]> children).
    change (List.filter is_error (n :: ?l))
      with (if is_error n then n :: List.filter is_error l else List.filter is_error l).
    cbn in H. rewrite (IH i old new H). reflexivity.
Qed.

Lemma find_container_insert : forall children i new,
  find_container children = Some i ->
  find_container (<[i := Container new]> children) = Some i.
Proof.
  induction children as [|n children IH]; intros i new H; [discriminate|].
  destruct n as [|old|cls text]; cbn [find_container] in H;
    try (destruct (find_container children) as [j|] eqn:E; [|discriminate];
         injection H as <-;
         change (<[S j := Container new]> (?n :: children))
           with (n :: <[j := Container new]> children);
         cbn [find_container]; rewrite (IH j new eq_refl); reflexivity).
  injection H as <-. reflexivity.
Qed.

Lemma find_container_app_paragraph cls text : forall children,
  find_container (children ++ [Paragraph cls text]) = find_container children.
Proof.
  induction children as [|n children IH]; [reflexivity|].
  destruct n; cbn [app find_container]; try rewrite IH; reflexivity.
Qed.

(** How [forEach] ends: with every callback complete, or at the first that
    threw. *)
Lemma forEach_spec {A : Type} (callback : A -> creation) : forall items,
  match snd (forEach callback items) with
  | Normal _ =>
      Forall (fun x => snd (callback x) = Normal tt) items
      /\ fst (forEach callback items) = concat (map (fun x => fst (callback x)) items)
  | Throw => interrupted_display callback items (fst (forEach callback items))
  end.
Proof.
  induction items as [|x items IH]; cbn [forEach].
  - split; [constructor | reflexivity].
  - unfold and_then. destruct (callback x) as [created [[]|]] eqn:Ex; cbn [fst snd].
    + destruct (snd (forEach callback items)) as [u|].
      * destruct IH as [Hall Hfst]. split.
        -- constructor; [rewrite Ex; reflexivity | exact Hall].
        -- cbn [map concat]. rewrite Ex, Hfst. reflexivity.
      * destruct IH as (done & h & rest & -> & Hdone & Hh & Hfst).
        exists (x :: done), h, rest. split; [reflexivity|].
        split; [constructor; [rewrite Ex; reflexivity | exact Hdone]|].
        split; [exact Hh|].
        cbn [map concat]. rewrite Ex, Hfst. cbn [fst]. rewrite List.app_assoc. reflexivity.
    + exists [], x, items. split; [reflexivity|]. split; [constructor|].
      rewrite Ex. split; reflexivity.
Qed.

Lemma pool_publish highlights log v :
  pool (publish highlights log v) = highlights
  /\ contentEl (publish highlights log v) = contentEl v
  /\ random_calls (publish highlights log v) = random_calls v.
Proof.
  unfold publish, pool. cbn [alloc heap this_highlights contentEl random_calls].
  rewrite lookup_insert_eq. repeat split.
Qed.

Section Refresh.

Variable yaml_load : string -> completion (option jsval).
Variable JSON_parse : string -> completion jsval.
Variable prototype_get : jsval -> string -> property.
Variable vault_read : string -> completion string.
Variable random_source : nat -> Q.
Variable Array_sort : forall A : Type, (A -> A -> rand Q) -> list A -> rand (list A).
Variable createEl : string -> string -> option jsval -> completion unit.

Local Abbreviation displayHighlights' := (displayHighlights random_source Array_sort createEl).
Local Abbreviation displayed' := (displayed random_source Array_sort createEl).
Local Abbreviation refreshHighlights_try' getMarkdownFiles :=
  (refreshHighlights_try yaml_load JSON_parse prototype_get getMarkdownFiles vault_read
     random_source Array_sort createEl).
Local Abbreviation refreshHighlights' getMarkdownFiles :=
  (refreshHighlights yaml_load JSON_parse prototype_get getMarkdownFiles vault_read
     random_source Array_sort createEl).

(** What displayHighlights does: it replaces the children of the container,
    if there is one, by what was created, and touches nothing else of the
    pane and nothing of the pool. *)
Lemma displayHighlights_cases settings v :
  pool (fst (displayHighlights' settings v)) = pool v
  /\ match find_container (contentEl v) with
     | None => displayHighlights' settings v = (v, Normal tt)
     | Some i =>
         contentEl (fst (displayHighlights' settings v))
         = <[i := Container (fst (displayed' settings v))]> (contentEl v)
         /\ snd (displayHighlights' settings v) = snd (displayed' settings v)
     end.
Proof.
  unfold displayHighlights, displayed, sampled.
  destruct (find_container (contentEl v)) as [i|]; [|split; reflexivity].
  destruct (getRandomHighlights_keeps random_source Array_sort settings v)
    as (Hpool & Hthis & _ & _ & Hcontent).
  destruct (getRandomHighlights random_source Array_sort settings v) as [l v1].
  cbn [fst snd] in *. split; [exact Hpool|].
  cbn [contentEl]. rewrite Hcontent. split; reflexivity.
Qed.

(** The try of a pass whose listing does not throw: the list scanned is
    published, then displayed. *)
Lemma refreshHighlights_try_listed settings files v :
  refreshHighlights_try' (Normal files) settings v
  = displayHighlights' settings
      (publish
         (fst (scan yaml_load JSON_parse prototype_get vault_read settings
                 (files_in_scope settings files) [] []))
         (snd (scan yaml_load JSON_parse prototype_get vault_read settings
                 (files_in_scope settings files) [] []))
         v).
Proof.
  unfold refreshHighlights_try.
  destruct (scan yaml_load JSON_parse prototype_get vault_read settings
              (files_in_scope settings files) [] []) as [highlights log].
  reflexivity.
Qed.

(** What the try of a pass does to the children of the pane: nothing, or
    the children of the container are replaced. *)
Lemma refreshHighlights_try_contentEl getMarkdownFiles settings v :
  contentEl (fst (refreshHighlights_try' getMarkdownFiles settings v)) = contentEl v
  \/ exists i children,
       find_container (contentEl v) = Some i
       /\ contentEl (fst (refreshHighlights_try' getMarkdownFiles settings v))
          = <[i := Container children]> (contentEl v).
Proof.
  destruct getMarkdownFiles as [files|]; [|left; reflexivity].
  rewrite refreshHighlights_try_listed.
  set (published := publish _ _ v).
  assert (Hcontent : contentEl published = contentEl v) by apply pool_publish.
  destruct (displayHighlights_cases settings published) as [_ H].
  rewrite Hcontent in H.
  destruct (find_container (contentEl v)) as [i|] eqn:E.
  - right. exists i. eexists. split; [reflexivity|]. apply H.
  - left. rewrite H. exact Hcontent.
Qed.

(** The view a pass leaves, from the view its try leaves. *)
Lemma refreshHighlights_catch getMarkdownFiles settings v :
  let tried := refreshHighlights_try' getMarkdownFiles settings v in
  let v' := refreshHighlights' getMarkdownFiles settings v in
  pool v' = pool (fst tried)
  /\ contentEl v'
     = contentEl (fst tried)
       ++ match snd tried with Throw => [error_paragraph] | Normal _ => [] end.
Proof.
  cbv zeta. unfold refreshHighlights.
  destruct (refreshHighlights_try' getMarkdownFiles settings v) as [v' [u|]]; cbn [fst snd].
  - rewrite List.app_nil_r. split; reflexivity.
  - split; reflexivity.
Qed.

(** C9, as the code has it. A failure of the pass outside the per-file
    guard adds one paragraph, 'Error loading highlights. Check console for
    details.', to the pane.  When the listing of the vault throws, nothing
    else changes: the pool published before stays, with the cards shown for
    it.  When the display throws, the list of the scan has been published
    already: the pool is the complete list accumulated, never a part of it,
    and the container holds what was created before the throw, which is
    not taken back: the complete cards of the sampled highlights before the
    one whose card threw, and what was created of that card. *)
Theorem refreshHighlights_failure (settings : BookHighlightsPluginSettings) (v : View) :
  let message :=
    Paragraph EmptyString "Error loading highlights. Check console for details." in
  (let v' := refreshHighlights' Throw settings v in
   contentEl v' = contentEl v ++ [message]
   /\ pool v' = pool v
   /\ this_highlights v' = this_highlights v
   /\ heap v' = heap v
   /\ console v' = console v
   /\ random_calls v' = random_calls v)
  /\ (forall files,
        let v' := refreshHighlights' (Normal files) settings v in
        let scanned := scan yaml_load JSON_parse prototype_get vault_read settings
                         (files_in_scope settings files) [] [] in
        let published := publish (fst scanned) (snd scanned) v in
        let shown := sampled random_source Array_sort settings published in
        let created := displayed' settings published in
        pool v' = fst scanned
        /\ (find_container (contentEl v) = None -> contentEl v' = contentEl v)
        /\ (forall i,
              find_container (contentEl v) = Some i ->
              (snd created = Normal tt ->
               contentEl v' = <[i := Container (fst created)]> (contentEl v))
              /\ (snd created = Throw ->
                  contentEl v' = <[i := Container (fst created)]> (contentEl v) ++ [message]
                  /\ (shown = [] -> fst created = [])
                  /\ (shown <> [] ->
                      interrupted_display (card createEl settings) shown (fst created))))).
Proof.
  cbv zeta. split; [repeat split|].
  intros files.
  destruct (refreshHighlights_catch (Normal files) settings v) as [Hpool Hcontent].
  cbv zeta in Hpool, Hcontent. rewrite Hpool, Hcontent.
  rewrite refreshHighlights_try_listed.
  set (scanned := scan yaml_load JSON_parse prototype_get vault_read settings
                    (files_in_scope settings files) [] []).
  set (published := publish (fst scanned) (snd scanned) v).
  destruct (pool_publish (fst scanned) (snd scanned) v) as (Hpub & Hcont & _).
  fold published in Hpub, Hcont.
  destruct (displayHighlights_cases settings published) as [Hkeeps Hcases].
  rewrite Hcont in Hcases.
  split; [rewrite Hkeeps; exact Hpub|]. split.
  - intros Hnone. rewrite Hnone in Hcases. rewrite Hcases. cbn [fst snd].
    rewrite List.app_nil_r. exact Hcont.
  - intros i Hfind. rewrite Hfind in Hcases. destruct Hcases as [Hel Hout].
    rewrite Hel, Hout. split.
    + intros ->. apply List.app_nil_r.
    + intros Hthrow. rewrite Hthrow. split; [reflexivity|].
      unfold displayed in *.
      destruct (sampled random_source Array_sort settings published) as [|h shown].
      * split; [|congruence]. intros _. cbn [length Nat.eqb] in *. unfold create in *.
        destruct (createEl _ _ _); [discriminate Hthrow | reflexivity].
      * split; [discriminate|]. intros _. cbn [length Nat.eqb] in *.
        pose proof (forEach_spec (card createEl settings) (h :: shown)) as Hf.
        rewrite Hthrow in Hf. exact Hf.
Qed.

End Refresh.

(** C9, the counterexample. A vault of two book notes, the author of the
    second being a mapping with a key 'toString', and an engine whose sort
    leaves the two highlights in their order.  The display throws at the
    author line of the second card: the pool of three highlights published
    before is replaced by the two of the scan, and the container shows the
    complete card of the first highlight and the title of the second, next
    to the error paragraph. *)
Lemma display_failure_shows_part :
  let v' := refreshHighlights Sample.yaml_load Sample.JSON_parse Sample.prototype_get
              (Normal ["a.md"; "b.md"]) Examples.authors_read
              (Sample.source_of_coins [true]) Sample.binary_insertion_sort Sample.createEl
              DEFAULT_SETTINGS Examples.view in
  map text (pool Examples.view) = ["one"; "two"; "three"]
  /\ map text (pool v') = ["Fear is the mind-killer"; "The spice must flow"]
  /\ map author (pool v') = [VStr "Frank Herbert"; VObj {[ "toString" := VStr "x" ]}]
  /\ contentEl v'
     = [Header;
        Container
          [El "div" "book-highlight-card" None
             [El "h4" "book-title-container" None
                [El "a" "book-title-link" (Some (VStr "a")) [];
                 El "span" "book-author" (Some (VStr " by Frank Herbert")) []];
              El "div" "highlight-text" (Some (VStr "Fear is the mind-killer")) [];
              El "div" "highlight-meta" None []];
           El "div" "book-highlight-card" None
             [El "h4" "book-title-container" None
                [El "a" "book-title-link" (Some (VStr "b")) []]]];
        Paragraph EmptyString "Error loading highlights. Check console for details."].
Proof. repeat split; vm_compute; reflexivity. Qed.

(** * One-unit iteration *)

Lemma reads_one_CSet icase p : reads_one p (Re.run icase (Re.CSet p)).
Proof. intros s pos cs k. reflexivity. Qed.

Lemma reads_one_Chr c : reads_one (Ascii.eqb c) (Re.run false (Re.Chr c)).
Proof. intros s pos cs k. reflexivity. Qed.

Lemma iterate_greedy_class p step k : reads_one p step ->
  forall rounds s pos cs,
    String.length s < rounds ->
    Re.iterate true step k rounds s pos cs = greedy_class p k s pos cs.
Proof.
  intros Hstep. induction rounds as [|rounds IH]; intros s pos cs Hlen; [lia|].
  cbn [Re.iterate]. rewrite Hstep.
  destruct s as [|x s]; cbn [greedy_class]; [reflexivity|].
  destruct (p x); [|reflexivity].
  rewrite (proj2 (Nat.ltb_lt pos (S pos))) by lia.
  rewrite IH by (simpl in Hlen; lia). reflexivity.
Qed.

Lemma iterate_lazy_class p step k : reads_one p step ->
  forall rounds s pos cs,
    String.length s < rounds ->
    Re.iterate false step k rounds s pos cs = lazy_class p k s pos cs.
Proof.
  intros Hstep. induction rounds as [|rounds IH]; intros s pos cs Hlen; [lia|].
  cbn [Re.iterate]. rewrite Hstep.
  destruct s as [|x s]; cbn [lazy_class].
  - destruct (k EmptyString pos cs); reflexivity.
  - destruct (k (String x s) pos cs); [reflexivity|].
    destruct (p x); [|reflexivity].
    rewrite (proj2 (Nat.ltb_lt pos (S pos))) by lia.
    apply IH. simpl in Hlen; lia.
Qed.

(** A greedy run that fails: the rest of the pattern fails after every run
    of units in [p]. *)
Lemma greedy_class_none p k cs : forall s pos n,
  greedy_class p k s pos cs = None ->
  n <= String.length s -> every p (Str.take n s) = true ->
  k (Str.drop n s) (pos + n) cs = None.
Proof.
  induction s as [|y s IHs]; intros pos n Hnone Hn Hall; cbn [greedy_class] in Hnone.
  - simpl in Hn. replace n with 0 by lia. rewrite Nat.add_0_r. exact Hnone.
  - destruct n as [|n].
    + rewrite Nat.add_0_r. simpl.
      destruct (p y); [|exact Hnone].
      destruct (greedy_class p k s (S pos) cs); [discriminate | exact Hnone].
    + simpl in Hall. apply andb_true_iff in Hall as [Hy Hall]. rewrite Hy in Hnone.
      destruct (greedy_class p k s (S pos) cs) eqn:E'; [discriminate|].
      simpl. rewrite Nat.add_succ_r.
      apply (IHs (S pos)); [assumption | simpl in Hn; lia | assumption].
Qed.

(** A greedy run that succeeds read units in [p] only, and no longer run of
    such units lets the rest of the pattern succeed. *)
Lemma greedy_class_sound p k : forall s pos cs o,
  greedy_class p k s pos cs = Some o ->
  exists n, n <= String.length s
    /\ every p (Str.take n s) = true
    /\ k (Str.drop n s) (pos + n) cs = Some o
    /\ forall n', n < n' -> n' <= String.length s -> every p (Str.take n' s) = true ->
         k (Str.drop n' s) (pos + n') cs = None.
Proof.
  induction s as [|x s IH]; intros pos cs o H; cbn [greedy_class] in H.
  - exists 0. rewrite Nat.add_0_r. split; [simpl; lia|]. split; [reflexivity|].
    split; [exact H|]. intros n' Hn' Hle. simpl in Hle. lia.
  - assert (Hzero : k (String x s) pos cs = Some o ->
              (forall n', n' <= String.length s -> every p (Str.take (S n') (String x s)) = true ->
                 k (Str.drop (S n') (String x s)) (pos + S n') cs = None) ->
              exists n, n <= String.length (String x s)
                /\ every p (Str.take n (String x s)) = true
                /\ k (Str.drop n (String x s)) (pos + n) cs = Some o
                /\ forall n', n < n' -> n' <= String.length (String x s) ->
                     every p (Str.take n' (String x s)) = true ->
                     k (Str.drop n' (String x s)) (pos + n') cs = None).
    { intros Hk Hnone. exists 0. rewrite Nat.add_0_r.
      split; [simpl; lia|]. split; [reflexivity|]. split; [exact Hk|].
      intros n' Hlt Hle Hall'. destruct n' as [|n']; [lia|].
      apply Hnone; [simpl in Hle; lia | assumption]. }
    destruct (p x) eqn:Hx.
    + destruct (greedy_class p k s (S pos) cs) as [o'|] eqn:E.
      * inversion H; subst. destruct (IH _ _ _ E) as (n & Hn & Hall & Hk & Hmax).
        exists (S n). simpl. rewrite Hx, Hall, Nat.add_succ_r.
        split; [lia|]. split; [reflexivity|]. split; [exact Hk|].
        intros n' Hlt Hle Hall'. destruct n' as [|n']; [lia|].
        simpl in Hall'. apply andb_true_iff in Hall' as [_ Hall'].
        simpl. rewrite Nat.add_succ_r. apply Hmax; [lia | lia | assumption].
      * apply Hzero; [exact H|]. intros n' Hle Hall'.
        simpl in Hall'. apply andb_true_iff in Hall' as [_ Hall'].
        simpl. rewrite Nat.add_succ_r.
        apply (greedy_class_none p k cs s (S pos)); assumption.
    + apply Hzero; [exact H|]. intros n' Hle Hall'.
      simpl in Hall'. rewrite Hx in Hall'. discriminate.
Qed.

(** The other way round: when the rest of the pattern succeeds after some
    run of units in [p], the greedy run succeeds. *)
Lemma greedy_class_complete p k cs : forall s pos n o,
  n <= String.length s -> every p (Str.take n s) = true ->
  k (Str.drop n s) (pos + n) cs = Some o ->
  exists o', greedy_class p k s pos cs = Some o'.
Proof.
  intros s pos n o Hn Hall Hk.
  destruct (greedy_class p k s pos cs) as [o'|] eqn:E; [eauto|].
  rewrite (greedy_class_none p k cs s pos n E Hn Hall) in Hk. discriminate.
Qed.

(** A lazy run that succeeds read units in [p] only, and the rest of the
    pattern fails after every shorter run. *)
Lemma lazy_class_sound p k : forall s pos cs o,
  lazy_class p k s pos cs = Some o ->
  exists n, n <= String.length s
    /\ every p (Str.take n s) = true
    /\ k (Str.drop n s) (pos + n) cs = Some o
    /\ forall n', n' < n -> k (Str.drop n' s) (pos + n') cs = None.
Proof.
  induction s as [|x s IH]; intros pos cs o H; cbn [lazy_class] in H.
  - destruct (k EmptyString pos cs) eqn:E; [|discriminate]. inversion H; subst.
    exists 0. rewrite Nat.add_0_r. split; [simpl; lia|]. split; [reflexivity|].
    split; [exact E|]. intros n' Hn'. lia.
  - destruct (k (String x s) pos cs) eqn:E.
    + inversion H; subst.
      exists 0. rewrite Nat.add_0_r. split; [simpl; lia|]. split; [reflexivity|].
      split; [exact E|]. intros n' Hn'. lia.
    + destruct (p x) eqn:Hx; [|discriminate].
      destruct (IH _ _ _ H) as (n & Hn & Hall & Hk & Hmin).
      exists (S n). simpl. rewrite Hx, Hall, Nat.add_succ_r.
      split; [lia|]. split; [reflexivity|]. split; [exact Hk|].
      intros n' Hlt. destruct n' as [|n'].
      * rewrite Nat.add_0_r. exact E.
      * simpl. rewrite Nat.add_succ_r. apply Hmin. lia.
Qed.

(** The other way round: the lazy run stops at the first place where the
    rest of the pattern succeeds. *)
Lemma lazy_class_first p k cs : forall s pos n o,
  n <= String.length s -> every p (Str.take n s) = true ->
  k (Str.drop n s) (pos + n) cs = Some o ->
  (forall n', n' < n -> k (Str.drop n' s) (pos + n') cs = None) ->
  lazy_class p k s pos cs = Some o.
Proof.
  induction s as [|x s IH]; intros pos n o Hn Hall Hk Hmin; cbn [lazy_class].
  - simpl in Hn. assert (n = 0) by lia. subst n. rewrite Nat.add_0_r in Hk.
    simpl in Hk. rewrite Hk. reflexivity.
  - destruct n as [|n].
    + rewrite Nat.add_0_r in Hk. simpl in Hk. rewrite Hk. reflexivity.
    + pose proof (Hmin 0 ltac:(lia)) as H0. rewrite Nat.add_0_r in H0. simpl in H0.
      rewrite H0. simpl in Hall. apply andb_true_iff in Hall as [Hx Hall]. rewrite Hx.
      apply (IH (S pos) n); [simpl in Hn; lia | assumption | |].
      * simpl in Hk. rewrite Nat.add_succ_r in Hk. exact Hk.
      * intros n' Hlt. specialize (Hmin (S n') ltac:(lia)).
        simpl in Hmin. rewrite Nat.add_succ_r in Hmin. exact Hmin.
Qed.

(** A group around [p+] (greedy or lazy) records a run of units in [p]. *)
Lemma run_Group_Plus g greedy p rest icase s pos cs k o :
  Re.run icase (Re.Seq (Re.Group g (Re.Plus greedy (Re.CSet p))) rest) s pos cs k = Some o ->
  exists n, 1 <= n <= String.length s
    /\ every p (Str.take n s) = true
    /\ Re.run icase rest (Str.drop n s) (pos + n) ((g, Str.take n s) :: cs) k = Some o.
Proof.
  cbn [Re.run Re.Plus]. destruct s as [|x s]; [discriminate|].
  destruct (p x) eqn:Hx; [|discriminate]. intros H.
  assert (Hn : exists n, n <= String.length s /\ every p (Str.take n s) = true
             /\ Re.run icase rest (Str.drop n s) (S pos + n)
                  ((g, Str.take (S pos + n - pos) (String x s)) :: cs) k = Some o).
  { destruct greedy.
    - rewrite (iterate_greedy_class p _ _ (reads_one_CSet icase p)) in H by lia.
      apply greedy_class_sound in H as (n & Hn & Hall & Hk & _). eauto.
    - rewrite (iterate_lazy_class p _ _ (reads_one_CSet icase p)) in H by lia.
      apply lazy_class_sound in H as (n & Hn & Hall & Hk & _). eauto. }
  destruct Hn as (n & Hn & Hall & Hk).
  exists (S n). simpl. rewrite Hx, Hall.
  split; [lia|]. split; [reflexivity|].
  replace (S pos + n - pos) with (S n) in Hk by lia.
  rewrite Nat.add_succ_r. exact Hk.
Qed.

Lemma attempt_parts re s pos m :
  Re.attempt re s pos = Some m ->
  Re.m_text m +:+ Re.m_after m = s /\ Re.m_index m = pos /\ Re.m_before m = EmptyString.
Proof.
  intros H. apply attempt_sound in H as (n & Hn & ->). cbn [Re.m_text Re.m_after Re.m_index Re.m_before].
  split; [apply Str_take_drop | split; reflexivity].
Qed.

(** The match a search finds was found by an attempt at some place of the
    input. *)
Lemma search_from_attempt re : forall s pos m,
  Re.search_from re s pos = Some m ->
  exists m', Re.attempt re (Re.m_text m +:+ Re.m_after m) (Re.m_index m) = Some m'
    /\ Re.m_caps m' = Re.m_caps m /\ Re.m_text m' = Re.m_text m
    /\ Re.m_after m' = Re.m_after m
    /\ s = Re.m_before m +:+ Re.m_text m +:+ Re.m_after m.
Proof.
  assert (Hhere : forall s pos m, Re.attempt re s pos = Some m ->
            exists m', Re.attempt re (Re.m_text m +:+ Re.m_after m) (Re.m_index m) = Some m'
              /\ Re.m_caps m' = Re.m_caps m /\ Re.m_text m' = Re.m_text m
              /\ Re.m_after m' = Re.m_after m
              /\ s = Re.m_before m +:+ Re.m_text m +:+ Re.m_after m).
  { intros s pos m E. destruct (attempt_parts _ _ _ _ E) as (Hs & Hi & Hb).
    exists m. rewrite Hs, Hi, Hb, Str_app_empty_l. auto. }
  induction s as [|c s IH]; intros pos m H; cbn [Re.search_from] in H.
  - destruct (Re.attempt re EmptyString pos) as [m0|] eqn:E; [|discriminate].
    inversion H; subst. eapply Hhere; eassumption.
  - destruct (Re.attempt re (String c s) pos) as [m0|] eqn:E.
    + inversion H; subst. eapply Hhere; eassumption.
    + destruct (Re.search_from re s (S pos)) as [m1|] eqn:E1; [|discriminate].
      inversion H; subst. destruct (IH _ _ E1) as (m' & Ha & Hc & Ht & Haf & Hs).
      exists m'. cbn [Re.skipping Re.m_text Re.m_after Re.m_index Re.m_caps Re.m_before].
      rewrite Str_app_cons, <- Hs. auto.
Qed.

(** * Trimming *)

Lemma every_ltrim p : forall s, every p s = true -> every p (Str.ltrim s) = true.
Proof.
  induction s as [|c s IH]; intros H; [reflexivity|].
  cbn [Str.ltrim]. destruct (Chars.is_space c); [|exact H].
  simpl in H. apply andb_true_iff in H as [_ H]. apply IH; exact H.
Qed.

Lemma every_rtrim p : forall s, every p s = true -> every p (Str.rtrim s) = true.
Proof.
  induction s as [|c s IH]; intros H; [reflexivity|].
  cbn [Str.rtrim]. simpl in H. apply andb_true_iff in H as [Hc H].
  destruct (Chars.is_space c && Str.is_empty (Str.rtrim s)); [reflexivity|].
  simpl. rewrite Hc. apply IH; exact H.
Qed.

Lemma every_trim p s : every p s = true -> every p (Str.trim s) = true.
Proof. intros H. apply every_rtrim, every_ltrim, H. Qed.

Lemma rtrim_rtrim : forall s, Str.rtrim (Str.rtrim s) = Str.rtrim s.
Proof.
  induction s as [|c s IH]; [reflexivity|]. cbn [Str.rtrim].
  destruct (Chars.is_space c) eqn:Hc; cbn [andb].
  - destruct (Str.is_empty (Str.rtrim s)) eqn:He; [reflexivity|].
    cbn [Str.rtrim]. rewrite IH, Hc, He. reflexivity.
  - cbn [Str.rtrim]. rewrite IH, Hc. reflexivity.
Qed.

(** What [ltrim] returns is empty or begins with a unit that is no space. *)
Lemma ltrim_head : forall s,
  match Str.ltrim s with
  | String c _ => Chars.is_space c = false
  | EmptyString => True
  end.
Proof.
  induction s as [|c s IH]; [exact I|]. cbn [Str.ltrim].
  destruct (Chars.is_space c) eqn:Hc; [exact IH | exact Hc].
Qed.

Lemma ltrim_trim s : Str.ltrim (Str.trim s) = Str.trim s.
Proof.
  unfold Str.trim. pose proof (ltrim_head s) as H.
  destruct (Str.ltrim s) as [|c t]; [reflexivity|].
  cbn [Str.rtrim]. rewrite H. cbn [andb Str.ltrim]. rewrite H. reflexivity.
Qed.

(** Trimming twice is trimming once. *)
Lemma trim_trim s : Str.trim (Str.trim s) = Str.trim s.
Proof.
  unfold Str.trim at 1. rewrite ltrim_trim. unfold Str.trim. apply rtrim_rtrim.
Qed.

Lemma is_digit_not_space c : Chars.is_digit c = true -> Chars.is_space c = false.
Proof.
  unfold Chars.is_digit, Chars.is_space. intros H.
  apply andb_true_iff in H as [H1 H2]. apply Nat.leb_le in H1, H2.
  repeat (apply orb_false_iff; split).
  - apply andb_false_iff. right. apply Nat.leb_gt. lia.
  - apply Nat.eqb_neq. lia.
  - apply Nat.eqb_neq. lia.
Qed.

(** Trimming leaves a text of digits as it is. *)
Lemma trim_digits : forall s, every Chars.is_digit s = true -> Str.trim s = s.
Proof.
  intros s H. unfold Str.trim.
  assert (Hl : Str.ltrim s = s).
  { destruct s as [|c s]; [reflexivity|]. simpl in H. apply andb_true_iff in H as [Hc _].
    cbn [Str.ltrim]. rewrite (is_digit_not_space _ Hc). reflexivity. }
  rewrite Hl. clear Hl. induction s as [|c s IH]; [reflexivity|].
  simpl in H. apply andb_true_iff in H as [Hc H].
  cbn [Str.rtrim]. rewrite (is_digit_not_space _ Hc), (IH H). reflexivity.
Qed.

(** * The fields of a callout *)

(** The fields after the four rounds, each rule read against the cleaned
    content of the callout. *)
Lemma extract_fields_rounds c :
  extract_fields c =
    {| f_date := captured Patterns.highlighted c;
       f_page := captured Patterns.page_number c;
       f_location := captured Patterns.location_number c;
       f_text :=
         stripped Patterns.my_comments c
           (stripped Patterns.location_number c
              (stripped Patterns.page_number c
                 (stripped Patterns.highlighted c c)));
       f_comment := captured Patterns.my_comments c |}.
Proof.
  unfold extract_fields, captured, stripped.
  cbn [fold_left metadataPatterns]. unfold apply_pattern, initial_fields.
  destruct (Re.exec Patterns.highlighted c);
    destruct (Re.exec Patterns.page_number c);
    destruct (Re.exec Patterns.location_number c);
    destruct (Re.exec Patterns.my_comments c); reflexivity.
Qed.

Lemma captured_trimmed regex c : Str.trim (captured regex c) = captured regex c.
Proof.
  unfold captured. destruct (Re.exec regex c); [apply trim_trim | reflexivity].
Qed.

(** The first capture of a pattern that ends with a group around [p+],
    behind a literal. *)
Lemma run_literal_group lit p s pos e cs after :
  Re.run false (Re.Seq (Re.Lit lit) (Re.Seq (Re.Group 1 (Re.Plus true (Re.CSet p))) Re.Eps))
    s pos [] (fun s' e cs => Some (e, cs, s')) = Some (e, cs, after) ->
  exists d, cs = [(1, d)] /\ every p d = true /\ d <> EmptyString.
Proof.
  cbn [Re.run]. rewrite run_Lit. destruct (Str.startsWith lit s); [|discriminate].
  intros H.
  change (Re.run false (Re.Seq (Re.Group 1 (Re.Plus true (Re.CSet p))) Re.Eps)
            (Str.drop (String.length lit) s) (pos + String.length lit) []
            (fun s' e cs => Some (e, cs, s')) = Some (e, cs, after)) in H.
  apply run_Group_Plus in H as (n & Hn & Hall & H). cbn [Re.run] in H.
  injection H as _ <- _. eexists. split; [reflexivity|]. split; [exact Hall|].
  destruct n; [lia|]. destruct (Str.drop (String.length lit) s); [simpl in Hn; lia | discriminate].
Qed.

Lemma exec_captures re s m :
  Re.exec re s = Some m ->
  exists s' pos e after,
    Re.run (Re.re_icase re) (Re.re_body re) s' pos [] (fun s' e cs => Some (e, cs, s'))
    = Some (e, Re.m_caps m, after).
Proof.
  unfold Re.exec. intros H. apply search_from_attempt in H as (m' & Ha & Hc & _).
  unfold Re.attempt in Ha.
  destruct (Re.run _ _ _ _ _ _) as [[[e cs] after]|] eqn:Hrun; [|discriminate].
  injection Ha as <-. cbn [Re.m_caps] in Hc. subst cs. eauto.
Qed.

Lemma group_text_of_caps m d : Re.m_caps m = [(1, d)] -> group_text m 1 = d.
Proof. unfold group_text, Re.m_group. intros ->. reflexivity. Qed.

(** The page is a text of digits. *)
Lemma captured_page_digits c : every Chars.is_digit (captured Patterns.page_number c) = true.
Proof.
  unfold captured. destruct (Re.exec Patterns.page_number c) as [m|] eqn:E; [|reflexivity].
  apply every_trim. apply exec_captures in E as (s & pos & e & after & Hrun).
  cbn [Patterns.page_number Re.re_body Re.re_icase Re.Cat] in Hrun.
  cbn [Re.run Re.Opt] in Hrun. rewrite run_Lit in Hrun.
  destruct (Str.startsWith "Page" s); [|discriminate].
  match type of Hrun with
  | match ?X with _ => _ end = _ => destruct X as [o|] eqn:E1
  end.
  - injection Hrun as ->. rewrite run_Lit in E1.
    destruct (Str.startsWith " Number" _); [|discriminate].
    apply (run_literal_group ": ") in E1 as (d & Hd & Hall & _).
    rewrite (group_text_of_caps _ _ Hd). exact Hall.
  - apply (run_literal_group ": ") in Hrun as (d & Hd & Hall & _).
    rewrite (group_text_of_caps _ _ Hd). exact Hall.
Qed.

(** The location is a text of digits. *)
Lemma captured_location_digits c :
  every Chars.is_digit (captured Patterns.location_number c) = true.
Proof.
  unfold captured. destruct (Re.exec Patterns.location_number c) as [m|] eqn:E; [|reflexivity].
  apply every_trim. apply exec_captures in E as (s & pos & e & after & Hrun).
  apply (run_literal_group "Location: ") in Hrun as (d & Hd & Hall & _).
  rewrite (group_text_of_caps _ _ Hd). exact Hall.
Qed.

(** The date holds no newline. *)
Lemma captured_date_line c :
  every (fun x => negb (Ascii.eqb x Chars.newline)) (captured Patterns.highlighted c) = true.
Proof.
  unfold captured. destruct (Re.exec Patterns.highlighted c) as [m|] eqn:E; [|reflexivity].
  apply every_trim. apply exec_captures in E as (s & pos & e & after & Hrun).
  apply (run_literal_group "Highlighted: ") in Hrun as (d & Hd & Hall & _).
  rewrite (group_text_of_caps _ _ Hd). exact Hall.
Qed.

(** What holds of every highlight the loop body builds holds of every
    highlight the loop returns. *)
Lemma callout_loop_invariant (P : BookHighlight -> Prop) filePath frontmatter parsed :
  (forall m h, highlight_of_match filePath frontmatter parsed m = Some h -> P h) ->
  forall rounds rest pos highlights result,
    Forall P highlights ->
    callout_loop rounds rest pos filePath frontmatter parsed highlights = Some result ->
    Forall P result.
Proof.
  intros Hbody.
  induction rounds as [|rounds IH]; intros rest pos highlights result Hall H; simpl in H.
  - destruct (Re.search_from Patterns.calloutRegex rest pos); [discriminate|].
    inversion H; subst. assumption.
  - destruct (Re.search_from Patterns.calloutRegex rest pos) as [m|];
      [|inversion H; subst; assumption].
    eapply IH; [|exact H].
    destruct (highlight_of_match filePath frontmatter parsed m) as [h|] eqn:E; [|assumption].
    apply Forall_app. split; [assumption|]. constructor; [|constructor].
    eapply Hbody; eassumption.
Qed.

(** The same for extractHighlights, which always returns. *)
Lemma extractHighlights_invariant (P : BookHighlight -> Prop) settings content filePath
    frontmatter :
  (forall parsed m h,
     parseTitleAndAuthor settings (Str.after_last "/" filePath) = Normal parsed ->
     highlight_of_match filePath frontmatter parsed m = Some h -> P h) ->
  exists highlights,
    extractHighlights settings content filePath frontmatter = Normal highlights
    /\ Forall P highlights.
Proof.
  intros Hbody.
  destruct (extractHighlights_total settings content filePath frontmatter) as [hs Hhs].
  exists hs. split; [exact Hhs|].
  unfold extractHighlights in Hhs.
  destruct (parseTitleAndAuthor settings (Str.after_last "/" filePath)) as [parsed|] eqn:Hp;
    [|discriminate].
  destruct (callout_loop _ _ _ _ _ _ _) as [result|] eqn:E; [|discriminate].
  inversion Hhs; subst.
  eapply callout_loop_invariant; [|constructor|exact E].
  intros m h. apply Hbody. reflexivity.
Qed.

(** * Properties of extractHighlights *)

Lemma highlight_of_match_fields filePath frontmatter parsed m h :
  highlight_of_match filePath frontmatter parsed m = Some h ->
  h = {| bookTitle := resolve_title frontmatter (ta_title parsed);
         author := resolve_author frontmatter (ta_author parsed);
         date := f_date (callout_fields (group_text m 2));
         page := f_page (callout_fields (group_text m 2));
         location := f_location (callout_fields (group_text m 2));
         text := f_text (callout_fields (group_text m 2));
         comment := f_comment (callout_fields (group_text m 2));
         sourceFile := filePath |}
  /\ f_text (callout_fields (group_text m 2)) <> EmptyString.
Proof.
  unfold highlight_of_match.
  generalize (callout_fields (group_text m 2)) as st. intros st.
  destruct (Str.is_empty (f_text st)) eqn:E; [discriminate|].
  intros H. injection H as <-. split; [reflexivity|].
  intros Hst. rewrite Hst in E. discriminate.
Qed.


(** X1. Every highlight extractHighlights returns has a page and a location
    that are texts of decimal digits (or empty), a date without a line feed
    (the pattern of the date stops at the first line feed; a carriage
    return can stand inside the date), and a text, a date and a comment
    without white space at either end. *)
Theorem extractHighlights_field_shapes
    (settings : BookHighlightsPluginSettings) (content filePath : string)
    (frontmatter : jsval) :
  exists highlights,
    extractHighlights settings content filePath frontmatter = Normal highlights
    /\ Forall (fun h =>
                 every Chars.is_digit (page h) = true
                 /\ every Chars.is_digit (location h) = true
                 /\ every (fun x => negb (Ascii.eqb x Chars.newline)) (date h) = true
                 /\ Str.trim (text h) = text h
                 /\ Str.trim (date h) = date h
                 /\ Str.trim (comment h) = comment h)
         highlights.
Proof.
  apply extractHighlights_invariant. intros parsed m h _ H.
  apply highlight_of_match_fields in H as [-> _]. cbn [page location date text comment].
  unfold callout_fields. rewrite extract_fields_rounds.
  cbn [f_date f_page f_location f_text f_comment].
  split; [apply captured_page_digits|]. split; [apply captured_location_digits|].
  split; [apply captured_date_line|].
  split; [unfold clean_text; apply trim_trim|].
  split; apply captured_trimmed.
Qed.

Lemma truthy_resolve_title frontmatter filenameTitle :
  truthy (Some (resolve_title frontmatter filenameTitle)) = true.
Proof.
  unfold resolve_title.
  destruct (truthy (get_prop frontmatter "title")) eqn:E.
  - destruct (get_prop frontmatter "title"); [exact E | discriminate E].
  - destruct filenameTitle; reflexivity.
Qed.

Lemma truthy_resolve_author frontmatter filenameAuthor :
  resolve_author frontmatter filenameAuthor = VNull
  \/ truthy (Some (resolve_author frontmatter filenameAuthor)) = true.
Proof.
  unfold resolve_author.
  destruct (truthy (get_prop frontmatter "author")) eqn:E.
  - destruct (get_prop frontmatter "author"); [right; exact E | discriminate E].
  - destruct filenameAuthor as [[|c a]|]; auto.
Qed.

(** X2. The highlights of one note share its path, one title and one author.
    The title is the frontmatter's when that is truthy, else the title parsed
    from the filename, else 'Unknown Book', so it is never empty; the author
    is the frontmatter's when truthy, else the author parsed from the
    filename, else null, so it is never the empty text. *)
Theorem extractHighlights_title_author
    (settings : BookHighlightsPluginSettings) (content filePath : string)
    (frontmatter : jsval) :
  exists highlights parsed,
    extractHighlights settings content filePath frontmatter = Normal highlights
    /\ parseTitleAndAuthor settings (Str.after_last "/" filePath) = Normal parsed
    /\ let bookTitle' := resolve_title frontmatter (ta_title parsed) in
       let author' := resolve_author frontmatter (ta_author parsed) in
       Forall (fun h => sourceFile h = filePath
                        /\ bookTitle h = bookTitle' /\ author h = author') highlights
       /\ truthy (Some bookTitle') = true
       /\ (author' = VNull \/ truthy (Some author') = true)
       /\ (forall t, get_prop frontmatter "title" = Some t -> truthy (Some t) = true ->
             bookTitle' = t)
       /\ (truthy (get_prop frontmatter "title") = false ->
             bookTitle' = VStr (if Str.is_empty (ta_title parsed) then "Unknown Book"
                                else ta_title parsed))
       /\ (forall a, get_prop frontmatter "author" = Some a -> truthy (Some a) = true ->
             author' = a)
       /\ (truthy (get_prop frontmatter "author") = false ->
             author' = match ta_author parsed with
                       | Some a => if Str.is_empty a then VNull else VStr a
                       | None => VNull
                       end).
Proof.
  destruct (parseTitleAndAuthor_total settings (Str.after_last "/" filePath)) as [parsed Hp].
  destruct (extractHighlights_invariant
              (fun h => sourceFile h = filePath
                        /\ bookTitle h = resolve_title frontmatter (ta_title parsed)
                        /\ author h = resolve_author frontmatter (ta_author parsed))
              settings content filePath frontmatter) as (hs & Hhs & Hall).
  { intros parsed' m h Hp' H. rewrite Hp in Hp'. injection Hp' as <-.
    apply highlight_of_match_fields in H as [-> _]. repeat split. }
  exists hs, parsed. split; [exact Hhs|]. split; [exact Hp|]. cbv zeta.
  split; [exact Hall|]. split; [apply truthy_resolve_title|].
  split; [apply truthy_resolve_author|].
  split; [intros t Ht Htr; unfold resolve_title; rewrite Ht, Htr; reflexivity|].
  split; [intros Hf; unfold resolve_title; rewrite Hf;
          destruct (Str.is_empty (ta_title parsed)); reflexivity|].
  split; [intros a Ha Htr; unfold resolve_author; rewrite Ha, Htr; reflexivity|].
  intros Hf. unfold resolve_author. rewrite Hf. reflexivity.
Qed.

Lemma indexOf_from_none p : forall s i before rest,
  Str.indexOf_from p s i = None -> s = before +:+ rest -> Str.startsWith p rest = false.
Proof.
  induction s as [|c s IH]; intros i before rest H Hs; cbn [Str.indexOf_from] in H.
  - destruct (Str.startsWith p EmptyString) eqn:E; [discriminate|].
    destruct before; [|discriminate]. rewrite Str_app_empty_l in Hs. subst rest. exact E.
  - destruct (Str.startsWith p (String c s)) eqn:E; [discriminate|].
    destruct before as [|b before].
    + rewrite Str_app_empty_l in Hs. subst rest. exact E.
    + rewrite Str_app_cons in Hs. injection Hs as _ Hs. eapply IH; eassumption.
Qed.

(** X3. A note that holds no callout marker '> [!' yields no highlight; so
    does the empty note. *)
Theorem extractHighlights_without_callout
    (settings : BookHighlightsPluginSettings) (content filePath : string)
    (frontmatter : jsval) :
  Str.indexOf "> [!" content = None ->
  extractHighlights settings content filePath frontmatter = Normal [].
Proof.
  intros Hno. unfold extractHighlights.
  destruct (parseTitleAndAuthor_total settings (Str.after_last "/" filePath)) as [parsed ->].
  assert (Hsearch : Re.search_from Patterns.calloutRegex content 0 = None).
  { destruct (Re.search_from Patterns.calloutRegex content 0) as [m|] eqn:E; [|reflexivity].
    apply search_from_attempt in E as (m' & Ha & _ & _ & _ & Hs).
    unfold Re.attempt in Ha.
    cbn [Patterns.calloutRegex Re.re_body Re.re_icase Re.Cat Re.run] in Ha.
    rewrite run_Lit in Ha.
    rewrite (indexOf_from_none _ _ _ _ _ Hno Hs) in Ha. discriminate. }
  destruct (callout_rounds content); cbn [callout_loop]; rewrite Hsearch; reflexivity.
Qed.

Lemma extractHighlights_without_callout_plain :
  extractHighlights DEFAULT_SETTINGS "Just a paragraph, and > a quote." "Dune.md" (VObj ∅)
  = Normal []
  /\ extractHighlights DEFAULT_SETTINGS EmptyString "Dune.md" (VObj ∅) = Normal [].
Proof.
  split; apply extractHighlights_without_callout; reflexivity.
Defined.

(** * The default filename format *)

Lemma every_app p : forall s t, every p (s +:+ t) = every p s && every p t.
Proof.
  induction s as [|c s IH]; intros t; [reflexivity|].
  rewrite Str_app_cons. simpl. rewrite IH, andb_assoc. reflexivity.
Qed.

Lemma Str_length_app : forall s t, String.length (s +:+ t) = String.length s + String.length t.
Proof.
  induction s as [|c s IH]; intros t; [reflexivity|].
  rewrite Str_app_cons. simpl. rewrite IH. reflexivity.
Qed.

Lemma Str_take_app : forall s t, Str.take (String.length s) (s +:+ t) = s.
Proof.
  induction s as [|c s IH]; intros t; [destruct t; reflexivity|].
  rewrite Str_app_cons. simpl. rewrite IH. reflexivity.
Qed.

Lemma Str_drop_app : forall s t, Str.drop (String.length s) (s +:+ t) = t.
Proof.
  induction s as [|c s IH]; intros t; [apply Str_drop_0|].
  rewrite Str_app_cons. simpl. apply IH.
Qed.

Lemma Str_length_take n : forall s, n <= String.length s -> String.length (Str.take n s) = n.
Proof.
  induction n as [|n IH]; intros [|c s] H; simpl in *; try lia.
  rewrite IH; lia.
Qed.

Lemma Str_app_assoc : forall s t u, (s +:+ t) +:+ u = s +:+ (t +:+ u).
Proof.
  induction s as [|c s IH]; intros t u; [reflexivity|].
  rewrite !Str_app_cons, IH. reflexivity.
Qed.

(** A pattern that begins with [^] is tried at the start only. *)
Lemma exec_Bol_attempt r icase s :
  Re.exec (Re.RegExp (Re.Seq Re.Bol r) icase) s
  = Re.attempt (Re.RegExp (Re.Seq Re.Bol r) icase) s 0.
Proof.
  unfold Re.exec. destruct s as [|c s]; cbn [Re.search_from].
  - destruct (Re.attempt _ _ _); reflexivity.
  - destruct (Re.attempt _ _ _); [reflexivity|]. rewrite search_from_Bol. reflexivity.
Qed.

(** A group around a greedy [p+]: the longest run of units in [p] after
    which the rest of the pattern succeeds. *)
Lemma run_Group_Plus_greedy g p rest icase s pos cs k o :
  Re.run icase (Re.Seq (Re.Group g (Re.Plus true (Re.CSet p))) rest) s pos cs k = Some o ->
  exists n, 1 <= n <= String.length s
    /\ every p (Str.take n s) = true
    /\ Re.run icase rest (Str.drop n s) (pos + n) ((g, Str.take n s) :: cs) k = Some o
    /\ forall n', n < n' -> n' <= String.length s -> every p (Str.take n' s) = true ->
         Re.run icase rest (Str.drop n' s) (pos + n') ((g, Str.take n' s) :: cs) k = None.
Proof.
  cbn [Re.run Re.Plus]. destruct s as [|x s]; [discriminate|].
  destruct (p x) eqn:Hx; [|discriminate]. intros H.
  rewrite (iterate_greedy_class p _ _ (reads_one_CSet icase p)) in H by lia.
  apply greedy_class_sound in H as (n & Hn & Hall & Hk & Hmax).
  exists (S n). simpl. rewrite Hx, Hall.
  split; [lia|]. split; [reflexivity|].
  replace (S pos + n - pos) with (S n) in Hk by lia.
  rewrite Nat.add_succ_r. split; [exact Hk|].
  intros n' Hlt Hle Hall'. destruct n' as [|n']; [lia|].
  simpl in Hall'. apply andb_true_iff in Hall' as [_ Hall'].
  specialize (Hmax n' ltac:(lia) ltac:(lia) Hall').
  replace (S pos + n' - pos) with (S n') in Hmax by lia.
  simpl. rewrite Nat.add_succ_r. exact Hmax.
Qed.

(** When the rest of the pattern succeeds after some run of units in [p],
    the group around a greedy [p+] succeeds. *)
Lemma run_Group_Plus_complete g p rest icase s pos cs k n o :
  1 <= n <= String.length s -> every p (Str.take n s) = true ->
  Re.run icase rest (Str.drop n s) (pos + n) ((g, Str.take n s) :: cs) k = Some o ->
  exists o',
    Re.run icase (Re.Seq (Re.Group g (Re.Plus true (Re.CSet p))) rest) s pos cs k = Some o'.
Proof.
  intros Hn Hall Hk. cbn [Re.run Re.Plus].
  destruct n as [|n]; [lia|]. destruct s as [|x s]; [simpl in Hn; lia|].
  simpl in Hall. apply andb_true_iff in Hall as [Hx Hall]. rewrite Hx.
  rewrite (iterate_greedy_class p _ _ (reads_one_CSet icase p)) by lia.
  eapply (greedy_class_complete p _ _ s (S pos) n); [simpl in Hn; lia | exact Hall |].
  cbv beta. replace (S pos + n - pos) with (S n) by lia.
  simpl in Hk. rewrite Nat.add_succ_r in Hk. exact Hk.
Qed.

Lemma run_Chr_here c rest s pos cs k :
  Re.run false (Re.Seq (Re.Chr c) rest) (String c s) pos cs k
  = Re.run false rest s (S pos) cs k.
Proof. cbn [Re.run Re.char_eq]. rewrite Ascii.eqb_refl. reflexivity. Qed.

Lemma Str_drop_all s : Str.drop (String.length s) s = EmptyString.
Proof. induction s as [|c s IH]; [reflexivity | exact IH]. Qed.

Lemma Str_take_all s : Str.take (String.length s) s = s.
Proof. induction s as [|c s IH]; [reflexivity | simpl; rewrite IH; reflexivity]. Qed.

(** The part of the pattern after the title succeeds on ' by ' and an
    author of one line. *)
Lemma run_by_author a pos cs :
  a <> EmptyString -> every in_line a = true ->
  exists o,
    Re.run false
      (Re.Cat [Re.Chr " "; Re.Chr "b"; Re.Chr "y"; Re.Chr " ";
               Re.Group 2 (Re.Plus true Re.Dot); Re.Eol])
      (" by " +:+ a) pos cs (fun s' e cs => Some (e, cs, s')) = Some o.
Proof.
  intros Ha Hall. cbn [Re.Cat]. rewrite !Str_app_cons, Str_app_empty_l.
  rewrite !run_Chr_here.
  eapply (run_Group_Plus_complete 2 in_line _ false a _ _ _ (String.length a)).
  - destruct a; [congruence | simpl; lia].
  - rewrite Str_take_all. exact Hall.
  - rewrite Str_drop_all. cbn [Re.run]. reflexivity.
Qed.

(** A match of the pattern: the basename is title, ' by ', author, all on
    one line, and the title is the longest there is. *)
Lemma title_by_author_exec s m :
  Re.exec title_by_author s = Some m ->
  s = group_text m 1 +:+ " by " +:+ group_text m 2
  /\ group_text m 1 <> EmptyString /\ group_text m 2 <> EmptyString
  /\ every in_line s = true
  /\ forall t a, s = t +:+ " by " +:+ a -> a <> EmptyString ->
       String.length t <= String.length (group_text m 1).
Proof.
  unfold title_by_author. cbn [Re.Cat]. rewrite exec_Bol_attempt. unfold Re.attempt.
  cbn [Re.re_body Re.re_icase].
  match goal with
  | |- match ?X with _ => _ end = _ -> _ => destruct X as [[[e cs] after]|] eqn:Hrun; [|discriminate]
  end.
  intros H. injection H as <-. unfold group_text, Re.m_group. cbn [Re.m_caps].
  change (Re.run false (Re.Seq Re.Bol ?r) s 0 [] ?k) with (Re.run false r s 0 [] k) in Hrun.
  apply run_Group_Plus_greedy in Hrun as (n1 & Hn1 & Hall1 & Hrun & Hmax).
  pose proof Hrun as Hrest.
  apply run_Chr in Hrun as (s1 & Hs1 & Hrun).
  apply run_Chr in Hrun as (s2 & Hs2 & Hrun).
  apply run_Chr in Hrun as (s3 & Hs3 & Hrun).
  apply run_Chr in Hrun as (s4 & Hs4 & Hrun).
  apply run_Group_Plus in Hrun as (n2 & Hn2 & Hall2 & Hrun).
  cbn [Re.run] in Hrun.
  destruct (Str.drop n2 s4) eqn:Hend; [|discriminate].
  injection Hrun as _ <- _. cbn [Re.cap Nat.eqb default from_option id].
  assert (Hauthor : Str.take n2 s4 = s4).
  { rewrite <- (Str_take_drop n2 s4) at 2. rewrite Hend. symmetry. apply Str_app_empty_r. }
  rewrite Hauthor in *.
  assert (Hs : s = Str.take n1 s +:+ " by " +:+ s4).
  { rewrite <- (Str_take_drop n1 s) at 1. rewrite Hs1. subst s1 s2 s3. reflexivity. }
  assert (Hline : every in_line s = true).
  { rewrite Hs, !every_app.
    apply andb_true_iff; split; [exact Hall1|].
    apply andb_true_iff; split; [reflexivity | exact Hall2]. }
  split; [exact Hs|]. split; [|split; [|split; [exact Hline|]]].
  - destruct n1; [lia|]. destruct s; [simpl in Hn1; lia | discriminate].
  - destruct n2; [lia|]. destruct s4; [simpl in Hn2; lia | discriminate].
  - intros t a Hta Ha. rewrite Str_length_take by lia.
    destruct (le_lt_dec (String.length t) n1) as [Hle|Hlt]; [exact Hle|]. exfalso.
    assert (Hlen : String.length t <= String.length s).
    { rewrite Hta, Str_length_app. lia. }
    rewrite Hta, !every_app in Hline.
    apply andb_true_iff in Hline as [Ht Hline]. apply andb_true_iff in Hline as [_ Hall].
    specialize (Hmax (String.length t) Hlt Hlen).
    rewrite Hta, Str_take_app, Str_drop_app in Hmax. specialize (Hmax Ht).
    destruct (run_by_author a (0 + String.length t) [(1, t)] Ha Hall) as [o Ho].
    cbn [Re.Cat] in Ho. rewrite Ho in Hmax. discriminate.
Qed.

(** A basename of one line that holds ' by ' between two texts matches. *)
Lemma title_by_author_complete s t a :
  s = t +:+ " by " +:+ a -> t <> EmptyString -> a <> EmptyString ->
  every in_line s = true ->
  exists m, Re.exec title_by_author s = Some m.
Proof.
  intros Hs Ht Ha Hline.
  unfold title_by_author. cbn [Re.Cat]. rewrite exec_Bol_attempt. unfold Re.attempt.
  cbn [Re.re_body Re.re_icase].
  change (Re.run false (Re.Seq Re.Bol ?r) s 0 [] ?k) with (Re.run false r s 0 [] k).
  rewrite Hs, !every_app in Hline.
  apply andb_true_iff in Hline as [Hallt Hline]. apply andb_true_iff in Hline as [_ Halla].
  destruct (run_by_author a (0 + String.length t) [(1, t)] Ha Halla) as [o Ho].
  cbn [Re.Cat] in Ho.
  destruct (run_Group_Plus_complete 1 in_line
              (Re.Seq (Re.Chr " ") (Re.Seq (Re.Chr "b") (Re.Seq (Re.Chr "y") (Re.Seq (Re.Chr " ")
                 (Re.Seq (Re.Group 2 (Re.Plus true Re.Dot)) (Re.Seq Re.Eol Re.Eps))))))
              false s 0 [] (fun s' e cs => Some (e, cs, s')) (String.length t) o) as [o' Ho'].
  - rewrite Hs, Str_length_app. destruct t; [congruence | simpl; lia].
  - rewrite Hs, Str_take_app. exact Hallt.
  - rewrite Hs, Str_take_app, Str_drop_app. exact Ho.
  - change (Re.CSet in_line) with Re.Dot in Ho'.
    rewrite Ho'. destruct o' as [[e cs] after]. eauto.
Qed.

(** parseTitleAndAuthor under the format '{{title}} by {{author}}'. *)
Lemma parseTitleAndAuthor_default settings filename :
  effective_format settings = "{{title}} by {{author}}" ->
  parseTitleAndAuthor settings filename =
  match Re.exec title_by_author (basename_of filename) with
  | Some m => Normal {| ta_title := group_text m 1; ta_author := Some (group_text m 2) |}
  | None => Normal {| ta_title := basename_of filename; ta_author := None |}
  end.
Proof.
  intros Hfmt. unfold parseTitleAndAuthor. rewrite Hfmt.
  change (RegExp_new ("^" +:+ filename_pattern "{{title}} by {{author}}" +:+ "$"))
    with (Some title_by_author).
  change (Str.indexOf "{{title}}" "{{title}} by {{author}}") with (Some 0).
  change (Str.indexOf "{{author}}" "{{title}} by {{author}}") with (Some 13).
  reflexivity.
Qed.

(** X4. With the format '{{title}} by {{author}}' (the default, also taken
    for an empty format): a basename of one line that holds ' by ' between
    two texts is split; the split is made at the last ' by ' that has text
    after it, the title being the longest there is; a basename that cannot
    be split so is the title, with no author. *)
Theorem parseTitleAndAuthor_last_by
    (settings : BookHighlightsPluginSettings) (filename : string) :
  effective_format settings = "{{title}} by {{author}}" ->
  let basename := basename_of filename in
  let result := parseTitleAndAuthor settings filename in
  (forall t a,
     basename = t +:+ " by " +:+ a -> t <> EmptyString -> a <> EmptyString ->
     every in_line basename = true ->
     exists title author,
       result = Normal {| ta_title := title; ta_author := Some author |})
  /\ (forall title author,
        result = Normal {| ta_title := title; ta_author := Some author |} ->
        basename = title +:+ " by " +:+ author
        /\ forall t a, basename = t +:+ " by " +:+ a -> a <> EmptyString ->
             String.length t <= String.length title)
  /\ ((forall t a, t <> EmptyString -> a <> EmptyString ->
         basename <> t +:+ " by " +:+ a) ->
      result = Normal {| ta_title := basename; ta_author := None |})
  /\ (every in_line basename = false ->
      result = Normal {| ta_title := basename; ta_author := None |}).
Proof.
  intros Hfmt basename result. subst result basename.
  rewrite (parseTitleAndAuthor_default _ _ Hfmt).
  split; [|split; [|split]].
  - intros t a Hs Ht Ha Hline.
    destruct (title_by_author_complete _ _ _ Hs Ht Ha Hline) as [m ->]. eauto.
  - intros title author H.
    destruct (Re.exec title_by_author (basename_of filename)) as [m|] eqn:E; [|discriminate].
    injection H as <- <-.
    destruct (title_by_author_exec _ _ E) as (Hs & _ & _ & _ & Hmax). split; assumption.
  - intros Hno.
    destruct (Re.exec title_by_author (basename_of filename)) as [m|] eqn:E; [|reflexivity].
    destruct (title_by_author_exec _ _ E) as (Hs & Ht & Ha & _). destruct (Hno _ _ Ht Ha Hs).
  - intros Hline.
    destruct (Re.exec title_by_author (basename_of filename)) as [m|] eqn:E; [|reflexivity].
    destruct (title_by_author_exec _ _ E) as (_ & _ & _ & Hl & _). congruence.
Qed.

Lemma parseTitleAndAuthor_last_by_twice :
  parseTitleAndAuthor DEFAULT_SETTINGS "Stand by Me by Stephen King.md"
  = Normal {| ta_title := "Stand by Me"; ta_author := Some "Stephen King" |}
  /\ exists title author,
       parseTitleAndAuthor DEFAULT_SETTINGS "Stand by Me by Stephen King.md"
       = Normal {| ta_title := title; ta_author := Some author |}.
Proof.
  split; [vm_compute; reflexivity|].
  destruct (parseTitleAndAuthor_last_by DEFAULT_SETTINGS "Stand by Me by Stephen King.md")
    as (Hsplit & _); [reflexivity|].
  apply (Hsplit "Stand" "Me by Stephen King"); [vm_compute; reflexivity | discriminate
    | discriminate | vm_compute; reflexivity].
Defined.

(** * The frontmatter block *)

Lemma every_any s : every (fun _ => true) s = true.
Proof. induction s as [|c s IH]; [reflexivity | exact IH]. Qed.

(** The end of the frontmatter pattern: a newline and the delimiter. *)
Lemma run_closing u pos cs (k : Re.cont) :
  Re.run false (Re.Seq (Re.Chr Chars.newline) (Re.Seq (Re.Lit "---") Re.Eps)) u pos cs k
  = if Str.startsWith closing u then k (Str.drop 4 u) (pos + 4) cs else None.
Proof.
  destruct u as [|x u]; [reflexivity|]. cbn [Re.run Re.char_eq].
  change (Str.startsWith closing (String x u))
    with (Ascii.eqb Chars.newline x && Str.startsWith "---" u).
  destruct (Ascii.eqb Chars.newline x); cbn [andb]; [|reflexivity].
  rewrite run_Lit. destruct (Str.startsWith "---" u); [|reflexivity].
  cbn [Re.run]. simpl. f_equal. lia.
Qed.

(** An occurrence of the closing delimiter does not begin in a text that
    holds none and is followed by one. *)
Lemma closing_not_across rest : forall u,
  u <> EmptyString -> Str.startsWith closing u = false ->
  Str.startsWith closing (u +:+ closing +:+ rest) = false.
Proof.
  intros u Hu H. unfold closing, Str.nl in *.
  rewrite (Str_app_cons _ _ "---"), Str_app_empty_l in *.
  destruct u as [|a [|b [|c [|d u]]]]; [congruence| | | |];
    rewrite ?Str_app_cons, ?Str_app_empty_l; cbn [Str.startsWith] in *;
    repeat match goal with
           | |- context [Ascii.eqb ?x ?y] => destruct (Ascii.eqb x y) eqn:?
           end;
    cbn [andb] in *; try reflexivity; try discriminate.
Qed.

Lemma closing_not_before rest : forall block i n,
  Str.indexOf_from closing block i = None ->
  n < String.length block ->
  Str.startsWith closing (Str.drop n (block +:+ closing +:+ rest)) = false.
Proof.
  induction block as [|c block IH]; intros i n Hno Hn; [simpl in Hn; lia|].
  cbn [Str.indexOf_from] in Hno.
  destruct (Str.startsWith closing (String c block)) eqn:E; [discriminate|].
  destruct n as [|n].
  - rewrite Str_drop_0. apply closing_not_across; [discriminate | exact E].
  - rewrite Str_app_cons. simpl. eapply IH; [exact Hno | simpl in Hn; lia].
Qed.

Lemma startsWith_take p : forall n s,
  Str.startsWith p (Str.take n s) = true -> Str.startsWith p s = true.
Proof.
  induction p as [|a p IH]; intros n s H; [reflexivity|].
  destruct n as [|n]; destruct s as [|c s]; try discriminate.
  cbn [Str.take Str.startsWith] in *.
  apply andb_true_iff in H as [Ha H]. rewrite Ha. eapply IH; exact H.
Qed.

Lemma indexOf_from_take p : p <> EmptyString -> forall n s i,
  (forall j, j < n -> Str.startsWith p (Str.drop j s) = false) ->
  Str.indexOf_from p (Str.take n s) i = None.
Proof.
  intros Hp. induction n as [|n IH]; intros s i Hno.
  - destruct s; cbn; destruct p; try congruence; reflexivity.
  - destruct s as [|c s].
    + cbn. destruct p; [congruence | reflexivity].
    + cbn [Str.take Str.indexOf_from].
      destruct (Str.startsWith p (String c (Str.take n s))) eqn:E.
      * apply (startsWith_take p (S n) (String c s)) in E.
        pose proof (Hno 0 ltac:(lia)) as H0. rewrite Str_drop_0 in H0. congruence.
      * apply IH. intros j Hj. apply (Hno (S j)). lia.
Qed.

Lemma run_Seq icase r1 r2 s pos cs k :
  Re.run icase (Re.Seq r1 r2) s pos cs k
  = Re.run icase r1 s pos cs (fun s' pos' cs' => Re.run icase r2 s' pos' cs' k).
Proof. reflexivity. Qed.

Lemma run_Group_eq icase g r s pos cs k :
  Re.run icase (Re.Group g r) s pos cs k
  = Re.run icase r s pos cs
      (fun s' pos' cs' => k s' pos' ((g, Str.take (pos' - pos) s) :: cs')).
Proof. reflexivity. Qed.

Lemma run_Star_eq icase greedy r s pos cs k :
  Re.run icase (Re.Star greedy r) s pos cs k
  = Re.iterate greedy (Re.run icase r) k (S (String.length s)) s pos cs.
Proof. reflexivity. Qed.

Lemma lazy_class_ext p (k1 k2 : Re.cont) :
  (forall s pos cs, k1 s pos cs = k2 s pos cs) ->
  forall s pos cs, lazy_class p k1 s pos cs = lazy_class p k2 s pos cs.
Proof.
  intros Hk. induction s as [|x s IH]; intros pos cs; cbn [lazy_class]; rewrite Hk.
  - reflexivity.
  - destruct (k2 (String x s) pos cs); [reflexivity|].
    destruct (p x); [apply IH | reflexivity].
Qed.

(** The frontmatter pattern after its opening line, on the text after that
    line: the lazy search for the closing delimiter. *)
Lemma run_frontmatter_block s1 pos cs k :
  Re.run false
    (Re.Seq (Re.Group 1 (Re.Star false Re.AnyChar))
       (Re.Seq (Re.Chr Chars.newline) (Re.Seq (Re.Lit "---") Re.Eps))) s1 pos cs k
  = lazy_class (fun _ => true)
      (fun s' pos' cs' =>
         if Str.startsWith closing s'
         then k (Str.drop 4 s') (pos' + 4) ((1, Str.take (pos' - pos) s1) :: cs')
         else None) s1 pos cs.
Proof.
  rewrite run_Seq, run_Group_eq, run_Star_eq.
  rewrite (iterate_lazy_class (fun _ => true) _ _ (reads_one_CSet false _)) by lia.
  apply lazy_class_ext. intros s pos' cs'. apply run_closing.
Qed.

Lemma run_Chr_step c rest x s pos cs k :
  Re.run false (Re.Seq (Re.Chr c) rest) (String x s) pos cs k
  = if Ascii.eqb c x then Re.run false rest s (S pos) cs k else None.
Proof. reflexivity. Qed.

(** The match of the frontmatter pattern, in full: the block is the text up
    to the first line that begins with the delimiter. *)
Lemma frontmatter_first_closing block rest :
  Str.indexOf closing block = None ->
  exists m,
    Re.exec Patterns.frontmatter ("---" +:+ Str.nl +:+ block +:+ closing +:+ rest) = Some m
    /\ group_text m 1 = block.
Proof.
  intros Hno. unfold Patterns.frontmatter. cbn [Re.Cat]. rewrite exec_Bol_attempt.
  unfold Re.attempt. cbn [Re.re_body Re.re_icase].
  change (Re.run false (Re.Seq Re.Bol ?r) ?s 0 [] ?k) with (Re.run false r s 0 [] k).
  set (s1 := block +:+ closing +:+ rest).
  change ("---" +:+ Str.nl +:+ s1)
    with (String "-" (String "-" (String "-" (String Chars.newline s1)))).
  rewrite run_Seq, run_Lit.
  change (Str.startsWith "---" (String "-" (String "-" (String "-" (String Chars.newline s1)))))
    with true.
  cbv iota. cbn [String.length Str.drop].
  rewrite run_Chr_here, run_frontmatter_block.
  erewrite (lazy_class_first (fun _ => true) _ _ s1 _ (String.length block)
              (S (0 + 3) + String.length block + 4, [(1, block)], rest)).
  - eexists. split; reflexivity.
  - subst s1. rewrite Str_length_app. lia.
  - apply every_any.
  - cbv beta. subst s1. rewrite Str_drop_app.
    replace (Str.startsWith closing (closing +:+ rest)) with true by reflexivity.
    replace (Str.drop 4 (closing +:+ rest)) with rest by reflexivity.
    replace (S (0 + 3) + String.length block - S (0 + 3)) with (String.length block) by lia.
    rewrite Str_take_app. reflexivity.
  - intros n' Hn'. cbv beta.
    subst s1. rewrite (closing_not_before rest block 0 n' Hno Hn'). reflexivity.
Qed.

(** And the other way round: the block of a match holds no line that
    begins with the delimiter, but for its first. *)
Lemma frontmatter_block_minimal content m :
  Re.exec Patterns.frontmatter content = Some m ->
  Str.indexOf closing (group_text m 1) = None.
Proof.
  unfold Patterns.frontmatter. cbn [Re.Cat]. rewrite exec_Bol_attempt.
  unfold Re.attempt. cbn [Re.re_body Re.re_icase].
  change (Re.run false (Re.Seq Re.Bol ?r) ?s 0 [] ?k) with (Re.run false r s 0 [] k).
  rewrite run_Seq, run_Lit.
  destruct (Str.startsWith "---" content); [|discriminate].
  destruct (Str.drop (String.length "---") content) as [|x s1]; [discriminate|].
  cbv beta. rewrite run_Chr_step.
  destruct (Ascii.eqb Chars.newline x); [|discriminate].
  rewrite run_frontmatter_block.
  destruct (lazy_class _ _ _ _ _) as [[[e cs] after]|] eqn:E; [|discriminate].
  intros H. injection H as <-.
  apply lazy_class_sound in E as (n & Hn & _ & Hk & Hmin).
  cbv beta in Hk.
  destruct (Str.startsWith closing (Str.drop n s1)); [|discriminate].
  injection Hk as _ <- _.
  unfold group_text, Re.m_group. cbn [Re.m_caps Re.cap Nat.eqb default from_option id].
  match goal with
  | |- Str.indexOf closing (Str.take ?a s1) = None => replace a with n by lia
  end.
  apply indexOf_from_take; [discriminate|].
  intros j Hj. specialize (Hmin j Hj). cbv beta in Hmin.
  destruct (Str.startsWith closing (Str.drop j s1)); [discriminate | reflexivity].
Qed.

(** X5. extractFrontmatter hands to js-yaml the text between the opening line
    and the first line feed after it that '---' follows, and nothing of what
    comes after: the closing line is the first line, from the third line of
    the note on, that begins with '---'; the second line belongs to the
    block, also when it begins with '---'.  For a note that starts with
    '---', a line feed, a block in which no line feed is followed by '---',
    a line feed and '---', the result is made of what js-yaml returns for
    the block (the value when truthy, the empty mapping when falsy, null
    when it throws); and every note that has frontmatter is of this
    shape. *)
Theorem extractFrontmatter_first_closing
    (yaml_load : string -> completion (option jsval)) :
  (forall block rest,
     Str.indexOf closing block = None ->
     extractFrontmatter yaml_load ("---" +:+ Str.nl +:+ block +:+ closing +:+ rest)
     = frontmatter_of (yaml_load block))
  /\ (forall content frontmatter,
        extractFrontmatter yaml_load content = Some frontmatter ->
        exists block rest,
          content = "---" +:+ Str.nl +:+ block +:+ closing +:+ rest
          /\ Str.indexOf closing block = None
          /\ Some frontmatter = frontmatter_of (yaml_load block)).
Proof.
  split.
  - intros block rest Hno. unfold extractFrontmatter.
    destruct (frontmatter_first_closing block rest Hno) as (m & -> & ->). reflexivity.
  - intros content frontmatter H. unfold extractFrontmatter in H.
    destruct (Re.exec Patterns.frontmatter content) as [m|] eqn:E; [|discriminate].
    exists (group_text m 1), (Re.m_after m).
    split; [|split].
    + rewrite (frontmatter_match _ _ E) at 1. unfold closing. rewrite !Str_app_assoc. reflexivity.
    + eapply frontmatter_block_minimal; exact E.
    + rewrite <- H. reflexivity.
Qed.

Lemma run_Alt_eq icase r1 r2 s pos cs k :
  Re.run icase (Re.Alt r1 r2) s pos cs k
  = match Re.run icase r1 s pos cs k with
    | Some o => Some o
    | None => Re.run icase r2 s pos cs k
    end.
Proof. reflexivity. Qed.

Lemma run_Bol_eq icase s pos cs k :
  Re.run icase Re.Bol s pos cs k = if (pos =? 0)%nat then k s pos cs else None.
Proof. reflexivity. Qed.

(** [c+], greedy. *)
Lemma run_Plus_Chr c s pos cs k :
  Re.run false (Re.Plus true (Re.Chr c)) s pos cs k
  = match s with
    | String x s' =>
        if Ascii.eqb c x then greedy_class (Ascii.eqb c) k s' (S pos) cs else None
    | EmptyString => None
    end.
Proof.
  unfold Re.Plus. rewrite run_Seq. destruct s as [|x s]; [reflexivity|].
  rewrite (reads_one_Chr c). destruct (Ascii.eqb c x); [|reflexivity].
  rewrite run_Star_eq.
  apply (iterate_greedy_class (Ascii.eqb c) _ _ (reads_one_Chr c)). lia.
Qed.

(** A greedy run at the end of the pattern reads all it can. *)
Lemma greedy_class_last c : forall s pos cs,
  exists e, pos <= e
    /\ greedy_class (Ascii.eqb c) (fun s' e cs' => Some (e, cs', s')) s pos cs
       = Some (e, cs, drop_leading c s).
Proof.
  induction s as [|x s IH]; intros pos cs; cbn [greedy_class drop_leading].
  - exists pos. split; [lia | reflexivity].
  - destruct (Ascii.eqb c x).
    + destruct (IH (S pos) cs) as (e & He & ->). exists e. split; [lia | reflexivity].
    + exists pos. split; [lia | reflexivity].
Qed.

(** A greedy run before [$] reads the whole of what is left, or fails. *)
Lemma greedy_class_eol p : forall s pos cs,
  greedy_class p
    (fun s' pos' cs' => Re.run false Re.Eol s' pos' cs' (fun s' e cs => Some (e, cs, s')))
    s pos cs
  = if every p s then Some (pos + String.length s, cs, EmptyString) else None.
Proof.
  induction s as [|x s IH]; intros pos cs; cbn [greedy_class every].
  - cbn. rewrite Nat.add_0_r. reflexivity.
  - destruct (p x); cbn [andb]; [|reflexivity].
    rewrite IH. destruct (every p s); [|reflexivity].
    simpl. rewrite Nat.add_succ_r. reflexivity.
Qed.

Lemma drop_trailing_empty c : forall s,
  every (Ascii.eqb c) s = true <-> drop_trailing c s = EmptyString.
Proof.
  induction s as [|x s IH]; cbn [every drop_trailing]; [tauto|].
  destruct (Ascii.eqb c x); cbn [andb].
  - rewrite IH. destruct (drop_trailing c s); cbn [Str.is_empty]; split; congruence.
  - split; discriminate.
Qed.

Lemma drop_trailing_cons c x s :
  every (Ascii.eqb c) (String x s) = false ->
  drop_trailing c (String x s) = String x (drop_trailing c s).
Proof.
  cbn [every drop_trailing]. intros H.
  destruct (Ascii.eqb c x); cbn [andb] in *; [|reflexivity].
  destruct (drop_trailing c s) eqn:E; [|reflexivity].
  apply drop_trailing_empty in E. congruence.
Qed.

(** An attempt where [^] cannot hold or no slash begins the input: the
    input must be slashes up to its end. *)
Lemma attempt_edge_tail s pos :
  0 < pos \/ Str.startsWith "/" s = false ->
  Re.attempt edge_slashes s pos
  = if negb (Str.is_empty s) && every (Ascii.eqb "/") s
    then Some (Re.Match pos s [] EmptyString EmptyString)
    else None.
Proof.
  intros Hpos. unfold Re.attempt, edge_slashes. cbn [Re.re_body Re.re_icase].
  rewrite run_Alt_eq.
  assert (HA : Re.run false (Re.Seq Re.Bol (Re.Plus true (Re.Chr "/"))) s pos []
                 (fun s' e cs => Some (e, cs, s')) = None).
  { rewrite run_Seq, run_Bol_eq. destruct (pos =? 0)%nat eqn:E; [|reflexivity].
    apply Nat.eqb_eq in E. destruct Hpos as [Hpos|Hs]; [lia|].
    rewrite run_Plus_Chr. destruct s as [|x s]; [reflexivity|].
    cbn [Str.startsWith] in Hs. rewrite andb_true_r in Hs. rewrite Hs. reflexivity. }
  rewrite HA, run_Seq, run_Plus_Chr.
  destruct s as [|x s]; [reflexivity|]. cbn [Str.is_empty negb andb every].
  destruct (Ascii.eqb "/" x); cbn [andb]; [|reflexivity].
  rewrite greedy_class_eol. destruct (every (Ascii.eqb "/") s); [|reflexivity].
  replace (S pos + String.length s - pos) with (S (String.length s)) by lia.
  change (S (String.length s)) with (String.length (String x s)).
  rewrite Str_take_all. reflexivity.
Qed.

Lemma search_edge_tail : forall s pos,
  0 < pos \/ Str.startsWith "/" s = false ->
  Re.search_from edge_slashes s pos
  = if String.eqb (drop_trailing "/" s) s then None
    else Some (Re.Match (pos + String.length (drop_trailing "/" s))
                 (Str.drop (String.length (drop_trailing "/" s)) s) []
                 (drop_trailing "/" s) EmptyString).
Proof.
  induction s as [|c s IH]; intros pos Hpos; cbn [Re.search_from];
    rewrite (attempt_edge_tail _ _ Hpos).
  - reflexivity.
  - cbn [Str.is_empty negb andb].
    destruct (every (Ascii.eqb "/") (String c s)) eqn:E.
    + pose proof (proj1 (drop_trailing_empty "/" _) E) as ->.
      cbn. rewrite Nat.add_0_r. reflexivity.
    + rewrite (drop_trailing_cons _ _ _ E).
      rewrite (IH (S pos)) by (left; lia).
      cbn [String.eqb]. rewrite Ascii.eqb_refl.
      destruct (String.eqb (drop_trailing "/" s) s); [reflexivity|].
      cbn. rewrite Nat.add_succ_r. reflexivity.
Qed.

Lemma replace_edge_empty rounds pos :
  Re.replace_all_from rounds edge_slashes (fun _ => EmptyString) EmptyString pos = EmptyString.
Proof.
  destruct rounds; [reflexivity|]. cbn [Re.replace_all_from Re.search_from].
  unfold Re.attempt, edge_slashes. cbn [Re.re_body Re.re_icase].
  rewrite run_Alt_eq, !run_Seq, run_Bol_eq, !run_Plus_Chr.
  destruct (pos =? 0)%nat; reflexivity.
Qed.

(** What [drop_trailing] drops. *)
Lemma drop_trailing_split c : forall s,
  exists r, s = drop_trailing c s +:+ r /\ every (Ascii.eqb c) r = true.
Proof.
  induction s as [|x s IH]; [exists EmptyString; split; reflexivity|].
  destruct (every (Ascii.eqb c) (String x s)) eqn:E.
  - pose proof (proj1 (drop_trailing_empty c _) E) as ->.
    exists (String x s). split; [reflexivity | exact E].
  - rewrite (drop_trailing_cons _ _ _ E). destruct IH as (r & Hs & Hr).
    exists r. rewrite Str_app_cons, <- Hs. split; [reflexivity | exact Hr].
Qed.

Lemma replace_edge_tail rounds s pos :
  0 < pos \/ Str.startsWith "/" s = false ->
  Re.replace_all_from (S rounds) edge_slashes (fun _ => EmptyString) s pos
  = drop_trailing "/" s.
Proof.
  intros Hpos. cbn [Re.replace_all_from]. rewrite (search_edge_tail _ _ Hpos).
  destruct (String.eqb (drop_trailing "/" s) s) eqn:E.
  - apply String.eqb_eq in E. congruence.
  - apply String.eqb_neq in E. cbn [Re.m_before Re.m_text Re.m_after Re.m_end].
    destruct (drop_trailing_split "/" s) as (r & Hs & Hr).
    assert (Hdrop : Str.drop (String.length (drop_trailing "/" s)) s = r).
    { rewrite Hs at 2. apply Str_drop_app. }
    rewrite Hdrop. destruct r as [|x r].
    + rewrite Str_app_empty_r in Hs. congruence.
    + cbn [Str.is_empty]. rewrite replace_edge_empty, Str_app_empty_l. apply Str_app_empty_r.
Qed.

Lemma drop_leading_none c s : Str.startsWith (String c EmptyString) s = false ->
  drop_leading c s = s.
Proof.
  destruct s as [|x s]; [reflexivity|]. cbn [Str.startsWith drop_leading].
  rewrite andb_true_r. intros ->. reflexivity.
Qed.

(** The folder setter removes the slashes at both ends. *)
Lemma strip_edge_slashes_closed value :
  strip_edge_slashes value = drop_trailing "/" (drop_leading "/" value).
Proof.
  unfold strip_edge_slashes, Re.replace_all.
  destruct (Str.startsWith "/" value) eqn:Hs.
  - destruct value as [|x v]; [discriminate|].
    cbn [Str.startsWith] in Hs. rewrite andb_true_r in Hs. apply Ascii.eqb_eq in Hs. subst x.
    cbn [Re.replace_all_from Re.search_from].
    assert (Ha : exists e, 1 <= e
              /\ Re.attempt edge_slashes (String "/" v) 0
                 = Some (Re.Match 0 (Str.take e (String "/" v)) [] EmptyString
                           (drop_leading "/" v))).
    { unfold Re.attempt, edge_slashes. cbn [Re.re_body Re.re_icase].
      rewrite run_Alt_eq, run_Seq, run_Bol_eq. cbn [Nat.eqb].
      rewrite run_Plus_Chr, Ascii.eqb_refl.
      destruct (greedy_class_last "/" v 1 []) as (e & He & ->).
      exists e. split; [exact He|]. rewrite Nat.sub_0_r. reflexivity. }
    destruct Ha as (e & He & ->).
    cbn [Re.m_before Re.m_text Re.m_after Re.m_end Re.m_index drop_leading].
    rewrite Ascii.eqb_refl.
    destruct e as [|e]; [lia|]. cbn [Str.take Str.is_empty String.length].
    rewrite !Str_app_empty_l. apply replace_edge_tail. left. unfold Re.m_end. simpl. lia.
  - rewrite (drop_leading_none _ _ Hs). apply replace_edge_tail. right. exact Hs.
Qed.

(** * The folder setting *)

Lemma drop_leading_split c : forall s,
  exists l, s = l +:+ drop_leading c s /\ every (Ascii.eqb c) l = true.
Proof.
  induction s as [|x s IH]; [exists EmptyString; split; reflexivity|].
  cbn [drop_leading]. destruct (Ascii.eqb c x) eqn:E.
  - destruct IH as (l & Hs & Hl). exists (String x l).
    rewrite Str_app_cons, <- Hs. cbn [every]. rewrite E, Hl. split; reflexivity.
  - exists EmptyString. split; reflexivity.
Qed.

Lemma drop_leading_head c : forall s,
  Str.startsWith (String c EmptyString) (drop_leading c s) = false.
Proof.
  induction s as [|x s IH]; [reflexivity|]. cbn [drop_leading].
  destruct (Ascii.eqb c x) eqn:E; [exact IH|].
  cbn [Str.startsWith]. rewrite E. reflexivity.
Qed.

Lemma drop_trailing_head c a s :
  Str.startsWith (String a EmptyString) s = false ->
  Str.startsWith (String a EmptyString) (drop_trailing c s) = false.
Proof.
  destruct s as [|x s]; [reflexivity|]. cbn [Str.startsWith drop_trailing].
  rewrite andb_true_r. intros Hx.
  destruct (Ascii.eqb c x && Str.is_empty (drop_trailing c s)); [reflexivity|].
  cbn [Str.startsWith]. rewrite Hx. reflexivity.
Qed.

Lemma drop_trailing_not_snoc c : forall s a, drop_trailing c s <> a +:+ String c EmptyString.
Proof.
  induction s as [|x s IH]; intros a; cbn [drop_trailing].
  - destruct a; discriminate.
  - destruct (Ascii.eqb c x) eqn:Ex; cbn [andb].
    + destruct (drop_trailing c s) as [|y t] eqn:Et; cbn [Str.is_empty].
      * destruct a; discriminate.
      * destruct a as [|b a]; [discriminate|].
        rewrite Str_app_cons. intros H. injection H as _ H. exact (IH a H).
    + destruct a as [|b a].
      * rewrite Str_app_empty_l. intros H. injection H as Hx _. subst x.
        rewrite Ascii.eqb_refl in Ex. discriminate.
      * rewrite Str_app_cons. intros H. injection H as _ H. exact (IH a H).
Qed.

Lemma endsWith_split p s :
  Str.endsWith p s = true -> exists a, s = a +:+ p.
Proof.
  unfold Str.endsWith. intros H. apply andb_true_iff in H as [_ H].
  apply String.eqb_eq in H.
  exists (Str.take (String.length s - String.length p) s).
  pose proof (Str_take_drop (String.length s - String.length p) s) as Hs.
  rewrite H in Hs. symmetry. exact Hs.
Qed.

Lemma endsWith_snoc p a : Str.endsWith p (a +:+ p) = true.
Proof.
  unfold Str.endsWith. rewrite Str_length_app.
  replace (String.length a + String.length p - String.length p) with (String.length a) by lia.
  rewrite Str_drop_app, String.eqb_refl.
  rewrite (proj2 (Nat.leb_le _ _)) by lia. reflexivity.
Qed.

Lemma drop_trailing_no_end c s :
  Str.endsWith (String c EmptyString) (drop_trailing c s) = false.
Proof.
  destruct (Str.endsWith (String c EmptyString) (drop_trailing c s)) eqn:E; [|reflexivity].
  apply endsWith_split in E as [a Ha]. destruct (drop_trailing_not_snoc c s a Ha).
Qed.

Lemma every_snoc c : forall r,
  every (Ascii.eqb c) r = true -> r <> EmptyString ->
  exists r', r = r' +:+ String c EmptyString.
Proof.
  induction r as [|x r IH]; intros H Hne; [congruence|].
  cbn [every] in H. apply andb_true_iff in H as [Hx Hr]. apply Ascii.eqb_eq in Hx. subst x.
  destruct r as [|y r].
  - exists EmptyString. reflexivity.
  - destruct (IH Hr) as [r' Hr']; [discriminate|].
    exists (String c r'). rewrite Str_app_cons, <- Hr'. reflexivity.
Qed.

Lemma drop_trailing_none c s :
  Str.endsWith (String c EmptyString) s = false -> drop_trailing c s = s.
Proof.
  intros H. destruct (drop_trailing_split c s) as (r & Hs & Hr).
  destruct r as [|x r]; [rewrite Str_app_empty_r in Hs; congruence|].
  destruct (every_snoc c _ Hr) as [r' Hr']; [discriminate|].
  rewrite Hr', <- Str_app_assoc in Hs. rewrite Hs, endsWith_snoc in H. discriminate.
Qed.

(** X6. The handler of the folder setting removes the slashes the text begins
    and ends with, and nothing else: the folder stored neither begins nor
    ends with a slash, a text without a slash at either end is stored as it
    is, and so is what was stored once. *)
Theorem strip_edge_slashes_spec (value : string) :
  let folder := strip_edge_slashes value in
  (exists l r,
     value = l +:+ folder +:+ r
     /\ every (Ascii.eqb "/") l = true /\ every (Ascii.eqb "/") r = true)
  /\ Str.startsWith "/" folder = false
  /\ Str.endsWith "/" folder = false
  /\ (Str.startsWith "/" value = false -> Str.endsWith "/" value = false -> folder = value)
  /\ strip_edge_slashes folder = folder
  /\ highlightsFolder (onChange (HighlightsFolder value) DEFAULT_SETTINGS) = folder.
Proof.
  cbv zeta. rewrite !strip_edge_slashes_closed.
  set (inner := drop_leading "/" value).
  assert (Hstart : Str.startsWith "/" (drop_trailing "/" inner) = false).
  { apply drop_trailing_head. apply drop_leading_head. }
  split; [|split; [exact Hstart|split; [apply drop_trailing_no_end|split; [|split]]]].
  - destruct (drop_leading_split "/" value) as (l & Hv & Hl).
    destruct (drop_trailing_split "/" inner) as (r & Hi & Hr).
    exists l, r. split; [|split; assumption].
    rewrite <- Hi. exact Hv.
  - intros Hs He. subst inner. rewrite (drop_leading_none _ _ Hs).
    apply drop_trailing_none. exact He.
  - rewrite (drop_leading_none _ _ Hstart). apply drop_trailing_none, drop_trailing_no_end.
  - cbn [onChange highlightsFolder with_highlightsFolder].
    apply strip_edge_slashes_closed.
Qed.

(** * The number settings *)

Lemma digit_char_value d : (0 <= d < 10)%Z ->
  digit_value 10 (digit_char d) = Some d /\ Chars.is_digit (digit_char d) = true.
Proof.
  intros H.
  assert (Hd : (d = 0 \/ d = 1 \/ d = 2 \/ d = 3 \/ d = 4 \/ d = 5 \/ d = 6 \/ d = 7
                \/ d = 8 \/ d = 9)%Z) by lia.
  repeat (destruct Hd as [->|Hd]; [split; reflexivity|]). subst d. split; reflexivity.
Qed.

Lemma decimal_digits_value : forall fuel n acc,
  (0 <= n < 10 * 2 ^ Z.of_nat fuel)%Z ->
  digits_value 10 (decimal_digits fuel n acc) None = digits_value 10 acc (Some n).
Proof.
  assert (Hlast : forall n acc, (0 <= n < 10)%Z ->
            digits_value 10 (String (digit_char (n mod 10)) acc) None
            = digits_value 10 acc (Some n)).
  { intros n acc Hn. rewrite Z.mod_small by lia. cbn [digits_value].
    rewrite (proj1 (digit_char_value n Hn)). cbn [default from_option id].
    replace (10 * 0 + n)%Z with n by lia. reflexivity. }
  induction fuel as [|fuel IH]; intros n acc Hn; cbn [decimal_digits].
  - apply Hlast. change (2 ^ Z.of_nat 0)%Z with 1%Z in Hn. lia.
  - destruct (n <? 10)%Z eqn:E.
    + apply Z.ltb_lt in E. apply Hlast. lia.
    + apply Z.ltb_ge in E. rewrite IH.
      * cbn [digits_value].
        rewrite (proj1 (digit_char_value (n mod 10) (Z.mod_pos_bound n 10 eq_refl))).
        cbn [default from_option id].
        replace (10 * (n / 10) + n mod 10)%Z with n
          by (pose proof (Z.div_mod n 10); lia).
        reflexivity.
      * rewrite Nat2Z.inj_succ, Z.pow_succ_r in Hn by lia.
        split; [apply Z.div_pos; lia|].
        apply Z.div_lt_upper_bound; [lia|].
        assert (0 < 2 ^ Z.of_nat fuel)%Z by (apply Z.pow_pos_nonneg; lia). lia.
Qed.

Lemma decimal_digits_every : forall fuel n acc,
  (0 <= n)%Z -> every Chars.is_digit acc = true ->
  every Chars.is_digit (decimal_digits fuel n acc) = true
  /\ decimal_digits fuel n acc <> EmptyString.
Proof.
  assert (Hlast : forall n acc, every Chars.is_digit acc = true ->
            every Chars.is_digit (String (digit_char (n mod 10)) acc) = true).
  { intros n acc Hacc. cbn [every].
    rewrite (proj2 (digit_char_value (n mod 10) (Z.mod_pos_bound n 10 eq_refl))). exact Hacc. }
  induction fuel as [|fuel IH]; intros n acc Hn Hacc; cbn [decimal_digits].
  - split; [apply Hlast; exact Hacc | discriminate].
  - destruct (n <? 10)%Z.
    + split; [apply Hlast; exact Hacc | discriminate].
    + apply IH; [apply Z.div_pos; lia | apply Hlast; exact Hacc].
Qed.

Lemma log2_fuel n : (0 <= n)%Z -> (0 <= n < 10 * 2 ^ Z.of_nat (Z.to_nat (Z.log2 n)))%Z.
Proof.
  intros Hn. rewrite Z2Nat.id by apply Z.log2_nonneg.
  destruct (Z.eq_dec n 0%Z) as [->|Hne]; [cbn; lia|].
  pose proof (Z.log2_spec n ltac:(lia)) as [_ H].
  rewrite Z.pow_succ_r in H by apply Z.log2_nonneg. lia.
Qed.

Lemma is_digit_not c x : Chars.is_digit c = true -> Chars.is_digit x = false ->
  Ascii.eqb x c = false.
Proof.
  intros Hc Hx. destruct (Ascii.eqb x c) eqn:E; [|reflexivity].
  apply Ascii.eqb_eq in E. congruence.
Qed.

Lemma magnitude_digits s :
  every Chars.is_digit s = true -> magnitude s = digits_value 10 s None.
Proof.
  intros Hs. unfold magnitude.
  assert (Hhex : Str.startsWith "0x" s || Str.startsWith "0X" s = false).
  { destruct s as [|c [|b s]]; [reflexivity| |]; cbn [Str.startsWith].
    - destruct (Ascii.eqb "0" c); reflexivity.
    - cbn [every] in Hs. apply andb_true_iff in Hs as [_ Hs].
      apply andb_true_iff in Hs as [Hb _].
      rewrite (is_digit_not b "x" Hb eq_refl), (is_digit_not b "X" Hb eq_refl).
      destruct (Ascii.eqb "0" c); reflexivity. }
  rewrite Hhex. reflexivity.
Qed.

Lemma no_sign s : every Chars.is_digit s = true ->
  Str.startsWith "-" s = false /\ Str.startsWith "+" s = false /\ Str.ltrim s = s.
Proof.
  destruct s as [|c s]; [repeat split|]. cbn [every]. intros H.
  apply andb_true_iff in H as [Hc _].
  cbn [Str.startsWith Str.ltrim]. rewrite !andb_true_r.
  rewrite (is_digit_not c "-" Hc eq_refl), (is_digit_not c "+" Hc eq_refl).
  rewrite (is_digit_not_space _ Hc). repeat split.
Qed.

(** The text a number is shown as reads back as the number. *)
Lemma parseInt_Number_toString n : parseInt (Number_toString n) = Some n.
Proof.
  unfold Number_toString. destruct (n <? 0)%Z eqn:E.
  - apply Z.ltb_lt in E.
    destruct (decimal_digits_every (Z.to_nat (Z.log2 (- n))) (- n) EmptyString)
      as [Hall Hne]; [lia | reflexivity|].
    pose proof (decimal_digits_value _ _ EmptyString (log2_fuel (- n) ltac:(lia))) as Hv.
    set (ds := decimal_digits (Z.to_nat (Z.log2 (- n))) (- n) EmptyString) in *.
    rewrite Str_app_cons, Str_app_empty_l. unfold parseInt.
    change (Str.ltrim (String "-" ds)) with (String "-" ds).
    change (Str.startsWith "-" (String "-" ds)) with true.
    cbn [orb Str.drop]. rewrite (magnitude_digits _ Hall), Hv. cbn [digits_value].
    f_equal. lia.
  - apply Z.ltb_ge in E.
    destruct (decimal_digits_every (Z.to_nat (Z.log2 n)) n EmptyString)
      as [Hall Hne]; [lia | reflexivity|].
    pose proof (decimal_digits_value _ _ EmptyString (log2_fuel n E)) as Hv.
    set (ds := decimal_digits (Z.to_nat (Z.log2 n)) n EmptyString) in *.
    unfold parseInt. destruct (no_sign _ Hall) as (Hm & Hp & ->).
    rewrite Hm, Hp. cbn [orb]. rewrite (magnitude_digits _ Hall), Hv. reflexivity.
Qed.

Lemma settings_eta (s : BookHighlightsPluginSettings) :
  {| autoRefresh := autoRefresh s; showBookTitle := showBookTitle s;
     showAuthor := showAuthor s; showComments := showComments s;
     showMetadata := showMetadata s; maxHighlights := maxHighlights s;
     randomHighlightsCount := randomHighlightsCount s;
     refreshInterval := refreshInterval s; filterProperty := filterProperty s;
     filterValue := filterValue s; highlightExample := highlightExample s;
     highlightsFolder := highlightsFolder s; filenameFormat := filenameFormat s |} = s.
Proof. destruct s; reflexivity. Qed.

(** X7. Each field of the tab shows the stored value ([toString()] for a
    number), and a change event with the text shown stores that value again,
    with these exceptions: a display count below 1 becomes 1; a refresh
    interval of 0, shown as '0', becomes 300, and a negative one becomes 0;
    an empty filter property becomes 'type' and an empty filename format
    the default format; a folder loses the slashes at its ends. *)
Theorem onChange_shown_value (settings : BookHighlightsPluginSettings) :
  safe_integer (maxHighlights settings) ->
  safe_integer (randomHighlightsCount settings) ->
  safe_integer (refreshInterval settings) ->
  onChange (MaxHighlights (Number_toString (maxHighlights settings))) settings = settings
  /\ randomHighlightsCount
       (onChange (RandomHighlightsCount (Number_toString (randomHighlightsCount settings)))
          settings)
     = Z.max 1 (randomHighlightsCount settings)
  /\ refreshInterval
       (onChange (RefreshInterval (Number_toString (refreshInterval settings))) settings)
     = (if (refreshInterval settings =? 0)%Z then 300%Z
        else Z.max 0 (refreshInterval settings))
  /\ Number_toString 0 = "0"
  /\ refreshInterval (onChange (RefreshInterval "0") settings) = 300%Z
  /\ onChange (FilterValue (filterValue settings)) settings = settings
  /\ filterProperty (onChange (FilterProperty (filterProperty settings)) settings)
     = (if Str.is_empty (filterProperty settings) then "type" else filterProperty settings)
  /\ filenameFormat (onChange (FilenameFormat (filenameFormat settings)) settings)
     = effective_format settings
  /\ highlightsFolder (onChange (HighlightsFolder (highlightsFolder settings)) settings)
     = drop_trailing "/" (drop_leading "/" (highlightsFolder settings)).
Proof.
  intros _ _ _.
  split; [|split; [|split; [|split; [reflexivity|split; [reflexivity|split; [|split; [|split]]]]]]].
  - cbn [onChange]. rewrite parseInt_Number_toString. unfold with_maxHighlights, number_or.
    destruct (maxHighlights settings =? 0)%Z eqn:E.
    + apply Z.eqb_eq in E. rewrite <- E. apply settings_eta.
    + apply settings_eta.
  - cbn [onChange randomHighlightsCount with_randomHighlightsCount].
    rewrite parseInt_Number_toString. unfold number_or.
    destruct (randomHighlightsCount settings =? 0)%Z eqn:E; [apply Z.eqb_eq in E; lia | reflexivity].
  - cbn [onChange refreshInterval with_refreshInterval].
    rewrite parseInt_Number_toString. unfold number_or.
    destruct (refreshInterval settings =? 0)%Z; reflexivity.
  - cbn [onChange]. unfold with_filter. apply settings_eta.
  - reflexivity.
  - reflexivity.
  - cbn [onChange highlightsFolder with_highlightsFolder]. apply strip_edge_slashes_closed.
Qed.

Lemma onChange_shown_value_defaults :
  onChange (MaxHighlights "50") DEFAULT_SETTINGS = DEFAULT_SETTINGS
  /\ refreshInterval (onChange (RefreshInterval "0") DEFAULT_SETTINGS) = 300%Z.
Proof.
  destruct (onChange_shown_value DEFAULT_SETTINGS) as (Hmax & _ & _ & _ & Hzero & _);
    try (unfold safe_integer; cbn; lia).
  split; [exact Hmax | exact Hzero].
Defined.

Lemma number_or_bounds n d : (0 < d)%Z -> (number_or n d <> 0)%Z.
Proof.
  intros Hd. unfold number_or. destruct n as [n|]; [|lia].
  destruct (n =? 0)%Z eqn:E; [lia | apply Z.eqb_neq in E; exact E].
Qed.

Lemma onChange_keeps c settings :
  tab_invariant settings -> tab_invariant (onChange c settings).
Proof.
  unfold tab_invariant. intros (Hcount & Hint & Hprop & Hfmt & Hstart & Hend).
  destruct c; cbn [onChange randomHighlightsCount refreshInterval filterProperty
                     filenameFormat highlightsFolder with_toggles with_maxHighlights
                     with_randomHighlightsCount with_refreshInterval with_filter
                     with_filenameFormat with_highlightsFolder];
    repeat split; try assumption; try lia.
  - destruct value; [discriminate | discriminate].
  - destruct value; [discriminate | discriminate].
  - rewrite strip_edge_slashes_closed. apply drop_trailing_head, drop_leading_head.
  - rewrite strip_edge_slashes_closed. apply drop_trailing_no_end.
Qed.

(** X8. The handlers of the tab keep a display count of at least 1, a refresh
    interval of at least 0, a filter property and a filename format that
    are not empty and a folder without a slash at either end: these hold of
    the default settings and of the settings after any sequence of changes
    made in the tab. *)
Theorem onChange_invariant
    (settings : BookHighlightsPluginSettings) (changes : list change) :
  Forall in_range changes ->
  tab_invariant settings ->
  tab_invariant (fold_left (fun s c => onChange c s) changes settings)
  /\ tab_invariant (fold_left (fun s c => onChange c s) changes DEFAULT_SETTINGS).
Proof.
  intros _ Hinv.
  assert (Hfold : forall s, tab_invariant s ->
            tab_invariant (fold_left (fun s c => onChange c s) changes s)).
  { induction changes as [|c changes IH]; intros s Hs; [exact Hs|].
    cbn [fold_left]. apply IH. apply onChange_keeps. exact Hs. }
  split; [apply Hfold; exact Hinv|].
  apply Hfold. unfold tab_invariant. cbn. repeat split; try lia; discriminate.
Qed.

Lemma onChange_invariant_typing :
  tab_invariant
    (fold_left (fun s c => onChange c s)
       [RandomHighlightsCount "0"; RefreshInterval "-5"; FilterProperty EmptyString;
        HighlightsFolder "/books/"] DEFAULT_SETTINGS).
Proof.
  destruct (onChange_invariant DEFAULT_SETTINGS
              [RandomHighlightsCount "0"; RefreshInterval "-5"; FilterProperty EmptyString;
               HighlightsFolder "/books/"]) as [H _].
  - repeat constructor; unfold in_range; cbn; lia.
  - unfold tab_invariant. cbn. repeat split; try lia; discriminate.
  - exact H.
Defined.

(** * The cards *)

(** X9. The metadata line of a card holds the items the highlight has, page,
    location and date in this order, with one separator between any two
    neighbours and none before the first or after the last. *)
Theorem metadata_spans_separated (h : BookHighlight) :
  metadata_spans h = separated separator (map span (metadata_items h))
  /\ length (metadata_spans h) = 2 * length (metadata_items h) - 1
  /\ (metadata_items h = [] <->
      page h = EmptyString /\ location h = EmptyString /\ date h = EmptyString).
Proof.
  unfold metadata_spans, metadata_items.
  destruct (page h), (location h), (date h); cbn [Str.is_empty andb app map separated length];
    (split; [reflexivity|split; [reflexivity|]]); split;
    try discriminate; try (intros (? & ? & ?); discriminate); auto.
Qed.

Lemma metadata_spans_classes h :
  map el_cls (flat_map (fun child => child :: descendants child) (metadata_spans h))
  = map (fun _ => EmptyString) (metadata_spans h).
Proof.
  unfold metadata_spans. destruct (page h), (location h), (date h); reflexivity.
Qed.

Lemma In_map_empty {A : Type} (x : string) (l : list A) :
  In x (map (fun _ => EmptyString) l) -> x = EmptyString.
Proof. induction l as [|y l IH]; [intros [] | intros [H|H]; [congruence | exact (IH H)]]. Qed.

Section Cards.

Variable createEl : string -> string -> option jsval -> completion unit.
Hypothesis createEl_creates : forall tag cls text, createEl tag cls text = Normal tt.

Lemma create_creates tag cls text inside :
  create createEl tag cls text inside = ([El tag cls text (fst inside)], snd inside).
Proof using createEl_creates. unfold create. rewrite createEl_creates. reflexivity. Qed.

Lemma create_all_leaves : forall elements,
  Forall (fun e => el_children e = []) elements ->
  create_all createEl elements = (elements, Normal tt).
Proof using createEl_creates.
  unfold create_all. induction 1 as [|e elements He _ IH]; [reflexivity|].
  cbn [forEach]. rewrite IH. destruct e as [tag cls text children].
  cbn [el_children] in He. subst children.
  rewrite create_creates. reflexivity.
Qed.

Lemma create_all_metadata_spans h :
  create_all createEl (metadata_spans h) = (metadata_spans h, Normal tt).
Proof using createEl_creates.
  apply create_all_leaves. unfold metadata_spans.
  destruct (page h), (location h), (date h); cbn [Str.is_empty andb app];
    repeat constructor.
Qed.

(** The elements a card holds after the title: the text, the comment and
    the metadata line. *)
Lemma card_creates settings h :
  let link := El "a" "book-title-link" (Some (bookTitle h)) [] in
  let after_title :=
    [El "div" "highlight-text" (Some (VStr (text h))) []]
    ++ (if showComments settings && negb (Str.is_empty (comment h))
        then [El "div" "highlight-comment" (Some (VStr ("Note: " +:+ comment h))) []]
        else [])
    ++ (if showMetadata settings
        then [El "div" "highlight-meta" None (metadata_spans h)]
        else []) in
  card createEl settings h
  = if author_line settings h then
      match JS_String (author h) with
      | Throw => ([title_only h], Throw)
      | Normal name =>
          ([El "div" "book-highlight-card" None
              (El "h4" "book-title-container" None
                 [link; El "span" "book-author" (Some (VStr (" by " +:+ name))) []]
               :: after_title)],
           Normal tt)
      end
    else
      ([El "div" "book-highlight-card" None
          ((if showBookTitle settings
            then [El "h4" "book-title-container" None [link]] else [])
           ++ after_title)],
       Normal tt).
Proof using createEl_creates.
  cbv zeta. unfold card, author_line, title_only.
  rewrite !create_creates, create_all_metadata_spans.
  destruct (showBookTitle settings); cbn [andb].
  - destruct (showAuthor settings && truthy (Some (author h))).
    + destruct (JS_String (author h)) as [name|].
      * rewrite !create_creates.
        destruct (showComments settings && negb (Str.is_empty (comment h))),
                 (showMetadata settings); reflexivity.
      * reflexivity.
    + destruct (showComments settings && negb (Str.is_empty (comment h))),
               (showMetadata settings); reflexivity.
  - destruct (showComments settings && negb (Str.is_empty (comment h))),
             (showMetadata settings); reflexivity.
Qed.

End Cards.

Local Ltac class_cases b settings :=
  destruct b, (showMetadata settings);
  cbn [app map el_cls flat_map descendants In]; rewrite ?List.app_nil_r;
  intuition (try discriminate; try congruence).

(** X10. What a card shows, when the host makes every element asked of it.
    The callback throws when it comes to the author line (titles and authors
    are shown and the highlight has an author) and the author does not
    convert to a string: the card then holds the title link only, not the
    text.  In every other case the card is complete: it shows the text of
    the highlight; the title link when titles are shown; the author when
    the callback comes to the author line; the comment when comments are
    shown and there is one; the metadata line when metadata is shown, be it
    empty. *)
Theorem card_shows
    (createEl : string -> string -> option jsval -> completion unit)
    (settings : BookHighlightsPluginSettings) (h : BookHighlight) :
  (forall tag cls text, createEl tag cls text = Normal tt) ->
  (author_line settings h = true -> JS_String (author h) = Throw ->
   card createEl settings h = ([title_only h], Throw))
  /\ (author_line settings h = false \/ JS_String (author h) <> Throw ->
      exists e,
        card createEl settings h = ([e], Normal tt)
        /\ In (El "div" "highlight-text" (Some (VStr (text h))) []) (el_children e)
        /\ (In "book-title-link" (classes_in e) <-> showBookTitle settings = true)
        /\ (In "book-author" (classes_in e) <-> author_line settings h = true)
        /\ (forall name,
              author_line settings h = true -> JS_String (author h) = Normal name ->
              In (El "span" "book-author" (Some (VStr (" by " +:+ name))) [])
                (descendants e))
        /\ (In "highlight-comment" (classes_in e) <->
            showComments settings = true /\ comment h <> EmptyString)
        /\ (In "highlight-meta" (classes_in e) <-> showMetadata settings = true)
        /\ (showBookTitle settings = false -> showComments settings = false ->
            showMetadata settings = false ->
            e = El "div" "book-highlight-card" None
                  [El "div" "highlight-text" (Some (VStr (text h))) []])).
Proof.
  intros Hhost. rewrite (card_creates createEl Hhost). cbv zeta.
  split; [intros -> ->; reflexivity|].
  intros Hok.
  assert (Hmeta : forall x, x <> EmptyString ->
            ~ In x (map el_cls
                      (flat_map (fun child => child :: descendants child)
                         (metadata_spans h)))).
  { intros x Hx Hin. rewrite metadata_spans_classes in Hin.
    apply Hx. eapply In_map_empty; exact Hin. }
  pose proof (Hmeta "book-title-link" ltac:(discriminate)) as Hm1.
  pose proof (Hmeta "book-author" ltac:(discriminate)) as Hm2.
  pose proof (Hmeta "highlight-comment" ltac:(discriminate)) as Hm3.
  pose proof (Hmeta "highlight-meta" ltac:(discriminate)) as Hm4.
  clear Hmeta.
  assert (Hcomment : showComments settings && negb (Str.is_empty (comment h)) = true
                     <-> showComments settings = true /\ comment h <> EmptyString).
  { rewrite andb_true_iff, negb_true_iff. destruct (comment h); cbn; intuition congruence. }
  set (b2 := showComments settings && negb (Str.is_empty (comment h))) in *.
  set (metas := map el_cls
                  (flat_map (fun child => child :: descendants child) (metadata_spans h)))
    in *.
  unfold author_line in *.
  destruct (showBookTitle settings) eqn:Ht; cbn [andb] in *.
  - destruct (showAuthor settings && truthy (Some (author h))) eqn:Ha.
    + destruct (JS_String (author h)) as [name|] eqn:Es;
        [|destruct Hok as [Hok|Hok]; [discriminate Hok | congruence]].
      eexists. split; [reflexivity|]. unfold classes_in.
      cbn [el_children descendants flat_map app map el_cls]. fold metas.
      split; [right; left; reflexivity|].
      split; [split; [reflexivity | intros _; right; left; reflexivity]|].
      split; [split; [reflexivity | intros _; right; right; left; reflexivity]|].
      split; [intros name' _ Hn; injection Hn as <-; right; right; left; reflexivity|].
      split; [|split; [|intros H; discriminate H]].
      * rewrite <- Hcomment. class_cases b2 settings.
      * class_cases b2 settings.
    + eexists. split; [reflexivity|]. unfold classes_in.
      cbn [el_children descendants flat_map app map el_cls]. fold metas.
      split; [right; left; reflexivity|].
      split; [split; [reflexivity | intros _; right; left; reflexivity]|].
      split.
      { class_cases b2 settings. }
      split; [intros name H; discriminate H|].
      split; [|split; [|intros H; discriminate H]].
      * rewrite <- Hcomment. class_cases b2 settings.
      * class_cases b2 settings.
  - eexists. split; [reflexivity|]. unfold classes_in.
    cbn [el_children descendants flat_map app map el_cls]. fold metas.
    split; [left; reflexivity|].
    split.
    { class_cases b2 settings. }
    split.
    { class_cases b2 settings. }
    split; [intros name H; discriminate H|].
    split; [|split].
    * rewrite <- Hcomment. class_cases b2 settings.
    * class_cases b2 settings.
    * intros _ Hc Hm. subst b2. rewrite Hc, Hm. reflexivity.
Qed.

(** What a card shows, for a highlight with an author and for one whose
    author is a mapping with a key 'toString', at the default settings. *)
Lemma card_shows_authors :
  (exists e,
     card Sample.createEl DEFAULT_SETTINGS
       {| bookTitle := VStr "Dune"; author := VStr "Frank Herbert"; date := EmptyString;
          page := "42"; location := EmptyString; text := "Fear is the mind-killer";
          comment := EmptyString; sourceFile := "Dune.md" |}
     = ([e], Normal tt)
     /\ In (El "span" "book-author" (Some (VStr " by Frank Herbert")) []) (descendants e))
  /\ card Sample.createEl DEFAULT_SETTINGS
       {| bookTitle := VStr "Dune"; author := VObj {[ "toString" := VStr "x" ]};
          date := EmptyString; page := "42"; location := EmptyString;
          text := "Fear is the mind-killer"; comment := EmptyString;
          sourceFile := "Dune.md" |}
     = ([El "div" "book-highlight-card" None
           [El "h4" "book-title-container" None
              [El "a" "book-title-link" (Some (VStr "Dune")) []]]],
        Throw).
Proof.
  split.
  - destruct (card_shows Sample.createEl DEFAULT_SETTINGS
                {| bookTitle := VStr "Dune"; author := VStr "Frank Herbert";
                   date := EmptyString; page := "42"; location := EmptyString;
                   text := "Fear is the mind-killer"; comment := EmptyString;
                   sourceFile := "Dune.md" |})
      as [_ H]; [reflexivity|].
    destruct H as (e & He & _ & _ & _ & Hauthor & _); [right; discriminate|].
    exists e. split; [exact He|]. apply Hauthor; reflexivity.
  - destruct (card_shows Sample.createEl DEFAULT_SETTINGS
                {| bookTitle := VStr "Dune"; author := VObj {[ "toString" := VStr "x" ]};
                   date := EmptyString; page := "42"; location := EmptyString;
                   text := "Fear is the mind-killer"; comment := EmptyString;
                   sourceFile := "Dune.md" |})
      as [H _]; [reflexivity|].
    apply H; reflexivity.
Defined.

(** * The scan, file by file *)

Section ScanMore.

Variable yaml_load : string -> completion (option jsval).
Variable JSON_parse : string -> completion jsval.
Variable prototype_get : jsval -> string -> property.
Variable vault_read : string -> completion string.

Local Abbreviation scan' := (scan yaml_load JSON_parse prototype_get vault_read).
Local Abbreviation file_highlights' := (file_highlights yaml_load JSON_parse prototype_get vault_read).
Local Abbreviation raw_highlights' := (raw_highlights yaml_load JSON_parse prototype_get vault_read).
Local Abbreviation yields' := (yields yaml_load JSON_parse prototype_get vault_read).

Lemma scan_pool_start settings files :
  fst (scan' settings files [] [])
  = if (0 <? maxHighlights settings)%Z
    then firstn (Z.to_nat (maxHighlights settings)) (raw_highlights' settings files)
    else raw_highlights' settings files.
Proof.
  rewrite (scan_pool yaml_load JSON_parse prototype_get vault_read settings files [] []
             (cap_reached_nil settings)).
  rewrite raw_highlights_concat. reflexivity.
Qed.

(** X11. The cap in general.  With a cap above 0 the pool is what the files
    yield, in the order met, cut after cap highlights: never more than the
    cap, and all of them when they are fewer.  With a cap of 0, or below, the
    pool is all the files yield.  What a change of the cap setting to a text
    stores follows: no cut for a text parseInt does not read. *)
Theorem scan_cap (settings : BookHighlightsPluginSettings) (files : list string) :
  let raw := raw_highlights' settings files in
  let pool := fst (scan' settings files [] []) in
  let max := maxHighlights settings in
  ((0 < max)%Z -> pool = firstn (Z.to_nat max) raw /\ length pool <= Z.to_nat max)
  /\ ((max <= 0)%Z -> pool = raw)
  /\ ((Z.of_nat (length raw) <= max)%Z -> pool = raw)
  /\ (exists rest, raw = pool ++ rest)
  /\ (forall value,
        parseInt value = None ->
        fst (scan' (onChange (MaxHighlights value) settings) files [] []) = raw).
Proof.
  cbv zeta. rewrite scan_pool_start.
  split; [|split; [|split; [|split]]].
  - intros Hpos. apply Z.ltb_lt in Hpos. rewrite Hpos. split; [reflexivity|].
    rewrite List.length_firstn. lia.
  - intros Hle. apply Z.ltb_ge in Hle. rewrite Hle. reflexivity.
  - intros Hle. destruct (0 <? maxHighlights settings)%Z; [|reflexivity].
    apply List.firstn_all2. lia.
  - destruct (0 <? maxHighlights settings)%Z.
    + eexists. symmetry. apply List.firstn_skipn.
    + exists []. symmetry. apply List.app_nil_r.
  - intros value Hnan. rewrite scan_pool_start.
    cbn [onChange]. rewrite Hnan. reflexivity.
Qed.

Lemma concat_yields settings files :
  concat (map (file_highlights' settings) (List.filter (yields' settings) files))
  = concat (map (file_highlights' settings) files).
Proof.
  induction files as [|path files IH]; [reflexivity|].
  cbn [List.filter map concat]. unfold yields at 1.
  destruct (file_highlights' settings path) as [|h hs] eqn:E; cbn [length Nat.ltb Nat.leb].
  - exact IH.
  - cbn [map concat]. rewrite E, IH. reflexivity.
Qed.

Lemma file_highlights_source settings path :
  Forall (fun h => sourceFile h = path) (file_highlights' settings path).
Proof.
  unfold file_highlights.
  destruct (vault_read path) as [content|]; [|constructor].
  destruct (extractFrontmatter yaml_load content) as [frontmatter|]; [|constructor].
  destruct (passes_filter JSON_parse prototype_get settings frontmatter) as [[|]|];
    [|constructor|constructor].
  destruct (extractHighlights_invariant (fun h => sourceFile h = path)
              settings content path frontmatter) as (hs & -> & Hall); [|exact Hall].
  intros parsed m h _ H. apply highlight_of_match_fields in H as [-> _]. reflexivity.
Qed.

Lemma file_highlights_nonempty settings path h :
  In h (file_highlights' settings path) ->
  exists content frontmatter,
    vault_read path = Normal content
    /\ extractFrontmatter yaml_load content = Some frontmatter
    /\ passes_filter JSON_parse prototype_get settings frontmatter = Normal true.
Proof.
  unfold file_highlights.
  destruct (vault_read path) as [content|]; [|intros []].
  destruct (extractFrontmatter yaml_load content) as [frontmatter|] eqn:Ef; [|intros []].
  destruct (passes_filter JSON_parse prototype_get settings frontmatter) as [[|]|] eqn:E;
    [|intros []|intros []].
  intros _. exists content, frontmatter. repeat split; assumption.
Qed.

(** X12. One file does not stop the pass, and only the files that yield
    highlights count: a file whose read throws, a file without frontmatter
    and a file the filter does not let pass (it rejects it, or its test
    throws) add nothing, and the pool is the same without them; every
    highlight of the pool names as its source a file of the scan that was
    read, has frontmatter and passes the filter. *)
Theorem scan_isolates_files (settings : BookHighlightsPluginSettings) (files : list string) :
  let pool := fst (scan' settings files [] []) in
  pool = fst (scan' settings (List.filter (yields' settings) files) [] [])
  /\ (forall path, vault_read path = Throw -> yields' settings path = false)
  /\ (forall path content,
        vault_read path = Normal content -> extractFrontmatter yaml_load content = None ->
        yields' settings path = false)
  /\ (forall path content frontmatter,
        vault_read path = Normal content ->
        extractFrontmatter yaml_load content = Some frontmatter ->
        passes_filter JSON_parse prototype_get settings frontmatter <> Normal true ->
        yields' settings path = false)
  /\ Forall (fun h =>
               In (sourceFile h) files
               /\ exists content frontmatter,
                    vault_read (sourceFile h) = Normal content
                    /\ extractFrontmatter yaml_load content = Some frontmatter
                    /\ passes_filter JSON_parse prototype_get settings frontmatter = Normal true)
       pool.
Proof.
  cbv zeta. split; [|split; [|split; [|split]]].
  - rewrite !scan_pool_start, !raw_highlights_concat, concat_yields. reflexivity.
  - intros path H. unfold yields, file_highlights. rewrite H. reflexivity.
  - intros path content H Hf. unfold yields, file_highlights. rewrite H, Hf. reflexivity.
  - intros path content frontmatter H Hf Hp. unfold yields, file_highlights.
    rewrite H, Hf.
    destruct (passes_filter JSON_parse prototype_get settings frontmatter) as [[|]|];
      [congruence | reflexivity | reflexivity].
  - assert (Hraw : Forall (fun h =>
               In (sourceFile h) files
               /\ exists content frontmatter,
                    vault_read (sourceFile h) = Normal content
                    /\ extractFrontmatter yaml_load content = Some frontmatter
                    /\ passes_filter JSON_parse prototype_get settings frontmatter = Normal true)
             (raw_highlights' settings files)).
    { rewrite raw_highlights_concat. apply List.Forall_forall. intros h Hin.
      apply in_concat in Hin as (hs & Hhs & Hin). apply in_map_iff in Hhs as (path & <- & Hpath).
      pose proof (file_highlights_source settings path) as Hsrc.
      rewrite List.Forall_forall in Hsrc. rewrite (Hsrc h Hin).
      split; [exact Hpath|]. eapply file_highlights_nonempty; exact Hin. }
    rewrite scan_pool_start. destruct (0 <? maxHighlights settings)%Z; [|exact Hraw].
    apply List.Forall_forall. intros h Hin. rewrite List.Forall_forall in Hraw.
    apply Hraw.
    rewrite <- (List.firstn_skipn (Z.to_nat (maxHighlights settings))
                  (raw_highlights' settings files)).
    apply in_or_app. left. exact Hin.
Qed.

End ScanMore.

(** * Passes in a row *)

Section PassesFacts.

Variable yaml_load : string -> completion (option jsval).
Variable JSON_parse : string -> completion jsval.
Variable prototype_get : jsval -> string -> property.
Variable random_source : nat -> Q.
Variable Array_sort : forall A : Type, (A -> A -> rand Q) -> list A -> rand (list A).
Variable createEl : string -> string -> option jsval -> completion unit.

Local Abbreviation refresh_pass' :=
  (refresh_pass yaml_load JSON_parse prototype_get random_source Array_sort createEl).
Local Abbreviation refresh_passes' :=
  (refresh_passes yaml_load JSON_parse prototype_get random_source Array_sort createEl).
Local Abbreviation caught' :=
  (caught yaml_load JSON_parse prototype_get random_source Array_sort createEl).
Local Abbreviation caught_passes' :=
  (caught_passes yaml_load JSON_parse prototype_get random_source Array_sort createEl).

(** One pass: a paragraph more when it ends in the catch, and the
    container where it was. *)
Lemma refresh_pass_errors v p :
  errors_shown (refresh_pass' v p) = errors_shown v + (if caught' v p then 1 else 0)
  /\ find_container (contentEl (refresh_pass' v p)) = find_container (contentEl v).
Proof.
  unfold refresh_pass, caught, errors_shown.
  destruct (refreshHighlights_catch yaml_load JSON_parse prototype_get (pass_read p)
              random_source Array_sort createEl (pass_files p) (pass_settings p) v)
    as [_ Hcontent].
  cbv zeta in Hcontent. rewrite Hcontent. clear Hcontent.
  set (tried := refreshHighlights_try _ _ _ _ _ _ _ _ _ _).
  assert (Htried : List.filter is_error (contentEl (fst tried))
                   = List.filter is_error (contentEl v)
                   /\ find_container (contentEl (fst tried)) = find_container (contentEl v)).
  { destruct (refreshHighlights_try_contentEl yaml_load JSON_parse prototype_get
                (pass_read p) random_source Array_sort createEl (pass_files p)
                (pass_settings p) v) as [H | (i & children & Hfind & H)];
      fold tried in H; rewrite H; [split; reflexivity|].
    destruct (find_container_lookup _ _ Hfind) as [old Hold].
    rewrite (filter_is_error_insert _ _ _ _ Hold).
    split; [reflexivity|]. rewrite Hfind. apply find_container_insert. exact Hfind. }
  destruct Htried as [Hfilter Hfind].
  destruct (snd tried) as [u|].
  - rewrite List.app_nil_r, Hfilter, Hfind. split; [lia | reflexivity].
  - rewrite List.filter_app, List.length_app, Hfilter.
    unfold error_paragraph at 2. rewrite find_container_app_paragraph, Hfind.
    split; reflexivity.
Qed.

Lemma refresh_passes_container (passes : list pass) (v : View) :
  find_container (contentEl (refresh_passes' passes v)) = find_container (contentEl v).
Proof.
  unfold refresh_passes. revert v.
  induction passes as [|p passes IH]; intros v; cbn [fold_left]; [reflexivity|].
  rewrite IH. apply refresh_pass_errors.
Qed.

(** X13. The paragraph a pass adds when it ends in the catch stays:
    refreshHighlights never removes it, so after passes in a row the pane
    shows one error paragraph more for every pass that ended in the catch,
    whatever the later ones did; and the place of the container does not
    change.  A pass ends in the catch when the listing of the vault throws,
    and when the pane has its container and the display of the list
    published throws. *)
Theorem error_paragraphs_stay (passes : list pass) (v : View) :
  errors_shown (refresh_passes' passes v) = errors_shown v + caught_passes' passes v
  /\ find_container (contentEl (refresh_passes' passes v)) = find_container (contentEl v)
  /\ (forall p,
        caught' v p = true <->
        pass_files p = Throw
        \/ exists files,
             pass_files p = Normal files
             /\ find_container (contentEl v) <> None
             /\ let scanned := scan yaml_load JSON_parse prototype_get (pass_read p)
                                 (pass_settings p)
                                 (files_in_scope (pass_settings p) files) [] [] in
                snd (displayed random_source Array_sort createEl (pass_settings p)
                       (publish (fst scanned) (snd scanned) v)) = Throw).
Proof.
  split; [|split; [apply refresh_passes_container|]].
  - unfold refresh_passes. revert v.
    induction passes as [|p passes IH]; intros v; cbn [fold_left caught_passes].
    + lia.
    + rewrite IH. destruct (refresh_pass_errors v p) as [-> _]. lia.
  - intros p. unfold caught. destruct (pass_files p) as [files|].
    + rewrite refreshHighlights_try_listed. cbv zeta.
      set (published := publish _ _ v).
      destruct (displayHighlights_cases random_source Array_sort createEl
                  (pass_settings p) published) as [_ H].
      replace (contentEl published) with (contentEl v) in H
        by (symmetry; apply pool_publish).
      destruct (find_container (contentEl v)) as [i|].
      * destruct H as [_ ->]. split.
        -- intros Hc. right. exists files. split; [reflexivity|]. split; [discriminate|].
           destruct (snd (displayed _ _ _ _ _)); [discriminate Hc | reflexivity].
        -- intros [Hthrow | (files' & Hfiles & _ & Hd)]; [discriminate Hthrow|].
           injection Hfiles as <-. fold published in Hd. rewrite Hd. reflexivity.
      * rewrite H. cbn [snd]. split; [discriminate|].
        intros [Hthrow | (files' & _ & Hne & _)]; [discriminate Hthrow | congruence].
    + split; [intros _; left; reflexivity | reflexivity].
Qed.

End PassesFacts.

(** * What a pass displays *)

(** A card whose callback did not throw is one element. *)
Lemma card_complete createEl settings h :
  snd (card createEl settings h) = Normal tt ->
  exists e, card createEl settings h = ([e], Normal tt).
Proof.
  unfold card. generalize (and_then
    (if showBookTitle settings
     then create createEl "h4" "book-title-container" None
            (and_then
               (create createEl "a" "book-title-link" (Some (bookTitle h)) nothing)
               (if showAuthor settings && truthy (Some (author h))
                then match JS_String (author h) with
                     | Normal name =>
                         create createEl "span" "book-author"
                           (Some (VStr (" by " +:+ name))) nothing
                     | Throw => ([], Throw)
                     end
                else nothing))
     else nothing)
    (and_then
       (create createEl "div" "highlight-text" (Some (VStr (text h))) nothing)
       (and_then
          (if showComments settings && negb (Str.is_empty (comment h))
           then create createEl "div" "highlight-comment"
                  (Some (VStr ("Note: " +:+ comment h))) nothing
           else nothing)
          (if showMetadata settings
           then create createEl "div" "highlight-meta" None
                  (create_all createEl (metadata_spans h))
           else nothing)))) as inside.
  intros inside. unfold create.
  destruct (createEl "div" "book-highlight-card" None); [|discriminate].
  cbn [fst snd]. intros ->. eexists. reflexivity.
Qed.

Lemma forEach_complete {A : Type} (callback : A -> creation) items :
  Forall (fun x => snd (callback x) = Normal tt) items ->
  snd (forEach callback items) = Normal tt.
Proof.
  intros Hall. pose proof (forEach_spec callback items) as H.
  destruct (snd (forEach callback items)) as [[]|]; [reflexivity|].
  destruct H as (done & h & rest & -> & _ & Hh & _).
  apply List.Forall_app in Hall as [_ Hall]. inversion Hall as [|? ? Hx _]; subst.
  congruence.
Qed.

Section Display.

Variable yaml_load : string -> completion (option jsval).
Variable JSON_parse : string -> completion jsval.
Variable prototype_get : jsval -> string -> property.
Variable random_source : nat -> Q.
Variable Array_sort : forall A : Type, (A -> A -> rand Q) -> list A -> rand (list A).
Variable createEl : string -> string -> option jsval -> completion unit.

Hypothesis Array_sort_permutes' :
  forall (A : Type) (comparefn : A -> A -> rand Q) (items : list A) (calls : nat),
    Permutation (fst (Array_sort A comparefn items calls)) items.

(** The sample of a pool that is not empty, under a display count of at
    least 1. *)
Lemma sampled_nonempty settings v :
  (1 <= randomHighlightsCount settings)%Z -> pool v <> [] ->
  let shown := sampled random_source Array_sort settings v in
  length shown = Nat.min (Z.to_nat (randomHighlightsCount settings)) (length (pool v))
  /\ shown <> []
  /\ exists rest, Permutation (shown ++ rest) (pool v).
Proof using Array_sort_permutes'.
  intros Hcount Hne shown. subst shown.
  destruct (sampled_cases random_source Array_sort settings v)
    as [[Hpool _] | (sorted & calls & _ & Hsort & ->)]; [congruence|].
  pose proof (Array_sort_permutes' BookHighlight (comparefn random_source) (pool v)
                (random_calls v)) as Hperm.
  rewrite Hsort in Hperm. cbn [fst] in Hperm.
  pose proof (Permutation_length Hperm) as Hlen.
  assert (Hpos : 0 < length (pool v)) by (destruct (pool v); [congruence | simpl; lia]).
  unfold Array_slice0. rewrite Hlen.
  set (n := length (pool v)) in *. set (N := randomHighlightsCount settings) in *.
  assert (Hk : (if (Z.min N (Z.of_nat n) <? 0)%Z
                then Z.max (Z.of_nat n + Z.min N (Z.of_nat n)) 0
                else Z.min (Z.min N (Z.of_nat n)) (Z.of_nat n))
               = Z.min N (Z.of_nat n)).
  { destruct (Z.min N (Z.of_nat n) <? 0)%Z eqn:E; [apply Z.ltb_lt in E; lia | lia]. }
  rewrite Hk.
  assert (Hm : Z.to_nat (Z.min N (Z.of_nat n)) = Nat.min (Z.to_nat N) n) by lia.
  rewrite Hm.
  assert (Hsel : length (firstn (Nat.min (Z.to_nat N) n) sorted) = Nat.min (Z.to_nat N) n).
  { rewrite List.length_firstn. lia. }
  split; [exact Hsel|]. split.
  - intros Hnil. rewrite Hnil in Hsel. simpl in Hsel. lia.
  - exists (skipn (Nat.min (Z.to_nat N) n) sorted). rewrite List.firstn_skipn. exact Hperm.
Qed.

(** X14. A pass whose listing does not throw, on a pane that has its
    container, under a display count of at least 1 and an engine whose sort
    permutes.  When the display does not throw, the children of the
    container are replaced and nothing else of the pane is touched; they are
    the one paragraph 'No highlights found' when the scan found nothing,
    else one complete card for each of min(count, pool size) highlights
    taken from the pool published, no position twice.  The display does not
    throw when the host makes every element asked of it and, for every
    highlight of the pool, the callback does not come to the author line or
    the author converts to a string. *)
Theorem refreshHighlights_displays
    (settings : BookHighlightsPluginSettings) (files : list string)
    (read : string -> completion string) (v : View) (i : nat) :
  (1 <= randomHighlightsCount settings)%Z ->
  find_container (contentEl v) = Some i ->
  let tried := refreshHighlights_try yaml_load JSON_parse prototype_get (Normal files) read
                 random_source Array_sort createEl settings v in
  let v' := refreshHighlights yaml_load JSON_parse prototype_get (Normal files) read
              random_source Array_sort createEl settings v in
  (snd tried = Normal tt ->
   exists children,
     contentEl v' = <[i := Container children]> (contentEl v)
     /\ (pool v' = [] -> children = [no_highlights_paragraph])
     /\ (pool v' <> [] ->
         exists shown rest,
           Forall2 (fun h e => card createEl settings h = ([e], Normal tt)) shown children
           /\ length shown
              = Nat.min (Z.to_nat (randomHighlightsCount settings)) (length (pool v'))
           /\ Permutation (shown ++ rest) (pool v')))
  /\ ((forall tag cls text, createEl tag cls text = Normal tt) ->
      Forall (fun h => author_line settings h = false \/ JS_String (author h) <> Throw)
        (pool v') ->
      snd tried = Normal tt).
Proof using Array_sort_permutes'.
  intros Hcount Hfind tried v'.
  destruct (refreshHighlights_catch yaml_load JSON_parse prototype_get read random_source
              Array_sort createEl (Normal files) settings v) as [Hpool Hcontent].
  cbv zeta in Hpool, Hcontent. fold tried in Hpool, Hcontent. fold v' in Hpool, Hcontent.
  assert (Htried : tried = displayHighlights random_source Array_sort createEl settings
                             (publish
                                (fst (scan yaml_load JSON_parse prototype_get read settings
                                        (files_in_scope settings files) [] []))
                                (snd (scan yaml_load JSON_parse prototype_get read settings
                                        (files_in_scope settings files) [] []))
                                v))
    by apply refreshHighlights_try_listed.
  set (published := publish _ _ v) in Htried.
  destruct (displayHighlights_cases random_source Array_sort createEl settings published)
    as [Hkeeps Hcases].
  rewrite <- Htried in Hkeeps, Hcases.
  replace (contentEl published) with (contentEl v) in Hcases by (symmetry; apply pool_publish).
  rewrite Hfind in Hcases. destruct Hcases as [Hel Hout].
  rewrite Hkeeps in Hpool. rewrite Hpool. unfold displayed in Hel, Hout.
  split.
  - intros Hdone. rewrite Hdone in Hcontent. rewrite List.app_nil_r in Hcontent.
    rewrite Hcontent, Hel. eexists. split; [reflexivity|]. split.
    + intros Hnil.
      destruct (sampled_cases random_source Array_sort settings published)
        as [[_ Hs] | (sorted & calls & Hne & _)]; [|congruence].
      rewrite Hs in Hout |- *. cbn [length Nat.eqb] in Hout |- *.
      rewrite Hout in Hdone. unfold create in Hdone |- *.
      destruct (createEl _ _ _); [reflexivity | discriminate Hdone].
    + intros Hne.
      destruct (sampled_nonempty settings published Hcount Hne) as (Hlen & Hshown & rest & Hperm).
      exists (sampled random_source Array_sort settings published), rest.
      split; [|split; assumption].
      destruct (sampled random_source Array_sort settings published) as [|h shown] eqn:Es;
        [congruence|].
      cbn [length Nat.eqb] in Hout |- *. rewrite Hout in Hdone.
      pose proof (forEach_spec (card createEl settings) (h :: shown)) as Hf.
      rewrite Hdone in Hf. destruct Hf as [Hall ->].
      clear -Hall. induction Hall as [|x l Hx _ IH]; [constructor|].
      destruct (card_complete _ _ _ Hx) as [e He]. cbn [map concat]. rewrite He.
      cbn [fst app]. constructor; [exact He | exact IH].
  - intros Hhost Hauthors. rewrite Hout.
    destruct (sampled random_source Array_sort settings published) as [|h shown] eqn:Es.
    + cbn [length Nat.eqb]. unfold create. rewrite Hhost. reflexivity.
    + cbn [length Nat.eqb]. apply forEach_complete.
      assert (Hne : pool published <> []).
      { intros Hnil.
        destruct (sampled_cases random_source Array_sort settings published)
          as [[_ Hs] | (sorted & calls & Hne & _)]; congruence. }
      destruct (sampled_nonempty settings published Hcount Hne) as (_ & _ & rest & Hperm).
      rewrite Es in Hperm. apply List.Forall_forall. intros x Hin.
      rewrite List.Forall_forall in Hauthors.
      assert (Hx : In x (pool published)).
      { eapply Permutation_in; [exact Hperm|]. apply in_or_app. left. exact Hin. }
      specialize (Hauthors x Hx).
      rewrite (card_creates createEl Hhost). cbv zeta.
      destruct (author_line settings x); [|reflexivity].
      destruct (JS_String (author x)); [reflexivity|].
      destruct Hauthors as [H|H]; [discriminate H | congruence].
Qed.

End Display.

(** A pass over the vault of four book notes, at the default settings: the
    display does not throw, and the container holds five cards. *)
Lemma refreshHighlights_displays_vault :
  let tried := refreshHighlights_try Sample.yaml_load Sample.JSON_parse Sample.prototype_get
                 (Normal Examples.vault_paths) Examples.vault_read
                 (Sample.source_of_coins []) Sample.insertion_sort Sample.createEl
                 DEFAULT_SETTINGS Examples.view in
  let v' := refreshHighlights Sample.yaml_load Sample.JSON_parse Sample.prototype_get
              (Normal Examples.vault_paths) Examples.vault_read
              (Sample.source_of_coins []) Sample.insertion_sort Sample.createEl
              DEFAULT_SETTINGS Examples.view in
  snd tried = Normal tt
  /\ exists children,
       contentEl v' = [Header; Container children]
       /\ (pool v' <> [] -> length children = Nat.min 5 (length (pool v'))).
Proof.
  cbv zeta.
  destruct (refreshHighlights_displays Sample.yaml_load Sample.JSON_parse
              Sample.prototype_get (Sample.source_of_coins []) Sample.insertion_sort
              Sample.createEl insertion_sort_permutes
              DEFAULT_SETTINGS Examples.vault_paths Examples.vault_read Examples.view 1)
    as [Hdone Hcomplete].
  - cbn. lia.
  - reflexivity.
  - assert (Htried : snd (refreshHighlights_try Sample.yaml_load Sample.JSON_parse
                            Sample.prototype_get (Normal Examples.vault_paths)
                            Examples.vault_read (Sample.source_of_coins [])
                            Sample.insertion_sort Sample.createEl DEFAULT_SETTINGS
                            Examples.view) = Normal tt).
    { apply Hcomplete; [reflexivity|].
      vm_compute. repeat (constructor; [left; reflexivity|]). constructor. }
    split; [exact Htried|].
    destruct (Hdone Htried) as (children & Hcontent & _ & Hcards).
    exists children. split; [exact Hcontent|].
    intros Hne. destruct (Hcards Hne) as (shown & rest & Hall & Hlen & _).
    rewrite <- (Forall2_length _ _ _ Hall). exact Hlen.
Defined.

(** * The intervals of the pane *)

Section Intervals.

Variable setInterval_handle : intervals -> nat.
Hypothesis setInterval_handle_fresh : forall window, setInterval_handle window ∉ dom window.
Hypothesis setInterval_handle_positive : forall window, 0 < setInterval_handle window.

Lemma clear_refreshInterval_others others p :
  pane_interval others p ->
  this_refreshInterval (clear_refreshInterval p) = None
  /\ pane_window (clear_refreshInterval p) = others
  /\ pane_view (clear_refreshInterval p) = pane_view p.
Proof.
  unfold clear_refreshInterval.
  intros [[Hnone Hw] | (h & delay & Hsome & Hpos & Hfresh & Hw)].
  - rewrite Hnone. auto.
  - rewrite Hsome. destruct (h =? 0)%nat eqn:E; [apply Nat.eqb_eq in E; lia|].
    cbn [this_refreshInterval pane_window pane_view]. rewrite Hw.
    split; [reflexivity|]. split; [|reflexivity].
    apply delete_insert_id. apply not_elem_of_dom. exact Hfresh.
Qed.

Lemma setupAutoRefresh_interval others settings p :
  pane_interval others p ->
  pane_interval others (setupAutoRefresh setInterval_handle settings p)
  /\ pane_view (setupAutoRefresh setInterval_handle settings p) = pane_view p
  /\ (autoRefresh settings = true -> (0 < refreshInterval settings)%Z ->
      exists h,
        this_refreshInterval (setupAutoRefresh setInterval_handle settings p) = Some h
        /\ pane_window (setupAutoRefresh setInterval_handle settings p)
           = <[h := (refreshInterval settings * 1000)%Z]> others)
  /\ (autoRefresh settings = false \/ (refreshInterval settings <= 0)%Z ->
      this_refreshInterval (setupAutoRefresh setInterval_handle settings p) = None
      /\ pane_window (setupAutoRefresh setInterval_handle settings p) = others).
Proof using setInterval_handle_fresh setInterval_handle_positive.
  intros Hp. destruct (clear_refreshInterval_others others p Hp) as (Hnone & Hw & Hv).
  unfold setupAutoRefresh.
  destruct (autoRefresh settings && (0 <? refreshInterval settings)%Z) eqn:E.
  - apply andb_true_iff in E as [Ha Hi]. apply Z.ltb_lt in Hi.
    cbn [this_refreshInterval pane_window pane_view]. rewrite Hw.
    split; [|split; [exact Hv|split]].
    + right. exists (setInterval_handle others), (refreshInterval settings * 1000)%Z.
      cbn [this_refreshInterval pane_window]. auto.
    + intros _ _. eexists. split; reflexivity.
    + intros [Hoff | Hle]; [congruence | lia].
  - split; [left; auto|]. split; [exact Hv|]. split.
    + intros Ha Hi. apply Z.ltb_lt in Hi. rewrite Ha, Hi in E. discriminate.
    + intros _. auto.
Qed.

(** X15. The pane never holds two intervals, and leaves none behind.  Whatever
    the settings at the successive calls of setupAutoRefresh, the window
    holds, next to the intervals of others, which are untouched, at most one
    interval of the pane: the one of the last call, with a delay of 1000
    times the refresh interval, when auto-refresh was on and the interval
    above 0 at that call.  After onClose the window holds the intervals of
    others only, and the pane is empty. *)
Theorem setupAutoRefresh_single
    (others : intervals) (calls : list BookHighlightsPluginSettings) (p : Pane) :
  pane_interval others p ->
  let p' := fold_left (fun p settings => setupAutoRefresh setInterval_handle settings p)
              calls p in
  pane_interval others p'
  /\ (forall settings,
        let p'' := setupAutoRefresh setInterval_handle settings p' in
        (autoRefresh settings = true -> (0 < refreshInterval settings)%Z ->
         exists h,
           this_refreshInterval p'' = Some h
           /\ pane_window p'' = <[h := (refreshInterval settings * 1000)%Z]> others)
        /\ (autoRefresh settings = false \/ (refreshInterval settings <= 0)%Z ->
            this_refreshInterval p'' = None /\ pane_window p'' = others))
  /\ this_refreshInterval (onClose p') = None
  /\ pane_window (onClose p') = others
  /\ contentEl (pane_view (onClose p')) = [].
Proof using setInterval_handle_fresh setInterval_handle_positive.
  intros Hp p'. subst p'.
  assert (Hfold : pane_interval others
            (fold_left (fun p settings => setupAutoRefresh setInterval_handle settings p)
               calls p)).
  { revert p Hp. induction calls as [|settings calls IH]; intros p Hp; [exact Hp|].
    cbn [fold_left]. apply IH. apply setupAutoRefresh_interval. exact Hp. }
  split; [exact Hfold|]. split.
  - intros settings p''. subst p''.
    destruct (setupAutoRefresh_interval others settings _ Hfold) as (_ & _ & Hon & Hoff).
    split; assumption.
  - destruct (clear_refreshInterval_others others _ Hfold) as (Hnone & Hw & _).
    unfold onClose. cbn [this_refreshInterval pane_window pane_view with_contentEl contentEl].
    auto.
Qed.

(** X16. The pane after onOpen: the header and the container, in this order,
    whatever the pane held before, followed by the error paragraph exactly
    when the first pass ended in the catch (the listing of the vault threw,
    or the display did); the container is found, as it will be by every
    later pass; and the interval is set up by the settings of the moment. *)
Theorem onOpen_pane
    (yaml_load : string -> completion (option jsval))
    (JSON_parse : string -> completion jsval)
    (prototype_get : jsval -> string -> property)
    (getMarkdownFiles : completion (list string))
    (vault_read : string -> completion string)
    (random_source : nat -> Q)
    (Array_sort : forall A : Type, (A -> A -> rand Q) -> list A -> rand (list A))
    (createEl : string -> string -> option jsval -> completion unit)
    (others : intervals) (settings : BookHighlightsPluginSettings) (p : Pane) :
  pane_interval others p ->
  let p' := onOpen setInterval_handle yaml_load JSON_parse prototype_get getMarkdownFiles
              vault_read random_source Array_sort createEl settings p in
  let opened := with_contentEl (pane_view p) [Header; Container []] in
  let first := {| pass_settings := settings; pass_files := getMarkdownFiles;
                  pass_read := vault_read |} in
  let message :=
    Paragraph EmptyString "Error loading highlights. Check console for details." in
  pane_interval others p'
  /\ find_container (contentEl (pane_view p')) = Some 1
  /\ (forall passes,
        find_container
          (contentEl (refresh_passes yaml_load JSON_parse prototype_get random_source
                        Array_sort createEl passes (pane_view p'))) = Some 1)
  /\ (exists children,
        contentEl (pane_view p')
        = Header :: Container children
          :: (if caught yaml_load JSON_parse prototype_get random_source Array_sort createEl
                   opened first
              then [message] else []))
  /\ (getMarkdownFiles = Throw ->
      contentEl (pane_view p') = [Header; Container []; message])
  /\ (this_refreshInterval p' <> None <->
      autoRefresh settings = true /\ (0 < refreshInterval settings)%Z).
Proof using setInterval_handle_fresh setInterval_handle_positive.
  intros Hp p' opened first message. subst p'. unfold onOpen. fold opened.
  set (shown := refreshHighlights yaml_load JSON_parse prototype_get getMarkdownFiles
                  vault_read random_source Array_sort createEl settings opened).
  set (p0 := {| pane_view := shown; this_refreshInterval := this_refreshInterval p;
                pane_window := pane_window p |}).
  assert (Hp0 : pane_interval others p0).
  { destruct Hp as [[Hn Hw] | (h & delay & Hs & Hpos & Hf & Hw)].
    - left. split; assumption.
    - right. exists h, delay. auto. }
  destruct (setupAutoRefresh_interval others settings p0 Hp0) as (Hint & Hview & Hon & Hoff).
  rewrite Hview. cbn [pane_view p0].
  assert (Hfind : find_container (contentEl shown) = Some 1).
  { pose proof (refresh_pass_errors yaml_load JSON_parse prototype_get random_source
                  Array_sort createEl opened first) as [_ H].
    exact H. }
  split; [exact Hint|]. split; [exact Hfind|]. split; [|split; [|split]].
  - intros passes.
    rewrite (refresh_passes_container yaml_load JSON_parse prototype_get random_source
               Array_sort createEl passes shown).
    exact Hfind.
  - destruct (refreshHighlights_catch yaml_load JSON_parse prototype_get vault_read
                random_source Array_sort createEl getMarkdownFiles settings opened)
      as [_ Hcontent].
    cbv zeta in Hcontent. fold shown in Hcontent. rewrite Hcontent.
    unfold caught. cbn [pass_files pass_read pass_settings first].
    destruct (refreshHighlights_try_contentEl yaml_load JSON_parse prototype_get vault_read
                random_source Array_sort createEl getMarkdownFiles settings opened)
      as [H | (i & children & Hi & H)]; rewrite H.
    + exists []. destruct (snd (refreshHighlights_try _ _ _ _ _ _ _ _ _ _)); reflexivity.
    + cbn in Hi. injection Hi as <-. exists children.
      destruct (snd (refreshHighlights_try _ _ _ _ _ _ _ _ _ _)); reflexivity.
  - intros Hthrow. subst shown. rewrite Hthrow. reflexivity.
  - split.
    + intros Hsome.
      destruct (autoRefresh settings) eqn:Ha.
      * destruct (Z.ltb_spec 0 (refreshInterval settings)) as [Hi|Hi]; [auto|].
        destruct (Hoff (or_intror Hi)) as [Hnone _]. congruence.
      * destruct (Hoff (or_introl eq_refl)) as [Hnone _]. congruence.
    + intros [Ha Hi]. destruct (Hon Ha Hi) as (h & -> & _). discriminate.
Qed.

End Intervals.

(** * The plugin *)

Section PluginFacts.

Variable setInterval_handle : intervals -> nat.
Hypothesis setInterval_handle_fresh : forall window, setInterval_handle window ∉ dom window.

Local Abbreviation setup := (Plugin.setupAutoRefresh setInterval_handle).
Local Abbreviation change_setting' := (Plugin.change_setting setInterval_handle).

Lemma plugin_setupAutoRefresh_facts others g :
  plugin_interval others g ->
  plugin_interval others (setup g)
  /\ modify_handlers (setup g) = S (modify_handlers g)
  /\ plugin_settings (setup g) = plugin_settings g
  /\ data (setup g) = data g
  /\ refreshAllViews_calls (setup g) = refreshAllViews_calls g
  /\ (refreshIntervalId (setup g) <> None <->
      autoRefresh (plugin_settings g) = true /\ (0 < refreshInterval (plugin_settings g))%Z)
  /\ (forall h, refreshIntervalId (setup g) = Some h ->
        plugin_window (setup g) !! h = Some (refreshInterval (plugin_settings g) * 1000)%Z).
Proof using setInterval_handle_fresh.
  intros Hg.
  assert (Hclear : refreshIntervalId (Plugin.clearAutoRefresh g) = None
                   /\ plugin_window (Plugin.clearAutoRefresh g) = others
                   /\ plugin_settings (Plugin.clearAutoRefresh g) = plugin_settings g
                   /\ modify_handlers (Plugin.clearAutoRefresh g) = modify_handlers g
                   /\ data (Plugin.clearAutoRefresh g) = data g
                   /\ refreshAllViews_calls (Plugin.clearAutoRefresh g)
                      = refreshAllViews_calls g).
  { unfold Plugin.clearAutoRefresh.
    destruct Hg as [[Hn Hw] | (h & delay & Hs & Hf & Hw)].
    - rewrite Hn. auto 10.
    - rewrite Hs. cbn. rewrite Hw. repeat split.
      apply delete_insert_id. apply not_elem_of_dom. exact Hf. }
  destruct Hclear as (Hn & Hw & Hs & Hm & Hd & Hc).
  unfold Plugin.setupAutoRefresh. rewrite Hs.
  destruct (autoRefresh (plugin_settings g) && (0 <? refreshInterval (plugin_settings g))%Z)
    eqn:E; cbn [Plugin.register_modify plugin_settings refreshIntervalId plugin_window
                modify_handlers data refreshAllViews_calls].
  - apply andb_true_iff in E as [Ha Hi]. apply Z.ltb_lt in Hi. rewrite Hw, Hm, Hd, Hc.
    split; [right; eexists; eexists; cbn; eauto|].
    repeat split; try discriminate; try assumption.
    intros h Hh. injection Hh as <-. apply lookup_insert_eq.
  - rewrite Hn, Hw, Hm, Hs, Hd, Hc.
    split; [left; cbn; auto|].
    repeat split; try congruence;
      try (intros [Ha Hi]; apply Z.ltb_lt in Hi; rewrite Ha, Hi in E; discriminate).
Qed.

Lemma refreshAllViews_iter n g :
  refreshAllViews_calls (Nat.iter n Plugin.refreshAllViews g) = n + refreshAllViews_calls g.
Proof.
  induction n as [|n IH]; [reflexivity|].
  cbn [Nat.iter nat_rect]. unfold Plugin.refreshAllViews at 1.
  cbn [refreshAllViews_calls]. unfold Nat.iter in IH. rewrite IH. reflexivity.
Qed.

(** X17. The plugin after onload and changes made in the tab.  It holds at most
    one interval, next to those of others, which it does not touch, and none
    when auto-refresh is off or the refresh interval is not above 0.  But the
    handlers of the vault's 'modify' event pile up: onload registers one, and
    one more when auto-refresh is on, and every save of the settings
    registers another, none being removed; a change of a file whose path ends
    with '.md' calls refreshAllViews once for each of them, a change of
    another file never. *)
Theorem plugin_handlers_pile_up
    (loaded : BookHighlightsPluginSettings) (window : intervals) (changes : list change) :
  let g := fold_left (fun g c => change_setting' c g) changes
             (Plugin.onload setInterval_handle loaded window) in
  modify_handlers g = length changes + 1 + (if autoRefresh loaded then 1 else 0)
  /\ plugin_settings g = fold_left (fun s c => onChange c s) changes loaded
  /\ plugin_interval window g
  /\ (refreshIntervalId g <> None <->
      autoRefresh (plugin_settings g) = true /\ (0 < refreshInterval (plugin_settings g))%Z)
  /\ (forall h, refreshIntervalId g = Some h ->
        plugin_window g !! h = Some (refreshInterval (plugin_settings g) * 1000)%Z)
  /\ (changes <> [] -> data g = Some (plugin_settings g))
  /\ (forall path,
        refreshAllViews_calls (Plugin.modify path g)
        = refreshAllViews_calls g
          + (if Str.endsWith ".md" path then modify_handlers g else 0)).
Proof using setInterval_handle_fresh.
  cbv zeta.
  set (start := Plugin.onload setInterval_handle loaded window).
  assert (Hstart : modify_handlers start = 1 + (if autoRefresh loaded then 1 else 0)
                   /\ plugin_settings start = loaded
                   /\ plugin_interval window start
                   /\ (refreshIntervalId start <> None <->
                       autoRefresh (plugin_settings start) = true
                       /\ (0 < refreshInterval (plugin_settings start))%Z)
                   /\ (forall h, refreshIntervalId start = Some h ->
                         plugin_window start !! h
                         = Some (refreshInterval (plugin_settings start) * 1000)%Z)).
  { subst start. unfold Plugin.onload.
    set (g0 := {| plugin_settings := loaded; refreshIntervalId := None;
                  plugin_window := window; modify_handlers := 0; data := None;
                  refreshAllViews_calls := 0 |}).
    destruct (plugin_setupAutoRefresh_facts window g0) as (Hi & Hm & Hs & _ & _ & Hid & Hd);
      [left; split; reflexivity|].
    destruct (autoRefresh loaded) eqn:Ha;
      cbn [Plugin.register_modify modify_handlers plugin_settings refreshIntervalId
             plugin_window];
      rewrite ?Hm, ?Hs; cbn [g0 modify_handlers plugin_settings] in *.
    - split; [reflexivity|]. split; [reflexivity|]. split; [|split; assumption].
      destruct Hi as [[Hn Hw] | (h & delay & Hh & Hf & Hw)]; [left | right; exists h, delay];
        cbn; auto.
    - split; [reflexivity|]. split; [reflexivity|]. split; [exact Hi | split; assumption]. }
  clearbody start. revert start Hstart.
  induction changes as [|c changes IH] using rev_ind; intros start Hstart.
  - cbn [fold_left length]. destruct Hstart as (Hm & Hs & Hi & Hid & Hd).
    split; [lia|]. split; [exact Hs|]. split; [exact Hi|]. split; [exact Hid|].
    split; [exact Hd|]. split; [congruence|].
    intros path. unfold Plugin.modify. destruct (Str.endsWith ".md" path); [|lia].
    rewrite refreshAllViews_iter. lia.
  - rewrite !fold_left_app, List.length_app. cbn [fold_left length].
    destruct (IH start Hstart) as (Hm & Hs & Hi & _ & _ & _ & _).
    set (g := fold_left (fun g c => change_setting' c g) changes start) in *.
    set (g1 := {| plugin_settings := onChange c (plugin_settings g);
                  refreshIntervalId := refreshIntervalId g;
                  plugin_window := plugin_window g;
                  modify_handlers := modify_handlers g;
                  data := Some (onChange c (plugin_settings g));
                  refreshAllViews_calls := refreshAllViews_calls g |}).
    assert (Heq : change_setting' c g = Plugin.refreshAllViews (setup g1)) by reflexivity.
    rewrite Heq. clear Heq.
    assert (Hi1 : plugin_interval window g1).
    { destruct Hi as [[Hn Hw] | (h & delay & Hh & Hf & Hw)]; [left | right; exists h, delay];
        cbn; auto. }
    destruct (plugin_setupAutoRefresh_facts window g1 Hi1)
      as (Hi2 & Hm2 & Hs2 & Hd2 & _ & Hid2 & Hdelay2).
    unfold Plugin.modify.
    cbn [Plugin.refreshAllViews modify_handlers plugin_settings refreshIntervalId
           plugin_window data].
    rewrite Hm2, Hs2, Hd2. cbn [g1 modify_handlers plugin_settings data].
    split; [lia|]. split; [rewrite Hs; reflexivity|].
    split; [destruct Hi2 as [[Hn Hw] | (h & delay & Hh & Hf & Hw)];
            [left | right; exists h, delay]; cbn; auto|].
    split; [exact Hid2|]. split; [exact Hdelay2|]. split; [reflexivity|].
    intros path.
    destruct (Str.endsWith ".md" path); [|lia].
    rewrite refreshAllViews_iter. lia.
Qed.

End PluginFacts.

(** * A window that hands out unused handles *)

Lemma unused_handle_fresh window : unused_handle window ∉ dom window.
Proof.
  unfold unused_handle. intros H. apply (is_fresh (dom window ∪ {[0]})).
  apply elem_of_union_l. exact H.
Qed.

Lemma unused_handle_positive window : 0 < unused_handle window.
Proof.
  unfold unused_handle. destruct (fresh (dom window ∪ {[0]})) as [|n] eqn:E; [|lia].
  exfalso. apply (is_fresh (dom window ∪ {[0]})). rewrite E.
  apply elem_of_union_r. apply elem_of_singleton. reflexivity.
Qed.

Lemma setupAutoRefresh_single_twice :
  let p' := fold_left (fun p settings => setupAutoRefresh unused_handle settings p)
              [DEFAULT_SETTINGS; with_refreshInterval DEFAULT_SETTINGS 60] closed_pane in
  pane_interval ∅ p'
  /\ pane_window (onClose p') = ∅.
Proof.
  cbv zeta.
  destruct (setupAutoRefresh_single unused_handle unused_handle_fresh unused_handle_positive
              ∅ [DEFAULT_SETTINGS; with_refreshInterval DEFAULT_SETTINGS 60] closed_pane)
    as (Hint & _ & _ & Hclose & _).
  - left. split; reflexivity.
  - split; [exact Hint | exact Hclose].
Defined.

Lemma onOpen_pane_vault :
  let p' := onOpen unused_handle Sample.yaml_load Sample.JSON_parse Sample.prototype_get
              (Normal Examples.vault_paths) Examples.vault_read
              (Sample.source_of_coins []) Sample.insertion_sort Sample.createEl
              DEFAULT_SETTINGS closed_pane in
  find_container (contentEl (pane_view p')) = Some 1
  /\ this_refreshInterval p' <> None.
Proof.
  cbv zeta.
  destruct (onOpen_pane unused_handle unused_handle_fresh unused_handle_positive
              Sample.yaml_load Sample.JSON_parse Sample.prototype_get
              (Normal Examples.vault_paths) Examples.vault_read
              (Sample.source_of_coins []) Sample.insertion_sort Sample.createEl
              ∅ DEFAULT_SETTINGS closed_pane)
    as (_ & Hfind & _ & _ & _ & Hint).
  - left. split; reflexivity.
  - split; [exact Hfind|]. apply Hint. split; [reflexivity | cbn; lia].
Defined.

Lemma plugin_handlers_pile_up_typing :
  let g := fold_left (fun g c => Plugin.change_setting unused_handle c g)
             [RefreshInterval "6"; RefreshInterval "60"]
             (Plugin.onload unused_handle DEFAULT_SETTINGS ∅) in
  modify_handlers g = 4
  /\ refreshAllViews_calls (Plugin.modify "Dune.md" g) = refreshAllViews_calls g + 4.
Proof.
  cbv zeta.
  destruct (plugin_handlers_pile_up unused_handle unused_handle_fresh DEFAULT_SETTINGS ∅
              [RefreshInterval "6"; RefreshInterval "60"])
    as (Hm & _ & _ & _ & _ & _ & Hmod).
  split; [exact Hm|]. rewrite (Hmod "Dune.md"), Hm. reflexivity.
Defined.

(** * The scope of a pass *)

Lemma startsWith_app p rest : Str.startsWith p (p +:+ rest) = true.
Proof.
  induction p as [|a p IH]; [reflexivity|].
  rewrite Str_app_cons. cbn [Str.startsWith]. rewrite Ascii.eqb_refl, IH. reflexivity.
Qed.

Lemma startsWith_iff p s : Str.startsWith p s = true <-> exists rest, s = p +:+ rest.
Proof.
  split.
  - intros H. eexists. apply startsWith_split. exact H.
  - intros [rest ->]. apply startsWith_app.
Qed.

Lemma files_in_scope_under settings files :
  highlightsFolder settings <> EmptyString ->
  Str.endsWith "/" (highlightsFolder settings) = false ->
  files_in_scope settings files
  = filter (fun path => Is_true (Str.startsWith (highlightsFolder settings +:+ "/") path)) files.
Proof.
  intros Hne Hend. unfold files_in_scope.
  rewrite (not_empty_is_empty _ Hne), Hend. reflexivity.
Qed.

(** X18. The scope of a pass.  With an empty folder setting it is the whole
    vault.  With a folder that does not end with a slash it is made of the
    files whose path is the folder, a slash and more, in the order of the
    vault: the folder with a slash added gives the same scope, and a file
    that bears the name of the folder or lies in a folder whose name merely
    begins with it is outside.  After the handler of the tab, which removes
    the slashes at the ends, the same holds of what it stored; a value made
    of slashes only means the whole vault. *)
Theorem files_in_scope_folder
    (settings : BookHighlightsPluginSettings) (folder : string) (files : list string) :
  folder <> EmptyString ->
  Str.endsWith "/" folder = false ->
  let scope := files_in_scope (with_highlightsFolder settings folder) files in
  (forall path, In path scope <-> In path files /\ exists rest, path = folder +:+ "/" +:+ rest)
  /\ sublist scope files
  /\ files_in_scope (with_highlightsFolder settings (folder +:+ "/")) files = scope
  /\ files_in_scope (with_highlightsFolder settings EmptyString) files = files
  /\ (forall value,
        files_in_scope (onChange (HighlightsFolder value) settings) files
        = if Str.is_empty (strip_edge_slashes value) then files
          else filter (fun path =>
                         Is_true (Str.startsWith (strip_edge_slashes value +:+ "/") path))
                 files).
Proof.
  intros Hne Hend scope. subst scope.
  rewrite (files_in_scope_under (with_highlightsFolder settings folder) files Hne Hend).
  cbn [highlightsFolder with_highlightsFolder].
  split; [|split; [|split; [|split]]].
  - intros path. rewrite <- !list_elem_of_In, list_elem_of_filter.
    rewrite Is_true_true, startsWith_iff.
    split; intros [H1 H2]; split; try assumption.
    + destruct H1 as [rest ->]. exists rest. apply Str_app_assoc.
    + destruct H2 as [rest ->]. exists rest. symmetry. apply Str_app_assoc.
  - apply sublist_filter.
  - unfold files_in_scope. cbn [highlightsFolder with_highlightsFolder].
    assert (Hne' : folder +:+ "/" <> EmptyString) by (destruct folder; discriminate).
    rewrite (not_empty_is_empty _ Hne'), endsWith_snoc. reflexivity.
  - reflexivity.
  - intros value. unfold files_in_scope.
    cbn [onChange highlightsFolder with_highlightsFolder].
    destruct (Str.is_empty (strip_edge_slashes value)); [reflexivity|].
    pose proof (drop_trailing_no_end "/" (drop_leading "/" value)) as He.
    rewrite <- strip_edge_slashes_closed in He. rewrite He. reflexivity.
Qed.

Lemma files_in_scope_folder_books :
  files_in_scope (with_highlightsFolder DEFAULT_SETTINGS "books")
    ["books/Dune.md"; "bookshelf/list.md"; "books.md"; "books/sf/Solaris.md"]
  = ["books/Dune.md"; "books/sf/Solaris.md"]
  /\ files_in_scope (with_highlightsFolder DEFAULT_SETTINGS "books/")
       ["books/Dune.md"; "bookshelf/list.md"; "books.md"; "books/sf/Solaris.md"]
     = files_in_scope (with_highlightsFolder DEFAULT_SETTINGS "books")
         ["books/Dune.md"; "bookshelf/list.md"; "books.md"; "books/sf/Solaris.md"].
Proof.
  destruct (files_in_scope_folder DEFAULT_SETTINGS "books"
              ["books/Dune.md"; "bookshelf/list.md"; "books.md"; "books/sf/Solaris.md"])
    as (_ & _ & Hslash & _); [discriminate | reflexivity |].
  split; [vm_compute; reflexivity | exact Hslash].
Defined.

(** * The blocks of extractHighlights *)

Lemma run_Lookahead_eq icase r s pos cs k :
  Re.run icase (Re.Lookahead r) s pos cs k
  = match Re.run icase r s pos cs (fun s' pos' cs' => Some (pos', cs', s')) with
    | Some (_, cs', _) => k s pos cs'
    | None => None
    end.
Proof. reflexivity. Qed.

Lemma run_Eol_eq icase s pos cs k :
  Re.run icase Re.Eol s pos cs k
  = match s with EmptyString => k s pos cs | String _ _ => None end.
Proof. reflexivity. Qed.

(** The look-ahead of the callout pattern. *)
Lemma run_block_end s pos cs (k : Re.cont) :
  Re.run false
    (Re.Seq (Re.Lookahead (Re.Alt (Re.Lit empty_line) (Re.Alt (Re.Lit next_callout) Re.Eol)))
       Re.Eps) s pos cs k
  = if block_ends s then k s pos cs else None.
Proof.
  rewrite run_Seq, run_Lookahead_eq, !run_Alt_eq, !run_Lit, run_Eol_eq. unfold block_ends.
  destruct (Str.startsWith empty_line s); [reflexivity|].
  destruct (Str.startsWith next_callout s); [reflexivity|].
  destruct s; reflexivity.
Qed.

Lemma lazy_class_any_ext (k1 k2 : Re.cont) s pos cs :
  (forall s pos cs, k1 s pos cs = k2 s pos cs) ->
  lazy_class (fun _ => true) k1 s pos cs = lazy_class (fun _ => true) k2 s pos cs.
Proof. intros H. apply lazy_class_ext. exact H. Qed.

(** What a match of the callout pattern is made of. *)
Lemma attempt_callout s pos m :
  Re.attempt Patterns.calloutRegex s pos = Some m ->
  Re.m_text m = "> [!" +:+ group_text m 1 +:+ "]" +:+ group_text m 2
  /\ group_text m 1 <> EmptyString
  /\ every (fun c => negb (Ascii.eqb c "]")) (group_text m 1) = true
  /\ Str.indexOf empty_line (group_text m 2) = None
  /\ Str.indexOf next_callout (group_text m 2) = None
  /\ block_ends (Re.m_after m) = true.
Proof.
  intros H. pose proof (attempt_parts _ _ _ _ H) as (Hparts & _ & _).
  unfold Re.attempt in H. cbn [Patterns.calloutRegex Re.re_body Re.re_icase Re.Cat] in H.
  destruct (Re.run _ _ _ _ _ _) as [[[e cs] after]|] eqn:Hrun; [|discriminate].
  injection H as <-. cbn [Re.m_text Re.m_after] in Hparts.
  unfold group_text, Re.m_group. cbn [Re.m_caps Re.m_text Re.m_after].
  rewrite run_Seq, run_Lit in Hrun.
  destruct (Str.startsWith "> [!" s) eqn:Hstart; [|discriminate].
  apply startsWith_split in Hstart.
  set (s1 := Str.drop (String.length "> [!") s) in *.
  apply run_Group_Plus in Hrun as (n1 & Hn1 & Hall1 & Hrun).
  apply run_Chr in Hrun as (s2 & Hs2 & Hrun).
  rewrite run_Seq, run_Group_eq, run_Star_eq in Hrun.
  rewrite (iterate_lazy_class (fun _ => true) _ _ (reads_one_CSet false _)) in Hrun by lia.
  erewrite lazy_class_any_ext in Hrun by (intros; apply run_block_end).
  apply lazy_class_sound in Hrun as (n2 & Hn2 & _ & Hk & Hmin).
  cbv beta in Hk.
  destruct (block_ends (Str.drop n2 s2)) eqn:Hend; [|discriminate].
  injection Hk as He <- <-. cbn [Re.cap Nat.eqb default from_option id].
  match goal with
  | |- context [Str.take ?a s2] => replace a with n2 by lia
  end.
  set (text := "> [!" +:+ Str.take n1 s1 +:+ "]" +:+ Str.take n2 s2).
  assert (Hs : s = text +:+ Str.drop n2 s2).
  { subst text. rewrite Hstart at 1. fold s1. rewrite <- (Str_take_drop n1 s1) at 1.
    rewrite Hs2. rewrite <- (Str_take_drop n2 s2) at 1.
    rewrite !Str_app_assoc. reflexivity. }
  assert (Hlen : e - pos = String.length text).
  { subst text. rewrite !Str_length_app, !Str_length_take by lia.
    change (String.length "> [!") with 4 in *. change (String.length "]") with 1. lia. }
  split; [|split; [|split; [exact Hall1|split; [|split; [|exact Hend]]]]].
  - rewrite Hlen. rewrite Hs at 1. apply Str_take_app.
  - destruct n1; [lia|]. destruct s1; [simpl in Hn1; lia | discriminate].
  - apply indexOf_from_take; [discriminate|]. intros j Hj.
    specialize (Hmin j Hj). cbv beta in Hmin.
    destruct (Str.startsWith empty_line (Str.drop j s2)) eqn:E; [|reflexivity].
    unfold block_ends in Hmin. rewrite E in Hmin. discriminate.
  - apply indexOf_from_take; [discriminate|]. intros j Hj.
    specialize (Hmin j Hj). cbv beta in Hmin.
    destruct (Str.startsWith next_callout (Str.drop j s2)) eqn:E; [|reflexivity].
    unfold block_ends in Hmin. rewrite E, orb_true_r in Hmin. discriminate.
Qed.

Lemma search_callout rest pos m :
  Re.search_from Patterns.calloutRegex rest pos = Some m ->
  rest = Re.m_before m +:+ "> [!" +:+ group_text m 1 +:+ "]" +:+ group_text m 2
         +:+ Re.m_after m
  /\ group_text m 1 <> EmptyString
  /\ every (fun c => negb (Ascii.eqb c "]")) (group_text m 1) = true
  /\ Str.indexOf empty_line (group_text m 2) = None
  /\ Str.indexOf next_callout (group_text m 2) = None
  /\ block_ends (Re.m_after m) = true.
Proof.
  intros H. apply search_from_attempt in H as (m' & Ha & Hc & Ht & Haf & Hs).
  apply attempt_callout in Ha as (Htext & H1 & Hall & He & Hn & Hend).
  unfold group_text, Re.m_group in *. rewrite Hc in *. rewrite Ht in Htext. rewrite Haf in Hend.
  split; [|repeat split; assumption].
  rewrite Hs at 1. rewrite Htext. rewrite !Str_app_assoc. reflexivity.
Qed.

Lemma callout_loop_blocks content filePath frontmatter parsed :
  forall rounds rest pos highlights result consumed,
    content = consumed +:+ rest ->
    Forall (made_from_block content) highlights ->
    callout_loop rounds rest pos filePath frontmatter parsed highlights = Some result ->
    Forall (made_from_block content) result.
Proof.
  induction rounds as [|rounds IH]; intros rest pos highlights result consumed Hc Hall H;
    simpl in H.
  - destruct (Re.search_from Patterns.calloutRegex rest pos); [discriminate|].
    inversion H; subst. assumption.
  - destruct (Re.search_from Patterns.calloutRegex rest pos) as [m|] eqn:Em;
      [|inversion H; subst; assumption].
    destruct (search_callout _ _ _ Em) as (Hrest & H1 & Hall1 & He & Hn & Hend).
    eapply (IH _ _ _ _
              (consumed +:+ Re.m_before m +:+ "> [!" +:+ group_text m 1 +:+ "]"
               +:+ group_text m 2)); [| |exact H].
    + rewrite Hc, Hrest at 1. rewrite !Str_app_assoc. reflexivity.
    + destruct (highlight_of_match filePath frontmatter parsed m) as [h|] eqn:E; [|assumption].
      apply Forall_app. split; [assumption|]. constructor; [|constructor].
      apply highlight_of_match_fields in E as [-> _].
      exists (group_text m 1), (group_text m 2), (consumed +:+ Re.m_before m), (Re.m_after m).
      cbn [date page location text comment].
      split; [|repeat split; assumption].
      rewrite Hc, Hrest at 1. rewrite !Str_app_assoc. reflexivity.
Qed.

(** X19. Every highlight is made from one block, the text between the ']' of a
    callout marker '> [!type]' and the first empty line, the next marker at
    the start of a line, or the end of the note, whichever comes first: the
    block holds no empty line and no such marker, so a highlight never runs
    over an empty line or into the next callout. *)
Theorem extractHighlights_blocks
    (settings : BookHighlightsPluginSettings) (content filePath : string)
    (frontmatter : jsval) :
  exists highlights,
    extractHighlights settings content filePath frontmatter = Normal highlights
    /\ Forall (made_from_block content) highlights.
Proof.
  destruct (extractHighlights_total settings content filePath frontmatter) as [hs Hhs].
  exists hs. split; [exact Hhs|].
  unfold extractHighlights in Hhs.
  destruct (parseTitleAndAuthor settings (Str.after_last "/" filePath)) as [parsed|];
    [|discriminate].
  destruct (callout_loop _ _ _ _ _ _ _) as [result|] eqn:E; [|discriminate].
  inversion Hhs; subst.
  eapply (callout_loop_blocks content _ _ _ _ _ _ _ _ EmptyString); [reflexivity| |exact E].
  constructor.
Qed.
